(** * Synthetic credit-risk panel: generator and label deriver

    A shallow embedding of [0_generate_dataset.py] (the per-entity generation
    loop, the final concatenation and the validation checks) and of
    [module_dataprep.py] ([build_default_flags]), followed by the parts of the
    other scripts that compute something themselves: the feature table of
    [1_train_logit.py], the serving image and the endpoint file of
    [3_deploy_vertex_logit.py], and what [4_predict_logit.py] reads and sends.

    Conventions of the embedding.
    - Python floats are rationals ([Q]).  The properties below are about
      comparisons, [max]/[min], which draw a value is computed from and which
      value is stored where; none is about rounding.
    - numpy's global random generator is a position in a stream of draws: the
      state is the number of draws consumed so far; [unif k] is what the k-th
      draw gives when it is read as a uniform variate on [[0,1)] and [gauss k]
      what it gives when read as a standard normal variate.
    - pandas raising an exception is a [Raise] result.
    - A [pandas.Timestamp] is the record of its calendar fields, compared
      lexicographically. *)

From Stdlib Require Import QArith Qround Lqa ZArith Lia DecimalString.
From Stdlib Require DecimalNat.
From Stdlib Require Import Ascii.
From stdpp Require Import gmap strings list sorting.

Local Open Scope Z_scope.

(** ** Python's [max] and [min] on two floats *)

(** [max(a, b)] keeps [a] unless [b > a]. *)
Definition py_max (a b : Q) : Q := if Qlt_le_dec a b then b else a.

(** [min(a, b)] keeps [a] unless [b < a]. *)
Definition py_min (a b : Q) : Q := if Qlt_le_dec b a then b else a.

(** ** Timestamps *)

Record Timestamp := mkTs {
  year : Z;
  month : Z;
  day : Z;
  time_ns : Z   (* nanoseconds since midnight *)
}.

#[global] Instance Timestamp_eq_dec : EqDecision Timestamp.
Proof. solve_decision. Defined.

Definition ts_compare (a b : Timestamp) : comparison :=
  match year a ?= year b with
  | Eq =>
      match month a ?= month b with
      | Eq =>
          match day a ?= day b with
          | Eq => time_ns a ?= time_ns b
          | c => c
          end
      | c => c
      end
  | c => c
  end.

(** [a <= b] and [a < b] on timestamps, as booleans (the entries of a mask). *)
Definition ts_leb (a b : Timestamp) : bool :=
  match ts_compare a b with Gt => false | _ => true end.
Definition ts_ltb (a b : Timestamp) : bool :=
  match ts_compare a b with Lt => true | _ => false end.

(** [Timestamp.normalize()] / [.dt.normalize()]: midnight of the same day. *)
Definition normalize (t : Timestamp) : Timestamp :=
  {| year := year t; month := month t; day := day t; time_ns := 0 |}.

Definition is_leap (y : Z) : bool :=
  ((y mod 4 =? 0) && negb (y mod 100 =? 0)) || (y mod 400 =? 0).

Definition days_in_month (y m : Z) : Z :=
  if m =? 2 then (if is_leap y then 29 else 28)
  else if (m =? 4) || (m =? 6) || (m =? 9) || (m =? 11) then 30
  else 31.

(** [t + pd.DateOffset(months=n)]: calendar month arithmetic, the day clipped
    to the length of the target month, the time of day kept. *)
Definition add_months (t : Timestamp) (n : Z) : Timestamp :=
  let total := year t * 12 + (month t - 1) + n in
  let y := total / 12 in
  let m := total mod 12 + 1 in
  {| year := y; month := m; day := Z.min (day t) (days_in_month y m);
     time_ns := time_ns t |}.

(** ** Tables *)

(** One row of the long table.  A missing cell (NaN) is [None].  [dummies]
    holds the columns [f_dummy1] .. [f_dummy5] and [labels] the columns that
    the label deriver adds, both keyed by column name in column order. *)
Record Row := mkRow {
  id : string;
  date : Timestamp;
  default_ind : Z;
  sector : option string;
  credit_limit : option Q;
  used_amount : option Q;
  dummies : list (string * option Q);
  labels : list (string * option Z)
}.

Abbreviation DataFrame := (list Row).

(** Exceptions raised by Python, numpy and pandas. *)
Inductive exn := ValueError | IndexError | KeyError | ZeroDivisionError.

Inductive result (A : Type) : Type :=
  | Ok (a : A)
  | Raise (e : exn).
Arguments Ok {A} a.
Arguments Raise {A} e.

(** [f"{n}"] for a non-negative integer *)
Definition str_of_nat (n : nat) : string := NilZero.string_of_uint (Nat.to_uint n).

(** * The panel generator ([0_generate_dataset.py]) *)

Module Generator.

(** Computations that consume random draws and may raise: the state is the
    number of draws taken from the global generator so far. *)
Definition M (A : Type) : Type := nat → result (A * nat).

#[export] Instance M_ret : MRet M := λ A a s, Ok (a, s).
#[export] Instance M_bind : MBind M := λ A B k m s,
  match m s with
  | Ok (a, s') => k a s'
  | Raise e => Raise e
  end.
Definition raise {A} (e : exn) : M A := λ _, Raise e.

(** The per-entity table [id_df], column by column.  The regressor columns
    hold optional cells because the nullification pass writes NaN into them. *)
Record IdFrame := mkFrame {
  fr_id : string;
  fr_date : list Timestamp;
  fr_default_ind : list Z;
  fr_sector : list (option string);
  fr_credit_limit : list (option Q);
  fr_used_amount : list (option Q);
  fr_dummy : list (string * list (option Q))
}.

(** [f"ID_{i+1:04d}"] and [f"f_dummy{i}"]. *)
Definition zfill (width : nat) (s : string) : string :=
  String.concat "" (replicate (width - String.length s) "0"%string) +:+ s.
Definition id_name (i : nat) : string := "ID_" +:+ zfill 4 (str_of_nat (i + 1)).
Definition dummy_name (i : nat) : string := "f_dummy" +:+ str_of_nat i.

(** [int(n * 0.10)].  The double nearest to 0.1 is a little above 1/10, so for
    every grid length that fits a double exactly the product truncates to the
    integer quotient of [n] by 10. *)
Definition int_tenth (n : nat) : nat := (n / 10)%nat.

Section Run.

(** The draws of the random generator, numpy's square root and the shared
    time grid [date_range]. *)
Variable unif : nat → Q.
Variable gauss : nat → Q.
Variable np_sqrt : Q → Q.
Variable date_range : list Timestamp.

(** [no_obs_per_id = len(date_range)] *)
Definition no_obs_per_id : nat := length date_range.

(** *** numpy.random *)

(** [np.random.rand()] *)
Definition rand : M Q := λ s, Ok (unif s, S s).

(** [np.random.uniform(low, high)] *)
Definition uniform (low high : Q) : M Q :=
  u ← rand; mret (low + (high - low) * u)%Q.

(** [np.random.randint(low, high)]: an integer of [[low, high)]; raises
    ValueError when [low >= high]. *)
Definition randint (low high : nat) : M nat :=
  if decide (high ≤ low)%nat then raise ValueError
  else u ← rand;
       mret (low + Z.to_nat (Qfloor (u * inject_Z (Z.of_nat (high - low)))))%nat.

(** [np.random.choice(a)] for a list [a] *)
Definition choice {A} (a : list A) : M A :=
  match a with
  | [] => raise ValueError
  | _ =>
      i ← randint 0 (length a);
      match a !! i with
      | Some x => mret x
      | None => raise IndexError
      end
  end.

(** [np.random.normal(loc, scale)] *)
Definition normal (loc scale : Q) : M Q :=
  λ s, Ok ((loc + scale * gauss s)%Q, S s).

(** [np.random.normal(0, 1, size)] *)
Definition normal_vec (size : nat) : M (list Q) :=
  λ s, Ok (gauss <$> seq s size, (s + size)%nat).

(** *** pandas *)

(** [col.iloc[i]] / [id_df.iloc[i][...]] *)
Definition iloc {A} (col : list A) (i : nat) : M A :=
  match col !! i with
  | Some x => mret x
  | None => raise IndexError
  end.

(** [id_df[name] = values] for a list or an array: the length must be that of
    the index. *)
Definition assign_column {A} (values : list A) : M (list A) :=
  if decide (length values = no_obs_per_id) then mret values
  else raise ValueError.

(** [a / b] on Python numbers *)
Definition py_truediv (a b : Q) : M Q :=
  if Qeq_dec b 0 then raise ZeroDivisionError else mret (a / b)%Q.

(** *** Lines 53: the noise scales, drawn once before the entity loop *)

Fixpoint draw_n_dummies (features : list nat) : M (gmap string Q) :=
  match features with
  | [] => mret ∅
  | i :: rest =>
      n ← uniform 0 1000;
      d ← draw_n_dummies rest;
      mret (<[dummy_name i := n]> d)
  end.

(** *** Lines 64-80: the default indicator *)

(** Lines 66-72. *)
Definition draw_first_default_idx : M nat :=
  let min_default_idx := int_tenth no_obs_per_id in
  let min_default_idx :=
    if decide (no_obs_per_id ≤ min_default_idx)%nat
    then (if decide (0 < no_obs_per_id)%nat then no_obs_per_id - 1 else 0)%nat
    else min_default_idx in
  randint min_default_idx no_obs_per_id.

Definition default_stage (_id : string)
    (first_default_dates : gmap string (option Timestamp))
  : M (list Z * gmap string (option Timestamp)) :=
  u ← rand;
  if Qlt_le_dec u (5 # 100) then
    first_default_idx ← draw_first_default_idx;
    default_date ← iloc date_range first_default_idx;
    mret ((λ d, if ts_leb default_date d then 1 else 0) <$> date_range,
          <[_id := Some default_date]> first_default_dates)
  else
    mret (replicate no_obs_per_id 0, <[_id := None]> first_default_dates).

(** *** Lines 87-104: the credit limit path *)

(** The body of [for i in range(1, no_obs_per_id)], run [n] times; returns the
    values appended to [credit_limits]. *)
Fixpoint credit_limit_loop (n : nat) (current_limit : Q) : M (list Q) :=
  match n with
  | O => mret []
  | S n' =>
      u ← rand;
      p ← py_truediv 1 (inject_Z (Z.of_nat no_obs_per_id));
      new ←
        (if Qlt_le_dec u p then
           change_percent ← uniform (20 # 100) (30 # 100);
           let change_amount := (current_limit * change_percent)%Q in
           v ← rand;
           let new_limit :=
             if Qlt_le_dec v (1 # 2) then (current_limit + change_amount)%Q
             else (current_limit - change_amount)%Q in
           mret (py_max 10000 new_limit)
         else mret current_limit);
      rest ← credit_limit_loop n' new;
      mret (new :: rest)
  end.

Definition credit_limit_path (initial_credit_limit : Q) : M (list Q) :=
  rest ← credit_limit_loop (no_obs_per_id - 1) initial_credit_limit;
  mret (initial_credit_limit :: rest).

(** *** Lines 109-136: the used amount *)

(** The body of [for i in range(no_obs_per_id)], over the indices [idxs]. *)
Fixpoint used_amount_loop (credit_limit_col : list Q) (std_epsilon : Q)
    (idxs : list nat) (current_used_amount : Q) : M (list Q) :=
  match idxs with
  | [] => mret []
  | i :: rest =>
      limit ← iloc credit_limit_col i;
      let current_used_amount := py_max 0 (py_min limit current_used_amount) in
      epsilon ← normal 0 std_epsilon;
      used ← used_amount_loop credit_limit_col std_epsilon rest
               (current_used_amount + epsilon)%Q;
      mret (current_used_amount :: used)
  end.

Definition used_amount_stage (initial_credit_limit : Q)
    (credit_limit_col : list Q) : M (list Q) :=
  let base_std_epsilon :=
    ((initial_credit_limit / 2) /
     ((128 # 100) * np_sqrt (inject_Z (Z.of_nat no_obs_per_id))))%Q in
  jitter ← uniform (1 # 2) (3 # 2);
  let std_epsilon := (base_std_epsilon * jitter)%Q in
  let std_epsilon := py_max 100 std_epsilon in
  used_amount_loop credit_limit_col std_epsilon (seq 0 no_obs_per_id)
    (initial_credit_limit / 2)%Q.

(** *** Lines 139-142: the noise features *)

Fixpoint dummy_stage (n_dummies : gmap string Q) (features : list nat)
  : M (list (string * list Q)) :=
  match features with
  | [] => mret []
  | i :: rest =>
      let col_name := dummy_name i in
      match n_dummies !! col_name with
      | None => raise KeyError
      | Some n =>
          z ← normal_vec no_obs_per_id;
          col ← assign_column (Qmult n <$> z);
          cols ← dummy_stage n_dummies rest;
          mret ((col_name, col) :: cols)
      end
  end.

(** *** Lines 147-155: nullification on default *)

(** [id_df.loc[id_df["date"] >= default_date, cols_to_nullify] = np.nan] on one
    column of [cols_to_nullify]. *)
Definition nullify_column {A} (dates : list Timestamp) (default_date : Timestamp)
    (col : list (option A)) : list (option A) :=
  zip_with (λ d c, if ts_leb default_date d then None else c) dates col.

(** [cols_to_nullify] is every column but [id], [date] and [default_ind]:
    [sector], [credit_limit], [used_amount] and the five [f_dummy] columns. *)
Definition nullify (id_df : IdFrame) (default_date : Timestamp) : IdFrame :=
  let nan {A} := @nullify_column A (fr_date id_df) default_date in
  {| fr_id := fr_id id_df;
     fr_date := fr_date id_df;
     fr_default_ind := fr_default_ind id_df;
     fr_sector := nan (fr_sector id_df);
     fr_credit_limit := nan (fr_credit_limit id_df);
     fr_used_amount := nan (fr_used_amount id_df);
     fr_dummy := (λ c : string * list (option Q), (c.1, nan c.2)) <$> fr_dummy id_df |}.

Definition nullify_stage (_id : string)
    (first_default_dates : gmap string (option Timestamp)) (id_df : IdFrame)
  : M IdFrame :=
  match first_default_dates !! _id with
  | None => raise KeyError
  | Some None => mret id_df
  | Some (Some default_date) => mret (nullify id_df default_date)
  end.

(** *** Lines 59-157: the body of the entity loop *)

Definition gen_id (n_dummies : gmap string Q) (_id : string)
    (first_default_dates : gmap string (option Timestamp))
  : M (IdFrame * gmap string (option Timestamp)) :=
  '(default_col, first_default_dates) ← default_stage _id first_default_dates;
  sector_value ← choice ["A"; "B"; "C"; "D"]%string;
  initial_credit_limit ← uniform 100000 5000000;
  credit_limits ← credit_limit_path initial_credit_limit;
  credit_limit_col ← assign_column (credit_limits : list Q);
  used_amounts ← used_amount_stage initial_credit_limit credit_limit_col;
  used_amount_col ← assign_column (used_amounts : list Q);
  dummy_cols ← dummy_stage n_dummies [1; 2; 3; 4; 5]%nat;
  let id_df :=
    {| fr_id := _id;
       fr_date := date_range;
       fr_default_ind := default_col;
       fr_sector := replicate no_obs_per_id (Some sector_value);
       fr_credit_limit := Some <$> credit_limit_col;
       fr_used_amount := Some <$> used_amount_col;
       fr_dummy := (λ c : string * list Q, (c.1, Some <$> c.2)) <$> dummy_cols |} in
  id_df ← nullify_stage _id first_default_dates id_df;
  mret (id_df, first_default_dates).

(** [for _id in ids: ...; all_id_data.append(id_df)] *)
Fixpoint id_loop (n_dummies : gmap string Q) (ids : list string)
    (first_default_dates : gmap string (option Timestamp))
  : M (list IdFrame * gmap string (option Timestamp)) :=
  match ids with
  | [] => mret ([], first_default_dates)
  | _id :: rest =>
      '(id_df, first_default_dates) ← gen_id n_dummies _id first_default_dates;
      '(all_id_data, first_default_dates) ← id_loop n_dummies rest first_default_dates;
      mret (id_df :: all_id_data, first_default_dates)
  end.

(** *** Line 160: concatenation *)

Definition frame_rows (fr : IdFrame) : DataFrame :=
  imap (λ i d,
    {| id := fr_id fr;
       date := d;
       default_ind := default 0 (fr_default_ind fr !! i);
       sector := mjoin (fr_sector fr !! i);
       credit_limit := mjoin (fr_credit_limit fr !! i);
       used_amount := mjoin (fr_used_amount fr !! i);
       dummies := (λ c : string * list (option Q), (c.1, mjoin (c.2 !! i)))
                    <$> fr_dummy fr;
       labels := [] |}) (fr_date fr).

(** [pd.concat(all_id_data).reset_index(drop=True)]: pandas refuses an empty
    list of frames ("No objects to concatenate"). *)
Definition pd_concat (all_id_data : list IdFrame) : M DataFrame :=
  match all_id_data with
  | [] => raise ValueError
  | _ => mret (mjoin (frame_rows <$> all_id_data))
  end.

(** *** The script up to [final_df] *)

Definition generate (num_ids : nat)
  : M (DataFrame * list IdFrame * gmap string (option Timestamp)) :=
  let ids := id_name <$> seq 0 num_ids in
  n_dummies ← draw_n_dummies [1; 2; 3; 4; 5]%nat;
  '(all_id_data, first_default_dates) ← id_loop n_dummies ids ∅;
  final_df ← pd_concat all_id_data;
  mret (final_df, all_id_data, first_default_dates).

End Run.

End Generator.

(** * The label deriver ([module_dataprep.py]) *)

Module Dataprep.

(** DataFrames are mutable objects: the store maps references to tables, and
    a Python variable holds a reference. *)
Definition loc := positive.
Abbreviation store := (gmap loc DataFrame).

(** A statement either fails on a dangling reference or returns a value and
    the new store. *)
Definition H (A : Type) : Type := store → option (A * store).

#[export] Instance H_ret : MRet H := λ A a h, Some (a, h).
#[export] Instance H_bind : MBind H := λ A B k m h,
  match m h with
  | Some (a, h') => k a h'
  | None => None
  end.

Definition alloc (df : DataFrame) : H loc :=
  λ h, let l := fresh (dom h) in Some (l, <[l := df]> h).
Definition read (l : loc) : H DataFrame :=
  λ h, match h !! l with Some df => Some (df, h) | None => None end.
Definition write (l : loc) (df : DataFrame) : H unit :=
  λ h, match h !! l with Some _ => Some ((), <[l := df]> h) | None => None end.

(** [df.copy()]: a new object with the same rows *)
Definition df_copy (l : loc) : H loc := rows ← read l; alloc rows.

Definition set_date (r : Row) (d : Timestamp) : Row :=
  {| id := id r; date := d; default_ind := default_ind r; sector := sector r;
     credit_limit := credit_limit r; used_amount := used_amount r;
     dummies := dummies r; labels := labels r |}.

(** [out["date"] = values]: assignment to a column of the object itself *)
Definition setitem_date (l : loc) (values : list Timestamp) : H unit :=
  rows ← read l; write l (zip_with set_date rows values).

(** [.drop_duplicates()]: the first occurrence of each value is kept *)
Fixpoint drop_duplicates_from (seen : list string) (col : list string) : list string :=
  match col with
  | [] => []
  | x :: rest =>
      if decide (x ∈ seen) then drop_duplicates_from seen rest
      else x :: drop_duplicates_from (x :: seen) rest
  end.
Definition drop_duplicates (col : list string) : list string :=
  drop_duplicates_from [] col.

(** [.sort_values()] on a column of strings *)
Definition str_le (a b : string) : Prop := String.leb a b = true.
#[export] Instance str_le_dec : RelDecision str_le.
Proof. intros a b. unfold str_le. apply _. Defined.
Definition sort_values (col : list string) : list string := merge_sort str_le col.

(** [.groupby("id")["default_ind"].max()] *)
Definition groupby_max (rows : DataFrame) : gmap string Z :=
  foldr (λ r m,
    <[id r := match m !! id r with
              | Some v => Z.max (default_ind r) v
              | None => default_ind r
              end]> m) ∅ rows.

(** [.reindex(ids, fill_value=0)] followed by [.reset_index()]: one row
    [(id, value)] per element of [ids], in that order. *)
Definition reindex (ids : list string) (fill_value : Z) (s : gmap string Z)
  : list (string * Z) :=
  (λ i, (i, default fill_value (s !! i))) <$> ids.

Definition add_label (r : Row) (name : string) (v : option Z) : Row :=
  {| id := id r; date := date r; default_ind := default_ind r; sector := sector r;
     credit_limit := credit_limit r; used_amount := used_amount r;
     dummies := dummies r; labels := labels r ++ [(name, v)] |}.

(** [pd.merge(left, right, on="id", how="left")] where [right] has the
    columns [id] and [name]: every row of [left], in order, once per matching
    row of [right], and once with a missing value when nothing matches.  The
    new column keeps its name [name], as it does in pandas when [left] has no
    column of that name (otherwise pandas renames both, to [name_x] and
    [name_y]). *)
Definition merge_left (left : DataFrame) (right : list (string * Z)) (name : string)
  : DataFrame :=
  left ≫= λ r,
    match List.filter (λ p, bool_decide (p.1 = id r)) right with
    | [] => [add_label r name None]
    | ms => (λ p, add_label r name (Some p.2)) <$> ms
    end.

(** [f"def_ind_{n}m"] *)
Definition label_name (n : nat) : string := "def_ind_" +:+ str_of_nat n +:+ "m".

(** The window mask of horizon [n]: strictly after the cutoff, up to and
    including [horizon_end]. *)
Definition window_mask (data_cutoff : Timestamp) (n : nat) (r : Row) : bool :=
  let horizon_end := add_months data_cutoff (Z.of_nat n) in
  ts_ltb data_cutoff (date r) && ts_leb (date r) horizon_end.

(** The body of [for n in (1, 2, 3)]; [out] is rebound at every turn. *)
Fixpoint horizon_loop (ns : list nat) (ids : list string)
    (data_cutoff : Timestamp) (out : loc) : H loc :=
  match ns with
  | [] => mret out
  | n :: rest =>
      rows ← read out;
      let s := reindex ids 0
                 (groupby_max (List.filter (window_mask data_cutoff n) rows)) in
      out ← alloc (merge_left rows s (label_name n));
      horizon_loop rest ids data_cutoff out
  end.

Definition build_default_flags (df : loc) (data_cutoff : Timestamp) : H loc :=
  out ← df_copy df;
  rows ← read out;
  _ ← setitem_date out (normalize <$> (date <$> rows));
  let data_cutoff := normalize data_cutoff in
  rows ← read out;
  let ids := sort_values (drop_duplicates (id <$> rows)) in
  out ← horizon_loop [1; 2; 3]%nat ids data_cutoff out;
  rows ← read out;
  alloc (List.filter (λ r, ts_leb (date r) data_cutoff) rows).

End Dataprep.

(** * The validation checks of the generator ([0_generate_dataset.py], lines
      174-263) *)

Module Checks.

(** Lines 187-190: the rows of the sampled entity from its first-default date
    on. *)
Definition default_rows (final_df : DataFrame) (sample_id : string)
    (sample_default_date : Timestamp) : DataFrame :=
  List.filter (λ r, bool_decide (id r = sample_id) &&
                    ts_leb sample_default_date (date r)) final_df.

(** Lines 191-193: its rows before that date. *)
Definition pre_default_rows (final_df : DataFrame) (sample_id : string)
    (sample_default_date : Timestamp) : DataFrame :=
  List.filter (λ r, bool_decide (id r = sample_id) &&
                    ts_ltb (date r) sample_default_date) final_df.

(** [x.isna()] on one cell *)
Definition isna {A} (x : option A) : bool :=
  match x with None => true | Some _ => false end.

(** Lines 226-228: [nullified_cols] is every column of [final_df] but [id],
    [date] and [default_ind]; the cells of a row under these columns. *)
Definition nullified_cols (r : Row) : list string :=
  ["sector"; "credit_limit"; "used_amount"]%string ++ (dummies r).*1 ++ (labels r).*1.
Definition nullified_cells_isna (r : Row) : list bool :=
  [isna (sector r); isna (credit_limit r); isna (used_amount r)]
  ++ (isna <$> (dummies r).*2) ++ (isna <$> (labels r).*2).

(** [row[nullified_cols].isna().sum().sum()] *)
Definition isna_sum (r : Row) : nat :=
  length (List.filter (λ b, b) (nullified_cells_isna r)).

(** Lines 258-262: the rows where both amounts are present and the used
    amount exceeds the credit limit. *)
Definition issues (final_df : DataFrame) : DataFrame :=
  List.filter (λ r,
    match used_amount r, credit_limit r with
    | Some u, Some c => if Qlt_le_dec c u then true else false
    | _, _ => false
    end) final_df.

End Checks.

(** * The serving image of the deployment ([3_deploy_vertex_logit.py], lines
      18-20) *)

Module Deploy.

(** [s.split(sep)] for a separator of one character: the pieces between the
    occurrences of [sep], of which there is always at least one. *)
Fixpoint split (sep : ascii) (s : string) : list string :=
  match s with
  | EmptyString => [EmptyString]
  | String c rest =>
      if Ascii.eqb c sep then EmptyString :: split sep rest
      else match split sep rest with
           | piece :: pieces => String c piece :: pieces
           | [] => [String c EmptyString]
           end
  end.

(** [s.replace(old, new)] for [old] and [new] of one character *)
Fixpoint replace (old new : ascii) (s : string) : string :=
  match s with
  | EmptyString => EmptyString
  | String c rest => String (if Ascii.eqb c old then new else c) (replace old new rest)
  end.

(** [".".join(ver.split(".")[:2])] *)
Definition major_minor (ver : string) : string :=
  String.concat "." (take 2 (split "." ver)).

(** [f"us-docker.pkg.dev/vertex-ai/prediction/sklearn-cpu.{major_minor.replace('.', '-')}:latest"] *)
Definition image (ver : string) : string :=
  "us-docker.pkg.dev/vertex-ai/prediction/sklearn-cpu."
  +:+ replace "." "-" (major_minor ver) +:+ ":latest".

End Deploy.

(** * The endpoint name, from deployment to prediction
      ([3_deploy_vertex_logit.py], lines 54-56; [4_predict_logit.py], lines
      10-11) *)

Module EndpointFile.

(** Text is a string of characters below 256; line feed, carriage return and
    the double quote are the characters 10, 13 and 34. *)
Definition LF : ascii := "010"%char.
Definition CR : ascii := "013"%char.
Definition quotechar : ascii := "034"%char.
Definition delimiter : ascii := ","%char.

(** [csv.writer(file)] in its default dialect: a field is quoted when it
    holds the delimiter, the quote character or a character of the line
    terminator; inside the quotes a quote character is doubled. *)
Definition special (c : ascii) : bool :=
  Ascii.eqb c delimiter || Ascii.eqb c quotechar ||
  Ascii.eqb c CR || Ascii.eqb c LF.

Fixpoint needs_quoting (field : string) : bool :=
  match field with
  | EmptyString => false
  | String c rest => special c || needs_quoting rest
  end.

Fixpoint double_quotes (field : string) : string :=
  match field with
  | EmptyString => EmptyString
  | String c rest =>
      if Ascii.eqb c quotechar then String c (String c (double_quotes rest))
      else String c (double_quotes rest)
  end.

(** [writer.writerow([field])]: the record of one field and the line
    terminator [\r\n]; a record that would be empty is written as a pair of
    quotes. *)
Definition writerow (field : string) : string :=
  (if needs_quoting field || bool_decide (field = EmptyString)
   then String quotechar (double_quotes field +:+ String quotechar EmptyString)
   else field)
  +:+ String CR (String LF EmptyString).

(** Writing to a file opened with [newline=None]: each [\n] becomes
    [os.linesep]. *)
Fixpoint write_newlines (linesep : string) (s : string) : string :=
  match s with
  | EmptyString => EmptyString
  | String c rest =>
      if Ascii.eqb c LF then linesep +:+ write_newlines linesep rest
      else String c (write_newlines linesep rest)
  end.

(** Reading from a file opened with the default [newline=None]: [\r\n] and
    [\r] become [\n].  The flag says that the character before was [\r]. *)
Fixpoint read_newlines (after_cr : bool) (s : string) : string :=
  match s with
  | EmptyString => EmptyString
  | String c rest =>
      if Ascii.eqb c CR then String LF (read_newlines true rest)
      else if Ascii.eqb c LF && after_cr then read_newlines false rest
      else String c (read_newlines false rest)
  end.

(** [c.isspace()] for a character below 256 *)
Definition isspace (c : ascii) : bool :=
  let n := nat_of_ascii c in
  ((9 <=? n) && (n <=? 13) || (28 <=? n) && (n <=? 32) ||
   (n =? 133) || (n =? 160))%nat.

(** [s.strip()] *)
Fixpoint lstrip (s : string) : string :=
  match s with
  | EmptyString => EmptyString
  | String c rest => if isspace c then lstrip rest else s
  end.
Fixpoint rstrip (s : string) : string :=
  match s with
  | EmptyString => EmptyString
  | String c rest =>
      match rstrip rest with
      | EmptyString => if isspace c then EmptyString else String c EmptyString
      | kept => String c kept
      end
  end.
Definition strip (s : string) : string := lstrip (rstrip s).

(** What [4_predict_logit.py] holds in [ENDPOINT_NAME] after
    [3_deploy_vertex_logit.py] has written [resource_name]. *)
Definition ENDPOINT_NAME (linesep : string) (resource_name : string) : string :=
  strip (read_newlines false (write_newlines linesep (writerow resource_name))).

End EndpointFile.

(** * The feature table of the training script ([1_train_logit.py], lines
      15-27 and 39) and the instance of the prediction script
      ([4_predict_logit.py], line 14) *)

Module Train.

(** [data] is the table read back from the CSV file that the generator
    script wrote: rows of the label deriver's output. *)

(** [.mean()] of a column, missing values skipped: missing when nothing is
    left. *)
Definition mean (xs : list Q) : option Q :=
  match xs with
  | [] => None
  | _ => Some (foldr Qplus 0 xs / inject_Z (Z.of_nat (length xs)))%Q
  end.

(** Line 19: [data.groupby("id")["credit_limit"].transform("mean")], the cell
    of one row. *)
Definition key_target (data : DataFrame) (r : Row) : option Q :=
  mean (omap credit_limit
          (List.filter (λ r', bool_decide (id r' = id r)) data)).

(** The columns of [data] after line 19, in order, and the cells of a row
    under the numeric ones. *)
Definition columns (r : Row) : list string :=
  ["id"; "date"; "default_ind"; "sector"; "credit_limit"; "used_amount"]%string
  ++ (dummies r).*1 ++ (labels r).*1 ++ ["key_target"%string].
Definition numeric_cells (data : DataFrame) (r : Row) : list (string * option Q) :=
  [("default_ind"%string, Some (inject_Z (default_ind r)));
   ("credit_limit"%string, credit_limit r);
   ("used_amount"%string, used_amount r)]
  ++ dummies r
  ++ ((λ c : string * option Z, (c.1, inject_Z <$> c.2)) <$> labels r)
  ++ [("key_target"%string, key_target data r)].

(** Line 22 *)
Definition drop_cols : list string :=
  ["def_ind_1m"; "def_ind_2m"; "def_ind_3m"; "date"; "sector"; "id"]%string.

(** Lines 23-24: [data.drop(columns=drop_cols, axis=1).fillna(0)], one row of
    [X_train]; [drop] raises KeyError when a name of [drop_cols] is not a
    column. *)
Definition X_train_row (data : DataFrame) (r : Row) : result (list (string * Q)) :=
  if forallb (λ c, bool_decide (c ∈ columns r)) drop_cols
  then Ok ((λ c : string * option Q, (c.1, default 0%Q c.2)) <$>
           List.filter (λ c, bool_decide (c.1 ∉ drop_cols)) (numeric_cells data r))
  else Raise KeyError.

(** Line 39: [feature_list = list(X_train.columns)] *)
Definition feature_list (x_row : list (string * Q)) : list string := x_row.*1.

End Train.

Module Predict.

(** Line 14 *)
Definition values : list Z :=
  [0; 1000000; 500000; 1000; 1000; 1000; 1000; 1000; 300000].

End Predict.

(** * The vocabulary of the statements *)

Import Generator Dataprep.

(** ** The label deriver *)

(** The value of the [n]-month flag of entity [i], computed on the
    normalised table [rows]. *)
Definition flag (rows : DataFrame) (c : Timestamp) (n : nat) (i : string) : Z :=
  default 0 (groupby_max (List.filter (window_mask c n) rows) !! i).

Definition add_flag (rows : DataFrame) (c : Timestamp) (n : nat) (r : Row) : Row :=
  add_label r (label_name n) (Some (flag rows c n (id r))).

Fixpoint add_flags (ns : list nat) (c : Timestamp) (rows : DataFrame) : DataFrame :=
  match ns with
  | [] => rows
  | n :: rest => add_flags rest c (add_flag rows c n <$> rows)
  end.

Definition norm_row (r : Row) : Row := set_date r (normalize (date r)).

Definition labelled (df : DataFrame) (cutoff : Timestamp) : DataFrame :=
  List.filter (λ r, ts_leb (date r) (normalize cutoff))
    (add_flags [1; 2; 3]%nat (normalize cutoff) (norm_row <$> df)).

(** [h'] agrees with [h] on every object of [h]. *)
Definition extends (h h' : store) : Prop :=
  ∀ l, is_Some (h !! l) → h' !! l = h !! l.

(** One output row: the source row at midnight with the three flags. *)
Definition with_flags (rows : DataFrame) (c : Timestamp) (r : Row) : Row :=
  add_flag rows c 3 (add_flag rows c 2 (add_flag rows c 1 r)).

(** The rows at or before the cutoff, by calendar day. *)
Definition in_scope (cutoff : Timestamp) (r : Row) : bool :=
  ts_leb (normalize (date r)) (normalize cutoff).

(** Row [r] of the input falls in the window of horizon [n]. *)
Definition in_window (cutoff : Timestamp) (n : nat) (r : Row) : bool :=
  ts_ltb (normalize cutoff) (normalize (date r)) &&
  ts_leb (normalize (date r)) (add_months (normalize cutoff) (Z.of_nat n)).

(** Entity [i] has a row in default in the window of horizon [n]. *)
Definition defaults_within (df : DataFrame) (cutoff : Timestamp) (n : nat)
    (i : string) : Prop :=
  ∃ r, r ∈ df ∧ id r = i ∧ in_window cutoff n r = true ∧ default_ind r = 1.

(** The value of a label: 1 with a default in the window, 0 without. *)
Definition label_ok (df : DataFrame) (cutoff : Timestamp) (n : nat)
    (i : string) (v : Z) : Prop :=
  (v = 1 ∧ defaults_within df cutoff n i) ∨
  (v = 0 ∧ ¬ defaults_within df cutoff n i).

Definition binary_default_ind (df : DataFrame) : Prop :=
  Forall (λ r, default_ind r = 0 ∨ default_ind r = 1) df.

(** Number of occurrences of a key in a column of keys. *)
Definition occurrences (k : string * Timestamp) (keys : list (string * Timestamp)) : nat :=
  length (List.filter (λ k', bool_decide (k' = k)) keys).

Definition key (r : Row) : string * Timestamp := (id r, date r).
Definition day_key (r : Row) : string * Timestamp := (id r, normalize (date r)).

(** The three label columns that the deriver appends to a row of entity [i]. *)
Definition appended_labels (v1 v2 v3 : Z) : list (string * option Z) :=
  [("def_ind_1m"%string, Some v1); ("def_ind_2m"%string, Some v2);
   ("def_ind_3m"%string, Some v3)].

(** ** The generator *)

(** The draws read as uniform variates lie in [[0, 1)]. *)
Definition unit_interval (u : nat → Q) : Prop := ∀ s, (0 <= u s)%Q ∧ (u s < 1)%Q.

Definition features : list nat := [1; 2; 3; 4; 5]%nat.

Definition has_features (nd : gmap string Q) : Prop :=
  ∀ k, k ∈ features → is_Some (nd !! dummy_name k).

Section GeneratorSpec.

Variable gauss : nat → Q.
Variable date_range : list Timestamp.

Local Abbreviation L := (no_obs_per_id date_range).

(** What [default_stage] leaves behind: the column and the dictionary entry. *)
Inductive default_outcome (_id : string)
    (fdd : gmap string (option Timestamp))
  : list Z → gmap string (option Timestamp) → Prop :=
  | Defaulted idx default_date :
      (int_tenth L ≤ idx)%nat →
      date_range !! idx = Some default_date →
      default_outcome _id fdd
        ((λ d, if ts_leb default_date d then 1 else 0) <$> date_range)
        (<[_id := Some default_date]> fdd)
  | Survived :
      default_outcome _id fdd (replicate L 0) (<[_id := None]> fdd).

(** Column [k] of the noise features as [dummy_stage] builds it: the scale
    read from [n_dummies] times [L] consecutive standard normal draws. *)
Definition dummy_column_of (n_dummies : gmap string Q) (k : nat)
    (c : string * list Q) : Prop :=
  ∃ n p, n_dummies !! dummy_name k = Some n ∧
         c = (dummy_name k, Qmult n <$> (gauss <$> seq p L)).

(** [id_df] as it stands before the nullification pass. *)
Definition raw_frame (_id : string) (default_col : list Z) (sector_value : string)
    (limits used : list Q) (dcols : list (string * list Q)) : IdFrame :=
  {| fr_id := _id;
     fr_date := date_range;
     fr_default_ind := default_col;
     fr_sector := replicate L (Some sector_value);
     fr_credit_limit := Some <$> limits;
     fr_used_amount := Some <$> used;
     fr_dummy := (λ c : string * list Q, (c.1, Some <$> c.2)) <$> dcols |}.

(** The frame that one turn of the entity loop appends to [all_id_data]. *)
Inductive entity_frame (nd : gmap string Q) (_id : string)
    (fdd : gmap string (option Timestamp))
  : IdFrame → gmap string (option Timestamp) → Prop :=
  | EntityFrame default_col fdd' sector_value limits used dcols :
      default_outcome _id fdd default_col fdd' →
      sector_value ∈ ["A"; "B"; "C"; "D"]%string →
      length limits = L → Forall (λ x, (0 < x)%Q) limits →
      length used = L →
      (∀ i u limit, used !! i = Some u → limits !! i = Some limit →
                    (0 <= u)%Q ∧ (u <= limit)%Q) →
      Forall2 (dummy_column_of nd) features dcols →
      entity_frame nd _id fdd
        (match fdd' !! _id with
         | Some (Some default_date) =>
             nullify (raw_frame _id default_col sector_value limits used dcols)
               default_date
         | _ => raw_frame _id default_col sector_value limits used dcols
         end)
        fdd'.

(** The time grid is in non-decreasing order. *)
Definition grid_sorted : Prop :=
  StronglySorted (λ a b, ts_leb a b = true) date_range.

End GeneratorSpec.

(** Row [i] is at or after the first default recorded for the entity. *)
Definition nullified (first_default : option (option Timestamp)) (d : Timestamp)
  : bool :=
  match first_default with
  | Some (Some default_date) => ts_leb default_date d
  | _ => false
  end.

Definition cell_missing {A} (col : list (option A)) (i : nat) : Prop :=
  col !! i = Some None.
Definition cell_present {A} (col : list (option A)) (i : nat) : Prop :=
  ∃ v, col !! i = Some (Some v).

(** Every regressor of row [i] (sector, credit limit, used amount and the
    noise features) is missing, respectively present. *)
Definition regressors_missing (fr : IdFrame) (i : nat) : Prop :=
  cell_missing (fr_sector fr) i ∧ cell_missing (fr_credit_limit fr) i ∧
  cell_missing (fr_used_amount fr) i ∧
  Forall (λ c : string * list (option Q), cell_missing c.2 i) (fr_dummy fr).
Definition regressors_present (fr : IdFrame) (i : nat) : Prop :=
  cell_present (fr_sector fr) i ∧ cell_present (fr_credit_limit fr) i ∧
  cell_present (fr_used_amount fr) i ∧
  Forall (λ c : string * list (option Q), cell_present c.2 i) (fr_dummy fr).

(** Row dated [d] lies strictly before the first default recorded for the
    entity (every row does when none is recorded), respectively at or before
    it. *)
Definition before_first_default (first_default : option (option Timestamp))
    (d : Timestamp) : Prop :=
  match first_default with
  | Some (Some default_date) => ts_ltb d default_date = true
  | _ => True
  end.
Definition upto_first_default (first_default : option (option Timestamp))
    (d : Timestamp) : Prop :=
  match first_default with
  | Some (Some default_date) => ts_leb d default_date = true
  | _ => True
  end.

(** The used amount and the credit limit of row [i] are present and
    [0 <= used_amount <= credit_limit]. *)
Definition usage_within_limit (fr : IdFrame) (i : nat) : Prop :=
  ∃ u c, fr_used_amount fr !! i = Some (Some u) ∧
         fr_credit_limit fr !! i = Some (Some c) ∧
         (0 <= u)%Q ∧ (u <= c)%Q.

(** [ceil(0.10 * n)] *)
Definition ceil_tenth (n : nat) : nat := ((n + 9) / 10)%nat.

(** The generator returns an empty dataset without raising. *)
Definition yields_empty_dataset (unif gauss : nat → Q) (np_sqrt : Q → Q)
    (date_range : list Timestamp) (N : nat) : Prop :=
  ∃ frames fdd s',
    generate unif gauss np_sqrt date_range N 0%nat = Ok (([], frames, fdd), s').

(** C1 as the specification words it: every (entity, feature) pair has a
    draw of its own, at stream position [pos e k], which gives the scale of
    the feature for that entity. *)
Definition scale_drawn_per_entity (unif gauss : nat → Q) (np_sqrt : Q → Q)
    (date_range : list Timestamp) (N : nat) : Prop :=
  ∃ pos : nat → nat → nat,
    (∀ e1 e2 k, e1 ≠ e2 → pos e1 k ≠ pos e2 k) ∧
    ∀ final frames fdd s',
      generate unif gauss np_sqrt date_range N 0%nat
        = Ok ((final, frames, fdd), s') →
      ∀ e fr k col i x,
        frames !! e = Some fr → k ∈ features →
        (dummy_name k, col) ∈ fr_dummy fr → col !! i = Some (Some x) →
        ∃ p, (x == 1000 * unif (pos e k) * gauss p)%Q.

(** ** Sample inputs *)

(** Sample input: entity B defaults on 2024-01-22, entity A never does. *)
Definition sample_grid : list Timestamp :=
  [mkTs 2024 1 1 0; mkTs 2024 1 8 0; mkTs 2024 1 15 0; mkTs 2024 1 22 0;
   mkTs 2024 1 29 0].
Definition sample_row (i : string) (d : Timestamp) (x : Z) : Row :=
  mkRow i d x None None None [] [].
Definition sample_panel : DataFrame :=
  zip_with (sample_row "B") sample_grid [0; 0; 0; 1; 1] ++
  zip_with (sample_row "A") sample_grid [0; 0; 0; 0; 0].
Definition sample_cutoff : Timestamp := mkTs 2024 1 8 0.
Definition sample_store : store := {[ 1%positive := sample_panel ]}.

(** Draws under which the first entity defaults at row 3 of [sample_grid]. *)
Definition sample_unif : nat → Q :=
  λ s, if (s =? 1)%nat then (7 # 10)%Q else 0%Q.
Definition zeros : nat → Q := λ _, 0%Q.
Definition ones : nat → Q := λ _, 1%Q.
Definition sample_sqrt : Q → Q := λ x, inject_Z (Z.sqrt (Qfloor x)).
Definition sample_n_dummies : gmap string Q :=
  list_to_map [("f_dummy1", 500%Q); ("f_dummy2", 250%Q); ("f_dummy3", 125%Q);
               ("f_dummy4", 750%Q); ("f_dummy5", 1%Q)]%string.

(** Draws that are pairwise distinct over the positions a short run uses. *)
Definition distinct_unif : nat → Q :=
  λ s, if (s <? 100)%nat then (Z.of_nat s + 50 # 200)%Q else (1 # 2)%Q.

(** Draws of a run of two entities on [sample_grid] in which the first
    entity defaults at row 3 and the second never does: every draw is 1/2
    but the sixth (the default trial of the first entity) and the seventh
    (its first-default index). *)
Definition mixed_unif : nat → Q :=
  λ s, if (s =? 5)%nat then 0%Q else if (s =? 6)%nat then (7 # 10)%Q else (1 # 2)%Q.

(** ** The rest of the scripts: vocabulary and samples *)

(** One week of the credit limit path, read from the draws at stream
    position [q] on: the limit [a] is kept unless the first draw is below
    [1 / L]; it then moves by [a * change_percent], up when the third draw is
    below 1/2 and down otherwise, and is held at 10000 from below. *)
Definition weekly_limit (unif : nat → Q) (L : nat) (q : nat) (a : Q) : Q :=
  if Qlt_le_dec (unif q) (1 / inject_Z (Z.of_nat L)) then
    let change_percent := ((20 # 100) + ((30 # 100) - (20 # 100)) * unif (S q))%Q in
    let change_amount := (a * change_percent)%Q in
    py_max 10000
      (if Qlt_le_dec (unif (S (S q))) (1 # 2) then (a + change_amount)%Q
       else (a - change_amount)%Q)
  else a.

(** [s[n:]] *)
Fixpoint string_drop (n : nat) (s : string) : string :=
  match n, s with
  | S n', String _ s' => string_drop n' s'
  | _, _ => s
  end.

(** The number an identifier was built from: the decimal digits after [ID_]. *)
Definition id_number (_id : string) : option nat :=
  Nat.of_uint <$> NilEmpty.uint_of_string (string_drop 3 _id).

(** The panel has no column named like a label that the deriver adds. *)
Definition no_label_clash (df : DataFrame) : Prop :=
  Forall (λ r, ∀ n, n ∈ [1; 2; 3]%nat → label_name n ∉ (labels r).*1) df.

(** The value [v] is the maximum of [default_ind] over the rows of entity [i]
    in the window of horizon [n], and 0 when the entity has no row there. *)
Definition window_max (df : DataFrame) (cutoff : Timestamp) (n : nat)
    (i : string) (v : Z) : Prop :=
  (v = 0 ∧ ∀ r, r ∈ df → id r = i → in_window cutoff n r = false) ∨
  ((∃ r, r ∈ df ∧ id r = i ∧ in_window cutoff n r = true ∧ default_ind r = v) ∧
   ∀ r, r ∈ df → id r = i → in_window cutoff n r = true → default_ind r ≤ v).

(** The rows dated, by calendar day, after the cutoff. *)
Definition after_cutoff (cutoff : Timestamp) (r : Row) : bool :=
  ts_ltb (normalize cutoff) (normalize (date r)).

(** Every date of the grid is at midnight, as those of [pd.date_range] from a
    start at midnight are. *)
Definition grid_at_midnight (grid : list Timestamp) : Prop :=
  Forall (λ d, time_ns d = 0) grid.

(** The date [d] falls in the window of horizon [n] after the cutoff. *)
Definition date_in_window (cutoff : Timestamp) (n : nat) (d : Timestamp) : bool :=
  ts_ltb (normalize cutoff) d &&
  ts_leb d (add_months (normalize cutoff) (Z.of_nat n)).

(** The grid has a date in the window of horizon [n] at which an entity with
    the entry [first_default] in [first_default_dates] is in default. *)
Definition in_default_within (grid : list Timestamp)
    (first_default : option (option Timestamp)) (cutoff : Timestamp) (n : nat)
  : Prop :=
  ∃ d, d ∈ grid ∧ date_in_window cutoff n d = true ∧
       nullified first_default d = true.

(** The string has no dot. *)
Definition dot_free (s : string) : Prop :=
  Forall (λ c, c ≠ "."%char) (String.list_ascii_of_string s).

(** A second sample panel: [sample_panel] with other rows up to the cutoff. *)
Definition sample_panel_past : DataFrame :=
  [mkRow "B" (mkTs 2024 1 8 0) 1 (Some "C"%string) None None [] []] ++
  List.filter (after_cutoff sample_cutoff) sample_panel.
Definition sample_store_pair : store :=
  {[ 1%positive := sample_panel; 2%positive := sample_panel_past ]}.

(** A printable character other than the space, the comma and the double
    quote. *)
Definition plain_char (c : ascii) : Prop :=
  (33 ≤ nat_of_ascii c)%nat ∧ (nat_of_ascii c ≤ 126)%nat ∧
  nat_of_ascii c ≠ 34%nat ∧ nat_of_ascii c ≠ 44%nat.
Definition plain_name (s : string) : Prop :=
  s ≠ EmptyString ∧ Forall plain_char (String.list_ascii_of_string s).

(** The columns of a row are those of the script's output: the five noise
    features and the three labels. *)
Definition pipeline_schema (r : Row) : Prop :=
  (dummies r).*1 = dummy_name <$> features ∧
  (labels r).*1 = label_name <$> [1; 2; 3]%nat.

(** A row of the script's output. *)
Definition sample_output_row : Row :=
  mkRow "ID_0001" (mkTs 2024 1 1 0) 0 (Some "B"%string) (Some 250000%Q)
    (Some 125000%Q)
    [("f_dummy1"%string, Some 1%Q); ("f_dummy2"%string, Some 2%Q);
     ("f_dummy3"%string, Some 3%Q); ("f_dummy4"%string, Some 4%Q);
     ("f_dummy5"%string, Some 5%Q)]
    (appended_labels 0 0 1).

(** * Facts *)

(** ** The order on timestamps *)

Lemma ts_compare_refl a : ts_compare a a = Eq.
Proof. unfold ts_compare. by rewrite !Z.compare_refl. Qed.

Ltac ts_order :=
  unfold ts_leb, ts_ltb, ts_compare in *;
  repeat match goal with
  | |- context [?x ?= ?y] => destruct (Z.compare_spec x y)
  | H : context [?x ?= ?y] |- _ => destruct (Z.compare_spec x y)
  end; try done; try lia.

Lemma ts_leb_refl a : ts_leb a a = true.
Proof. unfold ts_leb. by rewrite ts_compare_refl. Qed.

Lemma ts_leb_trans a b c :
  ts_leb a b = true → ts_leb b c = true → ts_leb a c = true.
Proof. destruct a, b, c; simpl. ts_order. Qed.

Lemma ts_ltb_leb_trans a b c :
  ts_ltb a b = true → ts_leb b c = true → ts_ltb a c = true.
Proof. destruct a, b, c; simpl. ts_order. Qed.

Lemma ts_ltb_nleb a b : ts_ltb a b = negb (ts_leb b a).
Proof. destruct a, b; simpl. ts_order. Qed.

Lemma ts_ltb_leb a b : ts_ltb a b = true → ts_leb a b = true.
Proof. destruct a, b; simpl. ts_order. Qed.

Lemma add_months_mono t n1 n2 :
  n1 ≤ n2 → ts_leb (add_months t n1) (add_months t n2) = true.
Proof.
  intros Hn. destruct (decide (n1 = n2)) as [->|Hne]; [apply ts_leb_refl|].
  unfold add_months, ts_leb, ts_compare; simpl.
  set (a := year t * 12 + (month t - 1)).
  assert (H12 : (a + n1) / 12 ≤ (a + n2) / 12) by (apply Z.div_le_mono; lia).
  destruct (Z.compare_spec ((a + n1) / 12) ((a + n2) / 12)) as [He|Hl|Hg];
    [|done|lia].
  assert (Hm : (a + n1) mod 12 < (a + n2) mod 12).
  { pose proof (Z.div_mod (a + n1) 12). pose proof (Z.div_mod (a + n2) 12). lia. }
  destruct (Z.compare_spec ((a + n1) mod 12 + 1) ((a + n2) mod 12 + 1));
    [lia|done|lia].
Qed.

(** ** The label deriver *)

Section DataprepFacts.

Lemma elem_of_drop_duplicates_from seen col x :
  x ∈ drop_duplicates_from seen col ↔ x ∈ col ∧ x ∉ seen.
Proof.
  revert seen. induction col as [|y col IH]; intros seen; simpl.
  - set_solver.
  - destruct (decide (y ∈ seen)).
    + rewrite IH. set_solver.
    + rewrite elem_of_cons, IH. destruct (decide (x = y)); set_solver.
Qed.

Lemma NoDup_drop_duplicates_from seen col :
  NoDup (drop_duplicates_from seen col).
Proof.
  revert seen. induction col as [|y col IH]; intros seen; simpl.
  - constructor.
  - destruct (decide (y ∈ seen)); [apply IH|].
    constructor; [|apply IH].
    rewrite elem_of_drop_duplicates_from. set_solver.
Qed.

Lemma elem_of_ids (rows : DataFrame) i :
  i ∈ sort_values (drop_duplicates (id <$> rows)) ↔ ∃ r, r ∈ rows ∧ id r = i.
Proof.
  unfold sort_values, drop_duplicates.
  rewrite merge_sort_Permutation, elem_of_drop_duplicates_from, list_elem_of_fmap.
  split.
  - intros [(r & -> & Hr) _]. eauto.
  - intros (r & Hr & <-). split; [eauto|set_solver].
Qed.

Lemma NoDup_ids (rows : DataFrame) :
  NoDup (sort_values (drop_duplicates (id <$> rows))).
Proof.
  unfold sort_values. rewrite merge_sort_Permutation.
  apply NoDup_drop_duplicates_from.
Qed.

Lemma groupby_max_None rows i :
  groupby_max rows !! i = None ↔ ∀ r, r ∈ rows → id r ≠ i.
Proof.
  induction rows as [|r rows IH]; simpl.
  - rewrite lookup_empty. split; [set_solver|done].
  - rewrite lookup_insert_None, IH. split.
    + intros [Hr Hne] r' [->|Hin]%elem_of_cons; auto.
    + intros Hall. split; [|apply Hall; left].
      intros r' Hin. apply Hall. by right.
Qed.

Lemma groupby_max_Some rows i v :
  groupby_max rows !! i = Some v →
  (∃ r, r ∈ rows ∧ id r = i ∧ default_ind r = v) ∧
  (∀ r, r ∈ rows → id r = i → default_ind r ≤ v).
Proof.
  revert v. induction rows as [|r rows IH]; intros v; simpl.
  - by rewrite lookup_empty.
  - destruct (decide (id r = i)) as [<-|Hne].
    + rewrite lookup_insert_eq. intros [= <-].
      destruct (groupby_max rows !! id r) as [w|] eqn:Hw.
      * destruct (IH w eq_refl) as [(r' & Hin & Hid & Hv) Hmax].
        split.
        -- destruct (Z.max_spec (default_ind r) w) as [[_ ->]|[_ ->]].
           ++ exists r'. set_solver.
           ++ exists r. set_solver.
        -- intros r'' [->|Hin']%elem_of_cons Hid'; [lia|].
           specialize (Hmax r'' Hin' Hid'). lia.
      * split; [exists r; set_solver|].
        intros r'' [->|Hin']%elem_of_cons Hid'; [lia|].
        rewrite groupby_max_None in Hw. by destruct (Hw r'' Hin').
    + rewrite lookup_insert_ne by done. intros Hv.
      destruct (IH v Hv) as [(r' & Hin & Hid & Hv') Hmax].
      split; [exists r'; set_solver|].
      intros r'' [->|Hin']%elem_of_cons Hid'; [done|]. by apply Hmax.
Qed.

Lemma filter_reindex_eq ids (s : gmap string Z) i :
  NoDup ids → i ∈ ids →
  List.filter (λ p : string * Z, bool_decide (p.1 = i)) (reindex ids 0 s)
  = [(i, default 0 (s !! i))].
Proof.
  unfold reindex. induction 1 as [|j ids Hj Hnd IH]; [by intros ?%elem_of_nil|].
  intros Hin. simpl. case_bool_decide as Hji; simpl in Hji.
  - subst j. f_equal.
    clear IH Hin. induction ids as [|k ids IH]; [done|]. simpl.
    rewrite not_elem_of_cons in Hj. destruct Hj as [Hne Hj].
    rewrite bool_decide_eq_false_2 by (simpl; congruence).
    apply IH; [done|]. by inversion Hnd.
  - apply IH. apply elem_of_cons in Hin as [->|]; done.
Qed.

Lemma merge_left_reindex (rows : DataFrame) ids s name :
  NoDup ids → (∀ r, r ∈ rows → id r ∈ ids) →
  merge_left rows (reindex ids 0 s) name
  = (λ r, add_label r name (Some (default 0 (s !! id r)))) <$> rows.
Proof.
  intros Hnd. unfold merge_left.
  induction rows as [|r rows IH]; intros Hids; [done|].
  cbn [mbind list_bind fmap list_fmap].
  rewrite filter_reindex_eq by (auto; apply Hids; left).
  simpl. f_equal. apply IH. intros r' Hr'. apply Hids. by right.
Qed.

Lemma extends_refl h : extends h h.
Proof. by intros l _. Qed.

Lemma extends_trans h1 h2 h3 : extends h1 h2 → extends h2 h3 → extends h1 h3.
Proof.
  intros H12 H23 l Hl. rewrite H23, H12; [done..|]. by rewrite H12.
Qed.

Lemma fresh_lookup (h : store) : h !! fresh (dom h) = None.
Proof. apply not_elem_of_dom, is_fresh. Qed.

Lemma extends_alloc (h : store) df : extends h (<[fresh (dom h) := df]> h).
Proof.
  intros l [x Hl]. rewrite lookup_insert_ne; [done|].
  intros <-. by rewrite fresh_lookup in Hl.
Qed.

Lemma H_bind_run {A B} (m : H A) (k : A → H B) h :
  (m ≫= k) h = match m h with Some (a, h') => k a h' | None => None end.
Proof. done. Qed.

Lemma id_add_flag rows c n r : id (add_flag rows c n r) = id r.
Proof. done. Qed.

Lemma horizon_loop_run ns ids c out (h : store) rows :
  h !! out = Some rows → NoDup ids → (∀ r, r ∈ rows → id r ∈ ids) →
  ∃ out' h', horizon_loop ns ids c out h = Some (out', h') ∧
             h' !! out' = Some (add_flags ns c rows) ∧ extends h h'.
Proof.
  revert out h rows. induction ns as [|n ns IH]; intros out h rows Hout Hnd Hids.
  - exists out, h. simpl. eauto using extends_refl.
  - cbn [horizon_loop]. rewrite H_bind_run. unfold read at 1. rewrite Hout.
    rewrite H_bind_run. unfold alloc at 1.
    rewrite merge_left_reindex by done.
    set (rows' := _ <$> rows). set (h1 := <[fresh (dom h) := rows']> h).
    destruct (IH (fresh (dom h)) h1 rows') as (out' & h' & Hrun & Hres & Hext).
    { apply lookup_insert_eq. }
    { done. }
    { intros r (r0 & -> & Hr0)%list_elem_of_fmap. by apply (Hids r0). }
    exists out', h'. split; [exact Hrun|]. split; [exact Hres|].
    eapply extends_trans; [apply extends_alloc|done].
Qed.

Lemma zip_with_set_date (df : DataFrame) :
  zip_with set_date df (normalize <$> (date <$> df)) = norm_row <$> df.
Proof. induction df as [|r df IH]; [done|]. simpl. f_equal. apply IH. Qed.

Lemma read_run (h : store) l df : h !! l = Some df → read l h = Some (df, h).
Proof. intros Hl. unfold read. by rewrite Hl. Qed.

Lemma write_run (h : store) l df0 df :
  h !! l = Some df0 → write l df h = Some ((), <[l := df]> h).
Proof. intros Hl. unfold write. by rewrite Hl. Qed.

Lemma build_default_flags_run (h : store) df_loc df cutoff :
  h !! df_loc = Some df →
  ∃ out h', build_default_flags df_loc cutoff h = Some (out, h') ∧
            h' !! out = Some (labelled df cutoff) ∧
            extends h h' ∧ h !! out = None.
Proof.
  intros Hdf. unfold build_default_flags, df_copy, setitem_date.
  pose proof (fresh_lookup h) as Hfresh.
  remember (fresh (dom h)) as l1 eqn:El1.
  assert (H02 : extends h (<[l1 := norm_row <$> df]> (<[l1 := df]> h))).
  { intros l [x Hl]. rewrite !lookup_insert_ne; [done|..]; congruence. }
  rewrite !H_bind_run, (read_run _ _ _ Hdf). unfold alloc at 1. rewrite <- El1.
  rewrite !H_bind_run, (read_run _ _ df) by apply lookup_insert_eq.
  rewrite !H_bind_run, (read_run _ _ df) by apply lookup_insert_eq.
  rewrite (write_run _ _ df) by apply lookup_insert_eq.
  rewrite zip_with_set_date.
  remember (<[l1 := norm_row <$> df]> (<[l1 := df]> h)) as h2 eqn:Eh2.
  assert (Hl2 : h2 !! l1 = Some (norm_row <$> df)).
  { subst h2. apply lookup_insert_eq. }
  rewrite !H_bind_run, (read_run _ _ _ Hl2).
  destruct (horizon_loop_run [1; 2; 3]%nat
              (sort_values (drop_duplicates (id <$> (norm_row <$> df))))
              (normalize cutoff) l1 h2 (norm_row <$> df))
    as (out3 & h3 & Hrun & Hres & Hext); [done|apply NoDup_ids|..].
  { intros r Hr. apply elem_of_ids. eauto. }
  rewrite H_bind_run, Hrun, H_bind_run, (read_run _ _ _ Hres). unfold alloc.
  eexists _, _. split; [done|]. split; [|split].
  - by rewrite lookup_insert_eq.
  - eapply extends_trans; [exact H02|].
    eapply extends_trans; [exact Hext|]. apply extends_alloc.
  - destruct (h !! fresh (dom h3)) as [x|] eqn:Hx; [|done].
    pose proof (fresh_lookup h3) as Hf3.
    rewrite Hext, H02, Hx in Hf3; [done|eauto|].
    rewrite H02; eauto.
Qed.

(** *** The flags do not depend on the label columns already merged *)

Lemma groupby_filter_fmap (f : Row → Row) (mask : Row → bool) rows :
  (∀ r, id (f r) = id r) → (∀ r, default_ind (f r) = default_ind r) →
  (∀ r, mask (f r) = mask r) →
  groupby_max (List.filter mask (f <$> rows)) = groupby_max (List.filter mask rows).
Proof.
  intros Hid Hdef Hmask. induction rows as [|r rows IH]; [done|].
  cbn [fmap list_fmap List.filter]. rewrite Hmask.
  destruct (mask r); [|exact IH].
  cbn [groupby_max foldr]. fold (groupby_max (List.filter mask (f <$> rows))).
  fold (groupby_max (List.filter mask rows)). by rewrite IH, Hid, Hdef.
Qed.

Lemma flag_add_flag rows0 m rows c n i :
  flag (add_flag rows0 c m <$> rows) c n i = flag rows c n i.
Proof. unfold flag. by rewrite groupby_filter_fmap. Qed.

Lemma add_flag_ext rows1 rows2 c n r :
  (∀ i, flag rows1 c n i = flag rows2 c n i) →
  add_flag rows1 c n r = add_flag rows2 c n r.
Proof. intros Hf. unfold add_flag. by rewrite Hf. Qed.

Lemma add_flags_123 c rows :
  add_flags [1; 2; 3]%nat c rows = with_flags rows c <$> rows.
Proof.
  cbn [add_flags].
  set (R1 := add_flag rows c 1 <$> rows). set (R2 := add_flag R1 c 2 <$> R1).
  transitivity (add_flag rows c 3 <$> R2).
  { apply list_fmap_ext. intros _ r _. apply add_flag_ext. intros i.
    unfold R2, R1. by rewrite !flag_add_flag. }
  unfold R2. transitivity (add_flag rows c 3 <$> (add_flag rows c 2 <$> R1)).
  { f_equal. apply list_fmap_ext. intros _ r _. apply add_flag_ext. intros i.
    unfold R1. by rewrite flag_add_flag. }
  unfold R1. rewrite <- !list_fmap_compose. done.
Qed.

Lemma filter_fmap_comm {A B} (f : A → B) (p : B → bool) (q : A → bool) l :
  (∀ x, p (f x) = q x) →
  List.filter p (f <$> l) = f <$> List.filter q l.
Proof.
  intros Hpq. induction l as [|x l IH]; [done|].
  cbn [fmap list_fmap List.filter]. rewrite Hpq.
  destruct (q x); cbn [fmap list_fmap]; by rewrite <- IH.
Qed.

Lemma labelled_eq df cutoff :
  labelled df cutoff
  = (λ r, with_flags (norm_row <$> df) (normalize cutoff) (norm_row r))
      <$> List.filter (in_scope cutoff) df.
Proof.
  unfold labelled. rewrite add_flags_123.
  rewrite (filter_fmap_comm _ _ (λ r, ts_leb (date r) (normalize cutoff))) by done.
  rewrite (filter_fmap_comm norm_row _ (in_scope cutoff)) by done.
  by rewrite <- list_fmap_compose.
Qed.

(** *** What a flag says *)

Lemma elem_of_window df cutoff n r :
  r ∈ List.filter (window_mask (normalize cutoff) n) (norm_row <$> df) ↔
  ∃ r0, r0 ∈ df ∧ r = norm_row r0 ∧ in_window cutoff n r0 = true.
Proof.
  rewrite list_elem_of_In, filter_In, <- list_elem_of_In, list_elem_of_fmap.
  split.
  - intros [(r0 & -> & Hr0) Hw]. eauto.
  - intros (r0 & Hr0 & -> & Hw). eauto.
Qed.

Lemma flag_no_rows df cutoff n i :
  (∀ r, r ∈ df → id r = i → in_window cutoff n r = false) →
  flag (norm_row <$> df) (normalize cutoff) n i = 0.
Proof.
  intros Hno. unfold flag.
  destruct (groupby_max _ !! i) as [v|] eqn:Hv; [|done].
  apply groupby_max_Some in Hv as [(r & Hr & Hid & _) _].
  apply elem_of_window in Hr as (r0 & Hr0 & -> & Hw).
  by rewrite (Hno r0 Hr0 Hid) in Hw.
Qed.

Lemma flag_label_ok df cutoff n i :
  binary_default_ind df →
  label_ok df cutoff n i (flag (norm_row <$> df) (normalize cutoff) n i).
Proof.
  intros Hbin. unfold flag, label_ok.
  destruct (groupby_max _ !! i) as [v|] eqn:Hv; simpl.
  - apply groupby_max_Some in Hv as [(r & Hr & Hid & Hdef) Hmax].
    apply elem_of_window in Hr as (r0 & Hr0 & -> & Hw).
    destruct (proj1 (Forall_forall _ _) Hbin r0 Hr0) as [H0|H1].
    + right. split; [simpl in Hdef; congruence|].
      intros (r1 & Hr1 & Hid1 & Hw1 & Hd1).
      assert (default_ind (norm_row r1) ≤ v) as Hle.
      { apply Hmax; [|done]. apply elem_of_window. eauto. }
      simpl in Hle, Hdef. lia.
    + left. split; [simpl in Hdef; congruence|]. by exists r0.
  - right. split; [done|].
    intros (r1 & Hr1 & Hid1 & Hw1 & Hd1).
    rewrite groupby_max_None in Hv. apply (Hv (norm_row r1)); [|done].
    apply elem_of_window. eauto.
Qed.

Lemma in_window_mono cutoff n1 n2 r :
  (n1 ≤ n2)%nat → in_window cutoff n1 r = true → in_window cutoff n2 r = true.
Proof.
  unfold in_window. intros Hn [Hlt Hle]%andb_true_iff.
  apply andb_true_iff. split; [done|].
  eapply ts_leb_trans; [exact Hle|]. apply add_months_mono. lia.
Qed.

Lemma defaults_within_mono df cutoff n1 n2 i :
  (n1 ≤ n2)%nat → defaults_within df cutoff n1 i → defaults_within df cutoff n2 i.
Proof.
  intros Hn (r & Hr & Hid & Hw & Hd). exists r.
  eauto using in_window_mono.
Qed.

Lemma label_ok_mono df cutoff n1 n2 i v1 v2 :
  (n1 ≤ n2)%nat → label_ok df cutoff n1 i v1 → label_ok df cutoff n2 i v2 →
  v1 ≤ v2.
Proof.
  intros Hn [[-> H1]|[-> H1]] [[-> H2]|[-> H2]]; try lia.
  destruct H2. eauto using defaults_within_mono.
Qed.

Lemma occurrences_in_scope cutoff df k :
  occurrences k (day_key <$> List.filter (in_scope cutoff) df)
  = if ts_leb k.2 (normalize cutoff) then occurrences k (day_key <$> df) else 0%nat.
Proof.
  unfold occurrences. induction df as [|r df IH].
  - simpl. by destruct (ts_leb _ _).
  - cbn [List.filter]. destruct (in_scope cutoff r) eqn:Hs;
      cbn [fmap list_fmap List.filter];
      destruct (bool_decide (day_key r = k)) eqn:Hk; cbn [length];
      change (list_fmap _ _ day_key ?l) with (day_key <$> l); rewrite IH;
      try done.
    + apply bool_decide_eq_true in Hk. subst k. unfold in_scope in Hs.
      simpl. by rewrite Hs.
    + apply bool_decide_eq_true in Hk. subst k. unfold in_scope in Hs.
      simpl. by rewrite Hs.
Qed.

(** C3. The output of the label deriver has no row dated after the cutoff,
    and its rows are, in order, the rows of the input dated at or before the
    cutoff, one output row for each of them: the (entity, day) keys of the
    output are exactly those of the in-scope input rows, so every pair occurs
    in the output as often as in the input when its day is at or before the
    cutoff and not at all otherwise. *)
Theorem truncation_keeps_each_in_scope_row (h : store) df_loc df cutoff :
  h !! df_loc = Some df →
  ∃ out h' rows,
    build_default_flags df_loc cutoff h = Some (out, h') ∧
    h' !! out = Some rows ∧
    (∀ r, r ∈ rows → ts_ltb (normalize cutoff) (date r) = false) ∧
    key <$> rows = day_key <$> List.filter (in_scope cutoff) df ∧
    (∀ k, occurrences k (key <$> rows)
          = if ts_leb k.2 (normalize cutoff)
            then occurrences k (day_key <$> df) else 0%nat).
Proof.
  intros Hdf.
  destruct (build_default_flags_run h df_loc df cutoff Hdf)
    as (out & h' & Hrun & Hout & _ & _).
  exists out, h', (labelled df cutoff). split; [done|]. split; [done|].
  rewrite labelled_eq.
  assert (Hkeys : key <$> ((λ r, with_flags (norm_row <$> df) (normalize cutoff)
                                   (norm_row r)) <$> List.filter (in_scope cutoff) df)
                  = day_key <$> List.filter (in_scope cutoff) df).
  { rewrite <- list_fmap_compose. by apply list_fmap_ext. }
  split; [|split].
  - intros r (r0 & -> & Hr0)%list_elem_of_fmap.
    apply list_elem_of_In, filter_In in Hr0 as [_ Hs].
    rewrite ts_ltb_nleb. unfold in_scope in Hs. simpl. by rewrite Hs.
  - exact Hkeys.
  - intros k. rewrite Hkeys. apply occurrences_in_scope.
Qed.

Lemma truncation_keeps_each_in_scope_row_witness :
  ∃ out h' rows,
    build_default_flags 1%positive sample_cutoff sample_store = Some (out, h') ∧
    h' !! out = Some rows ∧
    (∀ r, r ∈ rows → ts_ltb (normalize sample_cutoff) (date r) = false) ∧
    key <$> rows = day_key <$> List.filter (in_scope sample_cutoff) sample_panel ∧
    (∀ k, occurrences k (key <$> rows)
          = if ts_leb k.2 (normalize sample_cutoff)
            then occurrences k (day_key <$> sample_panel) else 0%nat).
Proof.
  apply (truncation_keeps_each_in_scope_row sample_store 1%positive sample_panel).
  reflexivity.
Defined.

Lemma labelled_row df cutoff r :
  r ∈ labelled df cutoff →
  ∃ r0, r0 ∈ df ∧ id r = id r0 ∧
        labels r = labels r0 ++
          appended_labels (flag (norm_row <$> df) (normalize cutoff) 1 (id r))
                          (flag (norm_row <$> df) (normalize cutoff) 2 (id r))
                          (flag (norm_row <$> df) (normalize cutoff) 3 (id r)).
Proof.
  rewrite labelled_eq. intros (r0 & -> & Hr0)%list_elem_of_fmap.
  apply list_elem_of_In, filter_In in Hr0 as [Hr0%list_elem_of_In _].
  exists r0. split; [done|]. split; [done|].
  simpl. by rewrite <- !app_assoc.
Qed.

(** C4. With a 0/1 default indicator, the output of the label deriver has, in
    order, one row for each input row dated at or before the cutoff, and that
    row carries the labels of its entity: for each horizon N = 1, 2, 3 a
    label that is present and is 1 exactly when some input row of the same
    entity has default-state 1 and a day strictly after the cutoff and at or
    before cutoff + N calendar months; it is 0 otherwise, in particular for
    an entity with no row in the window. *)
Theorem label_is_default_in_window (h : store) df_loc df cutoff :
  h !! df_loc = Some df → binary_default_ind df →
  ∃ out h' rows,
    build_default_flags df_loc cutoff h = Some (out, h') ∧
    h' !! out = Some rows ∧
    Forall2 (λ r0 r,
        id r = id r0 ∧
        ∃ v1 v2 v3,
          labels r = labels r0 ++ appended_labels v1 v2 v3 ∧
          label_ok df cutoff 1 (id r0) v1 ∧
          label_ok df cutoff 2 (id r0) v2 ∧
          label_ok df cutoff 3 (id r0) v3)
      (List.filter (in_scope cutoff) df) rows ∧
    ∀ r, r ∈ rows →
      ∃ r0 v1 v2 v3,
        r0 ∈ df ∧ id r = id r0 ∧
        labels r = labels r0 ++ appended_labels v1 v2 v3 ∧
        label_ok df cutoff 1 (id r) v1 ∧
        label_ok df cutoff 2 (id r) v2 ∧
        label_ok df cutoff 3 (id r) v3 ∧
        (∀ n v, (n, v) ∈ [(1%nat, v1); (2%nat, v2); (3%nat, v3)] →
           (∀ r', r' ∈ df → id r' = id r → in_window cutoff n r' = false) →
           v = 0).
Proof.
  intros Hdf Hbin.
  destruct (build_default_flags_run h df_loc df cutoff Hdf)
    as (out & h' & Hrun & Hout & _ & _).
  exists out, h', (labelled df cutoff). split; [done|]. split; [done|].
  split.
  - rewrite labelled_eq. apply Forall2_fmap_r, Forall_Forall2_diag.
    apply Forall_forall. intros r0 _. split; [done|].
    eexists _, _, _. split; [|repeat split; by apply flag_label_ok].
    simpl. by rewrite <- !app_assoc.
  - intros r Hr. destruct (labelled_row df cutoff r Hr) as (r0 & Hr0 & Hid & Hl).
    eexists r0, _, _, _. split; [done|]. split; [done|]. split; [exact Hl|].
    split; [by apply flag_label_ok|]. split; [by apply flag_label_ok|].
    split; [by apply flag_label_ok|].
    intros n v Hnv Hno.
    repeat (apply elem_of_cons in Hnv as [[= -> ->]|Hnv]);
      [by apply flag_no_rows..|by apply elem_of_nil in Hnv].
Qed.

Lemma sample_panel_binary : binary_default_ind sample_panel.
Proof.
  unfold binary_default_ind, sample_panel. simpl.
  repeat (apply Forall_cons_2; [simpl; auto|]). apply Forall_nil_2.
Qed.

Lemma label_is_default_in_window_witness :
  ∃ out h' rows,
    build_default_flags 1%positive sample_cutoff sample_store = Some (out, h') ∧
    h' !! out = Some rows ∧
    Forall2 (λ r0 r,
        id r = id r0 ∧
        ∃ v1 v2 v3,
          labels r = labels r0 ++ appended_labels v1 v2 v3 ∧
          label_ok sample_panel sample_cutoff 1 (id r0) v1 ∧
          label_ok sample_panel sample_cutoff 2 (id r0) v2 ∧
          label_ok sample_panel sample_cutoff 3 (id r0) v3)
      (List.filter (in_scope sample_cutoff) sample_panel) rows ∧
    ∀ r, r ∈ rows →
      ∃ r0 v1 v2 v3,
        r0 ∈ sample_panel ∧ id r = id r0 ∧
        labels r = labels r0 ++ appended_labels v1 v2 v3 ∧
        label_ok sample_panel sample_cutoff 1 (id r) v1 ∧
        label_ok sample_panel sample_cutoff 2 (id r) v2 ∧
        label_ok sample_panel sample_cutoff 3 (id r) v3 ∧
        (∀ n v, (n, v) ∈ [(1%nat, v1); (2%nat, v2); (3%nat, v3)] →
           (∀ r', r' ∈ sample_panel → id r' = id r →
                  in_window sample_cutoff n r' = false) →
           v = 0).
Proof.
  apply (label_is_default_in_window sample_store 1%positive sample_panel).
  - reflexivity.
  - exact sample_panel_binary.
Defined.

(** C9. With a 0/1 default indicator, the three labels of every output row
    are ordered: def_ind_1m <= def_ind_2m <= def_ind_3m. *)
Theorem labels_monotone_in_horizon (h : store) df_loc df cutoff :
  h !! df_loc = Some df → binary_default_ind df →
  ∃ out h' rows,
    build_default_flags df_loc cutoff h = Some (out, h') ∧
    h' !! out = Some rows ∧
    ∀ r, r ∈ rows →
      ∃ r0 v1 v2 v3,
        r0 ∈ df ∧ id r = id r0 ∧
        labels r = labels r0 ++ appended_labels v1 v2 v3 ∧
        v1 ≤ v2 ∧ v2 ≤ v3.
Proof.
  intros Hdf Hbin.
  destruct (build_default_flags_run h df_loc df cutoff Hdf)
    as (out & h' & Hrun & Hout & _ & _).
  exists out, h', (labelled df cutoff). split; [done|]. split; [done|].
  intros r Hr. destruct (labelled_row df cutoff r Hr) as (r0 & Hr0 & Hid & Hl).
  eexists r0, _, _, _. split; [done|]. split; [done|]. split; [exact Hl|].
  split; eapply (label_ok_mono df cutoff); try apply flag_label_ok; try done; lia.
Qed.

Lemma labels_monotone_in_horizon_witness :
  ∃ out h' rows,
    build_default_flags 1%positive sample_cutoff sample_store = Some (out, h') ∧
    h' !! out = Some rows ∧
    ∀ r, r ∈ rows →
      ∃ r0 v1 v2 v3,
        r0 ∈ sample_panel ∧ id r = id r0 ∧
        labels r = labels r0 ++ appended_labels v1 v2 v3 ∧
        v1 ≤ v2 ∧ v2 ≤ v3.
Proof.
  apply (labels_monotone_in_horizon sample_store 1%positive sample_panel).
  - reflexivity.
  - exact sample_panel_binary.
Defined.

(** C10. [build_default_flags] returns a new table and leaves its argument
    as it was: after the call the input object holds the rows it held before,
    and so does every other object of the store. *)
Theorem input_panel_unchanged (h : store) df_loc df cutoff :
  h !! df_loc = Some df →
  ∃ out h',
    build_default_flags df_loc cutoff h = Some (out, h') ∧
    h' !! df_loc = Some df ∧
    out ≠ df_loc ∧
    (∀ l, is_Some (h !! l) → h' !! l = h !! l).
Proof.
  intros Hdf.
  destruct (build_default_flags_run h df_loc df cutoff Hdf)
    as (out & h' & Hrun & Hout & Hext & Hnew).
  exists out, h'. split; [done|]. split; [|split; [|done]].
  - rewrite Hext; eauto.
  - intros ->. by rewrite Hdf in Hnew.
Qed.

Lemma input_panel_unchanged_witness :
  ∃ out h',
    build_default_flags 1%positive sample_cutoff sample_store = Some (out, h') ∧
    h' !! 1%positive = Some sample_panel ∧
    out ≠ 1%positive ∧
    (∀ l, is_Some (sample_store !! l) → h' !! l = sample_store !! l).
Proof.
  apply (input_panel_unchanged sample_store 1%positive sample_panel).
  reflexivity.
Defined.

End DataprepFacts.

(** ** The generator *)

Section GeneratorFacts.

Variable unif : nat → Q.
Variable gauss : nat → Q.
Variable np_sqrt : Q → Q.
Variable date_range : list Timestamp.

Local Abbreviation L := (no_obs_per_id date_range).
Local Abbreviation default_outcome := (default_outcome date_range).
Local Abbreviation dummy_column_of := (dummy_column_of gauss date_range).
Local Abbreviation raw_frame := (raw_frame date_range).
Local Abbreviation entity_frame := (entity_frame gauss date_range).
Local Abbreviation grid_sorted := (grid_sorted date_range).

Hypothesis unif_range : unit_interval unif.

Lemma M_bind_run {A B} (m : M A) (k : A → M B) s :
  (m ≫= k) s = match m s with Ok (a, s') => k a s' | Raise e => Raise e end.
Proof. done. Qed.

Lemma py_max_ge_l a b : (a <= py_max a b)%Q.
Proof. unfold py_max. destruct (Qlt_le_dec a b); lra. Qed.

Lemma py_max_ge_r a b : (b <= py_max a b)%Q.
Proof. unfold py_max. destruct (Qlt_le_dec a b); lra. Qed.

Lemma clip_bounds limit x :
  (0 <= limit)%Q →
  (0 <= py_max 0 (py_min limit x))%Q ∧ (py_max 0 (py_min limit x) <= limit)%Q.
Proof.
  intros Hl. unfold py_max, py_min.
  destruct (Qlt_le_dec x limit); destruct (Qlt_le_dec 0 _); split; lra.
Qed.

Lemma floor_scaled_range u (n : nat) :
  (0 <= u)%Q → (u < 1)%Q → (0 < n)%nat →
  (Z.to_nat (Qfloor (u * inject_Z (Z.of_nat n))) < n)%nat.
Proof.
  intros H0 H1 Hn.
  assert (Hpos : (0 < inject_Z (Z.of_nat n))%Q).
  { change 0%Q with (inject_Z 0). rewrite <- Zlt_Qlt. lia. }
  assert (Hlo : 0 ≤ Qfloor (u * inject_Z (Z.of_nat n))).
  { change 0 with (Qfloor (inject_Z 0)). apply Qfloor_resp_le.
    change (inject_Z 0) with 0%Q. nra. }
  assert (Hhi : Qfloor (u * inject_Z (Z.of_nat n)) < Z.of_nat n).
  { rewrite Zlt_Qlt. eapply Qle_lt_trans; [apply Qfloor_le|]. nra. }
  lia.
Qed.

Lemma randint_run low high s :
  (low < high)%nat →
  ∃ k, randint unif low high s = Ok (k, S s) ∧ (low ≤ k)%nat ∧ (k < high)%nat.
Proof.
  intros Hlh. unfold randint. destruct (decide (high ≤ low)%nat); [lia|].
  eexists. split; [reflexivity|].
  destruct (unif_range s) as [H0 H1].
  pose proof (floor_scaled_range (unif s) (high - low) H0 H1). lia.
Qed.

Lemma randint_empty low high s :
  (high ≤ low)%nat → randint unif low high s = Raise ValueError.
Proof. intros Hlh. unfold randint. by destruct (decide (high ≤ low)%nat). Qed.

Lemma choice_run {A} (a : list A) s :
  a ≠ [] → ∃ x, choice unif a s = Ok (x, S s) ∧ x ∈ a.
Proof.
  intros Ha. unfold choice. destruct a as [|y a']; [done|].
  set (l := y :: a').
  destruct (randint_run 0 (length l) s) as (k & Hk & _ & Hlt); [simpl; lia|].
  rewrite M_bind_run, Hk.
  destruct (lookup_lt_is_Some_2 l k Hlt) as [x Hx]. rewrite Hx.
  exists x. split; [done|]. by eapply list_elem_of_lookup_2.
Qed.

(** *** The default indicator *)

Lemma draw_first_default_idx_run s :
  (0 < L)%nat →
  ∃ k, draw_first_default_idx unif date_range s = Ok (k, S s) ∧
       (int_tenth L ≤ k)%nat ∧ (k < L)%nat.
Proof.
  intros HL. unfold draw_first_default_idx.
  assert (Hlt : (int_tenth L < L)%nat).
  { unfold int_tenth. apply Nat.div_lt; lia. }
  destruct (decide (L ≤ int_tenth L)%nat); [lia|].
  by apply randint_run.
Qed.

Lemma draw_first_default_idx_empty s :
  L = 0%nat → draw_first_default_idx unif date_range s = Raise ValueError.
Proof.
  intros HL. unfold draw_first_default_idx. rewrite HL. simpl.
  by apply randint_empty.
Qed.

Lemma default_stage_run _id fdd s :
  (0 < L)%nat →
  ∃ col fdd' s',
    default_stage unif date_range _id fdd s = Ok ((col, fdd'), s') ∧
    default_outcome _id fdd col fdd'.
Proof.
  intros HL. unfold default_stage. rewrite M_bind_run. unfold rand at 1.
  destruct (Qlt_le_dec (unif s) (5 # 100)).
  - destruct (draw_first_default_idx_run (S s) HL) as (k & Hk & Hlo & Hhi).
    rewrite M_bind_run, Hk.
    destruct (lookup_lt_is_Some_2 date_range k Hhi) as [d Hd].
    rewrite M_bind_run. unfold iloc. rewrite Hd.
    eexists _, _, _. split; [reflexivity|]. by eapply Defaulted.
  - eexists _, _, _. split; [reflexivity|]. apply Survived.
Qed.

Lemma default_outcome_length _id fdd col fdd' :
  default_outcome _id fdd col fdd' → length col = L.
Proof.
  destruct 1; [by rewrite length_fmap|by rewrite length_replicate].
Qed.

(** *** The credit limit path *)

Lemma credit_limit_loop_run n current_limit s :
  (0 < L)%nat → (0 < current_limit)%Q →
  ∃ limits s',
    credit_limit_loop unif date_range n current_limit s = Ok (limits, s') ∧
    length limits = n ∧ Forall (λ x, (0 < x)%Q) limits.
Proof.
  intros HL. revert current_limit s.
  induction n as [|n IH]; intros cur s Hcur.
  - exists [], s. by repeat split.
  - cbn [credit_limit_loop]. rewrite M_bind_run. unfold rand at 1.
    rewrite M_bind_run. unfold py_truediv.
    destruct (Qeq_dec (inject_Z (Z.of_nat L)) 0) as [H0|_].
    { exfalso. assert (0 < inject_Z (Z.of_nat L))%Q; [|lra].
      change 0%Q with (inject_Z 0). rewrite <- Zlt_Qlt. lia. }
    cbn [mret M_ret]. rewrite M_bind_run.
    destruct (Qlt_le_dec (unif s) (1 / inject_Z (Z.of_nat L))).
    + rewrite M_bind_run. unfold uniform at 1. rewrite M_bind_run.
      unfold rand at 1. cbn [mret M_ret]. rewrite M_bind_run.
      unfold rand at 1. cbn [mret M_ret].
      match goal with |- context [py_max 10000 ?x] => set (new := py_max 10000 x) end.
      assert (Hnew : (0 < new)%Q).
      { eapply Qlt_le_trans; [|apply py_max_ge_l]. reflexivity. }
      destruct (IH new (S (S (S s))) Hnew) as (ls & s' & Hrun & Hlen & Hpos).
      rewrite M_bind_run, Hrun. eexists _, _. split; [reflexivity|].
      split; [simpl; by rewrite Hlen|]. by constructor.
    + cbn [mret M_ret].
      destruct (IH cur (S s) Hcur) as (ls & s' & Hrun & Hlen & Hpos).
      rewrite M_bind_run, Hrun. eexists _, _. split; [reflexivity|].
      split; [simpl; by rewrite Hlen|]. by constructor.
Qed.

Lemma uniform_run low high s :
  uniform unif low high s = Ok ((low + (high - low) * unif s)%Q, S s).
Proof. done. Qed.

Lemma credit_limit_path_run s :
  (0 < L)%nat →
  ∃ limits s',
    (uniform unif 100000 5000000 ≫= credit_limit_path unif date_range) s
      = Ok (limits, s') ∧
    length limits = L ∧ Forall (λ x, (0 < x)%Q) limits ∧
    limits !! 0%nat = Some (100000 + (5000000 - 100000) * unif s)%Q.
Proof.
  intros HL. rewrite M_bind_run, uniform_run. unfold credit_limit_path.
  set (initial := (100000 + (5000000 - 100000) * unif s)%Q).
  assert (Hinit : (0 < initial)%Q).
  { unfold initial. destruct (unif_range s). nra. }
  destruct (credit_limit_loop_run (L - 1) initial (S s) HL Hinit)
    as (ls & s' & Hrun & Hlen & Hpos).
  rewrite M_bind_run, Hrun. eexists _, _. split; [reflexivity|].
  split; [simpl; lia|]. split; [by constructor|done].
Qed.

Lemma assign_column_run {A} (values : list A) s :
  length values = L → assign_column date_range values s = Ok (values, s).
Proof. intros Hlen. unfold assign_column. by destruct (decide _). Qed.

Lemma assign_column_mismatch {A} (values : list A) s :
  length values ≠ L → assign_column date_range values s = Raise ValueError.
Proof. intros Hlen. unfold assign_column. by destruct (decide _). Qed.

(** *** The used amount *)

Lemma used_amount_loop_run col std idxs cur s :
  Forall (λ x, (0 < x)%Q) col →
  Forall (λ i, (i < length col)%nat) idxs →
  ∃ used,
    used_amount_loop gauss col std idxs cur s = Ok (used, (s + length idxs)%nat) ∧
    Forall2 (λ i u, ∃ limit, col !! i = Some limit ∧
                             (0 <= u)%Q ∧ (u <= limit)%Q) idxs used.
Proof.
  intros Hcol. revert cur s.
  induction idxs as [|i idxs IH]; intros cur s Hidx.
  - exists []. simpl. rewrite Nat.add_0_r. by split.
  - apply Forall_cons in Hidx as [Hi Hidx].
    destruct (lookup_lt_is_Some_2 col i Hi) as [limit Hlimit].
    cbn [used_amount_loop]. rewrite M_bind_run. unfold iloc. rewrite Hlimit.
    cbn [mret M_ret]. rewrite M_bind_run. unfold normal at 1.
    cbv beta iota. rewrite M_bind_run.
    match goal with |- context [used_amount_loop _ _ _ _ ?c ?t] =>
      destruct (IH c t Hidx) as (used & Hrun & Hall) end.
    rewrite Hrun. eexists. split.
    { replace (s + length (i :: idxs))%nat with (S s + length idxs)%nat
        by (simpl; lia).
      reflexivity. }
    constructor; [|done]. exists limit. split; [done|].
    apply clip_bounds.
    apply Qlt_le_weak. by eapply (proj1 (Forall_lookup _ _) Hcol).
Qed.

Lemma used_amount_stage_run initial col s :
  Forall (λ x, (0 < x)%Q) col → length col = L →
  ∃ used,
    used_amount_stage unif gauss np_sqrt date_range initial col s
      = Ok (used, (S s + L)%nat) ∧
    length used = L ∧
    ∀ i u limit, used !! i = Some u → col !! i = Some limit →
                 (0 <= u)%Q ∧ (u <= limit)%Q.
Proof.
  intros Hcol Hlen. unfold used_amount_stage. rewrite M_bind_run, uniform_run.
  cbv beta iota zeta.
  match goal with |- context [used_amount_loop _ _ ?std ?ix ?c ?t] =>
    destruct (used_amount_loop_run col std ix c t Hcol) as (used & Hrun & Hall) end.
  { apply Forall_forall. intros i Hi%elem_of_seq. lia. }
  rewrite length_seq in Hrun. exists used. split; [exact Hrun|].
  pose proof (Forall2_length _ _ _ Hall) as Hl. rewrite length_seq in Hl.
  split; [done|]. intros i u limit Hu Hlim.
  assert (Hi : (i < L)%nat) by (rewrite Hl; by eapply lookup_lt_Some).
  destruct (Forall2_lookup_lr _ _ _ i i u Hall) as (limit' & Hlim' & Hb); [|done|].
  { by apply lookup_seq_lt. }
  rewrite Hlim in Hlim'. by injection Hlim' as <-.
Qed.

(** *** The noise features *)

Lemma dummy_stage_run nd ks s :
  (∀ k, k ∈ ks → is_Some (nd !! dummy_name k)) →
  ∃ cols s',
    dummy_stage gauss date_range nd ks s = Ok (cols, s') ∧
    Forall2 (dummy_column_of nd) ks cols.
Proof.
  revert s. induction ks as [|k ks IH]; intros s Hkeys.
  - exists [], s. by split.
  - destruct (Hkeys k) as [n Hn]; [by left|].
    cbn [dummy_stage]. rewrite Hn. rewrite M_bind_run. unfold normal_vec at 1.
    rewrite M_bind_run, assign_column_run
      by (by rewrite !length_fmap, length_seq).
    destruct (IH (s + L)%nat) as (cols & s' & Hrun & Hall).
    { intros k' Hk'. apply Hkeys. by right. }
    rewrite M_bind_run, Hrun. eexists _, _. split; [reflexivity|].
    constructor; [|done]. by exists n, s.
Qed.

Lemma draw_n_dummies_run ks s :
  ∃ nd,
    draw_n_dummies unif ks s = Ok (nd, (s + length ks)%nat) ∧
    (∀ k, k ∈ ks → is_Some (nd !! dummy_name k)) ∧
    (∀ j k, ks !! j = Some k →
       (∀ j' k', (j' < j)%nat → ks !! j' = Some k' → dummy_name k' ≠ dummy_name k) →
       nd !! dummy_name k = Some (0 + (1000 - 0) * unif (s + j)%nat)%Q).
Proof.
  revert s. induction ks as [|k0 ks IH]; intros s.
  - exists ∅. simpl. rewrite Nat.add_0_r. split; [done|].
    split; [by intros k ?%elem_of_nil|done].
  - destruct (IH (S s)) as (nd & Hrun & Hkeys & Hpos).
    cbn [draw_n_dummies]. rewrite M_bind_run, uniform_run, M_bind_run, Hrun.
    eexists. split.
    { replace (s + length (k0 :: ks))%nat with (S s + length ks)%nat
        by (simpl; lia).
      reflexivity. }
    split.
    + intros k [->|Hk]%elem_of_cons.
      * rewrite lookup_insert_eq. eauto.
      * destruct (decide (dummy_name k0 = dummy_name k)) as [->|Hne].
        -- rewrite lookup_insert_eq. eauto.
        -- rewrite lookup_insert_ne by done. by apply Hkeys.
    + intros [|j] k Hj Hfresh.
      * injection Hj as ->. rewrite Nat.add_0_r. apply lookup_insert_eq.
      * rewrite lookup_insert_ne by (apply (Hfresh 0%nat k0); [lia|done]).
        replace (s + S j)%nat with (S s + j)%nat by lia.
        apply Hpos; [done|]. intros j' k' Hlt Hj'.
        apply (Hfresh (S j') k'); [lia|done].
Qed.

(** *** Nullification *)

Lemma nullify_column_lookup {A} dates default_date (col : list (option A)) i d c :
  dates !! i = Some d → col !! i = Some c →
  nullify_column dates default_date col !! i
  = Some (if ts_leb default_date d then None else c).
Proof.
  intros Hd Hc. unfold nullify_column.
  rewrite lookup_zip_with, Hd. simpl. by rewrite Hc.
Qed.

(** *** The loop body *)

Lemma default_outcome_entry _id fdd col fdd' :
  default_outcome _id fdd col fdd' → is_Some (fdd' !! _id).
Proof. destruct 1; rewrite lookup_insert_eq; eauto. Qed.

Lemma gen_id_run nd _id fdd s :
  (0 < L)%nat → has_features nd →
  ∃ fr fdd' s',
    gen_id unif gauss np_sqrt date_range nd _id fdd s = Ok ((fr, fdd'), s') ∧
    entity_frame nd _id fdd fr fdd'.
Proof.
  intros HL Hnd. unfold gen_id.
  destruct (default_stage_run _id fdd s HL) as (dcol & fdd' & s1 & Hdef & Hout).
  rewrite M_bind_run, Hdef. cbv beta iota.
  destruct (choice_run ["A"; "B"; "C"; "D"]%string s1) as (sec & Hsec & Hin); [done|].
  rewrite M_bind_run, Hsec.
  rewrite M_bind_run, uniform_run.
  set (initial := (100000 + (5000000 - 100000) * unif (S s1))%Q).
  destruct (credit_limit_path_run (S s1) HL)
    as (limits & s2 & Hpath & Hlen & Hpos & _).
  rewrite M_bind_run, uniform_run in Hpath. fold initial in Hpath.
  rewrite M_bind_run, Hpath.
  rewrite M_bind_run, assign_column_run by done.
  destruct (used_amount_stage_run initial limits s2 Hpos Hlen)
    as (used & Hused & Hulen & Hbound).
  rewrite M_bind_run, Hused.
  rewrite M_bind_run, assign_column_run by done.
  destruct (dummy_stage_run nd features (S s2 + L)%nat Hnd)
    as (dcols & s3 & Hdum & Hcols).
  rewrite M_bind_run. fold features. rewrite Hdum.
  rewrite M_bind_run. unfold nullify_stage.
  pose proof (EntityFrame gauss date_range nd _id fdd dcol fdd' sec limits used dcols
                Hout Hin Hlen Hpos Hulen Hbound Hcols) as Hframe.
  destruct (default_outcome_entry _ _ _ _ Hout) as [[T|] HT];
    rewrite HT in Hframe |- *; eexists _, _, _; (split; [reflexivity|exact Hframe]).
Qed.

(** *** Claims on one entity *)

Lemma threshold_column_step T (grid : list Timestamp) :
  StronglySorted (λ a b, ts_leb a b = true) grid →
  ∃ k, (k ≤ length grid)%nat ∧
       (λ d, if ts_leb T d then 1 else 0) <$> grid
       = replicate k 0 ++ replicate (length grid - k) 1.
Proof.
  induction 1 as [|d grid Hs IH Hall].
  - by exists 0%nat.
  - destruct (ts_leb T d) eqn:HT.
    + exists 0%nat. split; [lia|]. cbn [fmap list_fmap]. rewrite HT.
      simpl. f_equal. clear IH Hs.
      induction Hall as [|d' grid Hd' Hall IH]; [done|].
      simpl. rewrite (ts_leb_trans T d d') by done. by f_equal.
    + destruct IH as (k & Hk & IH). exists (S k). split; [simpl; lia|].
      cbn [fmap list_fmap]. rewrite HT.
      change (list_fmap _ _ ?f grid) with (f <$> grid). rewrite IH. done.
Qed.

Lemma step_column_monotone (k n : nat) i j a b :
  (i ≤ j)%nat →
  (replicate k 0 ++ replicate n 1) !! i = Some a →
  (replicate k 0 ++ replicate n 1) !! j = Some b →
  a ≤ b.
Proof.
  intros Hij Ha Hb.
  destruct (decide (j < k)%nat).
  - rewrite lookup_app_l in Ha, Hb by (rewrite length_replicate; lia).
    apply lookup_replicate in Ha as [-> _]. apply lookup_replicate in Hb as [-> _].
    done.
  - rewrite (lookup_app_r _ _ j) in Hb by (rewrite length_replicate; lia).
    apply lookup_replicate in Hb as [-> _].
    destruct (decide (i < k)%nat).
    + rewrite lookup_app_l in Ha by (rewrite length_replicate; lia).
      apply lookup_replicate in Ha as [-> _]. done.
    + rewrite lookup_app_r in Ha by (rewrite length_replicate; lia).
      apply lookup_replicate in Ha as [-> _]. done.
Qed.

Lemma nullify_default_ind id_df default_date :
  fr_default_ind (nullify id_df default_date) = fr_default_ind id_df.
Proof. done. Qed.

Lemma entity_frame_default_ind nd _id fdd fr fdd' :
  entity_frame nd _id fdd fr fdd' →
  default_outcome _id fdd (fr_default_ind fr) fdd'.
Proof. destruct 1. by repeat case_match. Qed.

(** C5. For every entity the generator produces on a sorted time grid, the
    default-state column is non-decreasing along the grid, consists of a run
    of 0s followed by a run of 1s (so it changes value at most once), and is
    0 at every row when the entity has no first-default date. *)
Theorem default_ind_monotone nd _id fdd s :
  (0 < L)%nat → has_features nd → grid_sorted →
  ∃ fr fdd' s',
    gen_id unif gauss np_sqrt date_range nd _id fdd s = Ok ((fr, fdd'), s') ∧
    (∀ i j a b, (i ≤ j)%nat →
       fr_default_ind fr !! i = Some a → fr_default_ind fr !! j = Some b →
       a ≤ b) ∧
    (∃ k, (k ≤ L)%nat ∧
          fr_default_ind fr = replicate k 0 ++ replicate (L - k) 1) ∧
    (fdd' !! _id = Some None → fr_default_ind fr = replicate L 0).
Proof.
  intros HL Hnd Hsorted.
  destruct (gen_id_run nd _id fdd s HL Hnd) as (fr & fdd' & s' & Hrun & Hfr).
  exists fr, fdd', s'. split; [done|].
  apply entity_frame_default_ind in Hfr.
  assert (Hstep : ∃ k, (k ≤ L)%nat ∧
            fr_default_ind fr = replicate k 0 ++ replicate (L - k) 1).
  { destruct Hfr as [idx T Hidx HT|].
    - apply threshold_column_step, Hsorted.
    - exists L. split; [done|]. rewrite Nat.sub_diag. simpl.
      by rewrite app_nil_r. }
  split; [|split; [done|]].
  - destruct Hstep as (k & _ & ->). intros i j a b. apply step_column_monotone.
  - destruct Hfr as [idx T Hidx HT|]; [|done].
    rewrite lookup_insert_eq. done.
Qed.

Lemma dummy_columns_names nd dcols :
  Forall2 (dummy_column_of nd) features dcols →
  dcols.*1 = dummy_name <$> features.
Proof.
  induction 1 as [|k c ks cs (n & p & _ & ->) _ IH]; [done|].
  cbn [fmap list_fmap]. simpl. by f_equal.
Qed.

Lemma dummy_columns_cells nd dcols i :
  (i < L)%nat →
  Forall2 (dummy_column_of nd) features dcols →
  Forall (λ c : string * list Q, ∃ x, c.2 !! i = Some x) dcols.
Proof.
  intros Hi Hall. apply Forall_forall. intros c Hc.
  apply list_elem_of_lookup in Hc as [j Hj].
  destruct (Forall2_lookup_r _ _ _ _ _ Hall Hj) as (k & _ & n & p & _ & ->).
  simpl. apply lookup_lt_is_Some_2. by rewrite !length_fmap, length_seq.
Qed.

(** The cells of row [i] of an entity frame. *)
Lemma entity_frame_cells nd _id fdd fr fdd' i d :
  entity_frame nd _id fdd fr fdd' → date_range !! i = Some d →
  ∃ sec c u,
    fr_sector fr !! i = Some (if nullified (fdd' !! _id) d then None else Some sec) ∧
    fr_credit_limit fr !! i
      = Some (if nullified (fdd' !! _id) d then None else Some c) ∧
    fr_used_amount fr !! i
      = Some (if nullified (fdd' !! _id) d then None else Some u) ∧
    ((0 <= u)%Q ∧ (u <= c)%Q) ∧
    (fr_dummy fr).*1 = dummy_name <$> features ∧
    Forall (λ col : string * list (option Q),
              ∃ x, col.2 !! i
                   = Some (if nullified (fdd' !! _id) d then None else Some x))
           (fr_dummy fr).
Proof.
  intros Hfr Hd.
  destruct Hfr as [dcol fdd' sec limits used dcols Hout Hsec Hlen Hpos Hulen Hb Hcols].
  assert (Hi : (i < L)%nat) by (by eapply lookup_lt_Some).
  destruct (lookup_lt_is_Some_2 limits i) as [c Hc]; [lia|].
  destruct (lookup_lt_is_Some_2 used i) as [u Hu]; [lia|].
  exists sec, c, u. pose proof (Hb i u c Hu Hc) as Hbound.
  pose proof (dummy_columns_names nd dcols Hcols) as Hnames.
  pose proof (dummy_columns_cells nd dcols i Hi Hcols) as Hcells.
  assert (Hraw_names :
    ((λ c : string * list Q, (c.1, Some <$> c.2)) <$> dcols).*1
    = dummy_name <$> features).
  { rewrite <- Hnames, <- list_fmap_compose. by apply list_fmap_ext. }
  destruct (fdd' !! _id) as [[T|]|] eqn:HT; cbn [nullified].
  - cbn [nullify raw_frame fr_sector fr_credit_limit fr_used_amount fr_dummy fr_date].
    rewrite (nullify_column_lookup date_range T _ i d (Some sec))
      by (done || by rewrite lookup_replicate_2).
    rewrite (nullify_column_lookup date_range T _ i d (Some c))
      by (done || by rewrite list_lookup_fmap, Hc).
    rewrite (nullify_column_lookup date_range T _ i d (Some u))
      by (done || by rewrite list_lookup_fmap, Hu).
    split; [done|]. split; [done|]. split; [done|]. split; [done|]. split.
    + rewrite <- Hraw_names, <- list_fmap_compose. by apply list_fmap_ext.
    + rewrite <- list_fmap_compose. apply Forall_fmap.
      eapply Forall_impl; [exact Hcells|]. intros col [x Hx]. exists x.
      cbn [compose snd]. erewrite nullify_column_lookup; [done..|].
      by rewrite list_lookup_fmap, Hx.
  - cbn [raw_frame fr_sector fr_credit_limit fr_used_amount fr_dummy].
    rewrite lookup_replicate_2 by done. rewrite !list_lookup_fmap, Hc, Hu.
    split; [done|]. split; [done|]. split; [done|]. split; [done|].
    split; [done|]. apply Forall_fmap. eapply Forall_impl; [exact Hcells|].
    intros col [x Hx]. exists x. cbn [compose snd].
    by rewrite list_lookup_fmap, Hx.
  - cbn [raw_frame fr_sector fr_credit_limit fr_used_amount fr_dummy].
    rewrite lookup_replicate_2 by done. rewrite !list_lookup_fmap, Hc, Hu.
    split; [done|]. split; [done|]. split; [done|]. split; [done|].
    split; [done|]. apply Forall_fmap. eapply Forall_impl; [exact Hcells|].
    intros col [x Hx]. exists x. cbn [compose snd].
    by rewrite list_lookup_fmap, Hx.
Qed.

(** C6. For every defaulting entity, with [T] the first-default date recorded
    in [first_default_dates], every regressor column (sector, credit limit,
    used amount and the five noise features, which are all the columns of
    the frame but id, date and default_ind) is missing at every row dated at
    or after [T] and present at every row dated strictly before [T]; the
    default-state flag keeps its value, and the nullification pass itself
    does not write to it. *)
Theorem nullification_complete nd _id fdd s :
  (0 < L)%nat → has_features nd →
  ∃ fr fdd' s',
    gen_id unif gauss np_sqrt date_range nd _id fdd s = Ok ((fr, fdd'), s') ∧
    (fr_dummy fr).*1 = dummy_name <$> features ∧
    (∀ id_df default_date,
       fr_default_ind (nullify id_df default_date)
       = fr_default_ind id_df) ∧
    ∀ T, fdd' !! _id = Some (Some T) →
      ∀ i d, date_range !! i = Some d →
        (ts_leb T d = true → regressors_missing fr i) ∧
        (ts_ltb d T = true → regressors_present fr i) ∧
        fr_default_ind fr !! i = Some (if ts_leb T d then 1 else 0).
Proof.
  intros HL Hnd.
  destruct (gen_id_run nd _id fdd s HL Hnd) as (fr & fdd' & s' & Hrun & Hfr).
  exists fr, fdd', s'. split; [done|].
  assert (Hnames : (fr_dummy fr).*1 = dummy_name <$> features).
  { destruct (lookup_lt_is_Some_2 date_range 0 HL) as [d0 Hd0].
    by destruct (entity_frame_cells nd _id fdd fr fdd' 0 d0 Hfr Hd0)
      as (? & ? & ? & _ & _ & _ & _ & Hn & _). }
  split; [done|]. split; [done|].
  intros T HT i d Hd.
  destruct (entity_frame_cells nd _id fdd fr fdd' i d Hfr Hd)
    as (sec & c & u & Hsec & Hc & Hu & _ & _ & Hcells).
  rewrite HT in Hsec, Hc, Hu, Hcells. cbn [nullified] in *.
  split; [|split].
  - intros Hge. rewrite Hge in *. repeat split; try done.
    eapply Forall_impl; [exact Hcells|]. by intros col [x Hx].
  - intros Hlt. rewrite ts_ltb_nleb in Hlt. apply negb_true_iff in Hlt.
    rewrite Hlt in *. repeat split; try (by eexists).
    eapply Forall_impl; [exact Hcells|]. intros col [x Hx]. by exists x.
  - apply entity_frame_default_ind in Hfr.
    destruct Hfr as [idx T0 Hidx HT0|].
    + rewrite lookup_insert_eq in HT. injection HT as <-.
      by rewrite list_lookup_fmap, Hd.
    + by rewrite lookup_insert_eq in HT.
Qed.

(** C2, as amended. For every entity and every row dated strictly before its
    first-default date (every row when the entity never defaults), the
    emitted used amount satisfies [0 <= used_amount <= credit_limit] at that
    row. *)
Theorem usage_bounded_before_default nd _id fdd s :
  (0 < L)%nat → has_features nd →
  ∃ fr fdd' s',
    gen_id unif gauss np_sqrt date_range nd _id fdd s = Ok ((fr, fdd'), s') ∧
    ∀ i d, date_range !! i = Some d →
      before_first_default (fdd' !! _id) d → usage_within_limit fr i.
Proof.
  intros HL Hnd.
  destruct (gen_id_run nd _id fdd s HL Hnd) as (fr & fdd' & s' & Hrun & Hfr).
  exists fr, fdd', s'. split; [done|].
  intros i d Hd Hbefore.
  destruct (entity_frame_cells nd _id fdd fr fdd' i d Hfr Hd)
    as (sec & c & u & _ & Hc & Hu & [H0 H1] & _).
  assert (Hkeep : nullified (fdd' !! _id) d = false).
  { destruct (fdd' !! _id) as [[T|]|]; cbn in *; [|done..].
    rewrite ts_ltb_nleb in Hbefore. by apply negb_true_iff in Hbefore. }
  rewrite Hkeep in Hc, Hu. by exists u, c.
Qed.

(** C7, as amended. On a non-empty grid the first-default row index is drawn
    from the integer range [[int(0.10 L), L - 1]], whose lower end is the
    floor of [0.10 L]; it is at least [ceil(0.10 L)] when [L] is a multiple
    of 10. *)
Theorem first_default_idx_range s :
  (0 < L)%nat →
  ∃ k, draw_first_default_idx unif date_range s = Ok (k, S s) ∧
       (int_tenth L ≤ k)%nat ∧ (k ≤ L - 1)%nat ∧
       ((L mod 10 = 0)%nat → (ceil_tenth L ≤ k)%nat).
Proof.
  intros HL.
  destruct (draw_first_default_idx_run s HL) as (k & Hk & Hlo & Hhi).
  exists k. split; [done|]. split; [done|]. split; [lia|].
  intros Hmod. unfold ceil_tenth, int_tenth in *.
  pose proof (Nat.div_mod_eq L 10) as HLdiv.
  pose proof (Nat.div_mod_eq (L + 9) 10) as HL9.
  pose proof (Nat.mod_upper_bound (L + 9) 10). lia.
Qed.

(** *** The whole run *)

Lemma id_loop_run nd ids fdd s :
  (0 < L)%nat → has_features nd →
  ∃ frames fdd' s',
    id_loop unif gauss np_sqrt date_range nd ids fdd s = Ok ((frames, fdd'), s') ∧
    Forall2 (λ _id fr, ∃ fdd0 fdd1, entity_frame nd _id fdd0 fr fdd1) ids frames.
Proof.
  intros HL Hnd. revert fdd s.
  induction ids as [|_id ids IH]; intros fdd s.
  - exists [], fdd, s. by split.
  - destruct (gen_id_run nd _id fdd s HL Hnd) as (fr & fdd1 & s1 & Hrun & Hfr).
    destruct (IH fdd1 s1) as (frames & fdd2 & s2 & Hloop & Hall).
    cbn [id_loop]. rewrite M_bind_run, Hrun. cbv beta iota.
    rewrite M_bind_run, Hloop. eexists _, _, _. split; [reflexivity|].
    constructor; [|done]. eauto.
Qed.

Lemma entity_frame_date nd _id fdd fr fdd' :
  entity_frame nd _id fdd fr fdd' → fr_date fr = date_range.
Proof. destruct 1. by repeat case_match. Qed.

Lemma frame_rows_length fr : length (frame_rows fr) = length (fr_date fr).
Proof. unfold frame_rows. by rewrite length_imap. Qed.

Lemma features_fresh j k :
  features !! j = Some k →
  ∀ j' k', (j' < j)%nat → features !! j' = Some k' → dummy_name k' ≠ dummy_name k.
Proof.
  intros Hj j' k' Hlt Hj'.
  do 5 (destruct j as [|j]; [injection Hj as <-;
    do 5 (destruct j' as [|j']; [injection Hj' as <-; (lia || done)|]); done|]).
  done.
Qed.

Lemma generate_no_ids s :
  generate unif gauss np_sqrt date_range 0 s = Raise ValueError.
Proof.
  unfold generate.
  destruct (draw_n_dummies_run features s) as (nd & Hnd & _).
  fold features. by rewrite M_bind_run, Hnd.
Qed.

Lemma generate_run N s :
  (0 < L)%nat → (0 < N)%nat →
  ∃ nd final frames fdd s',
    draw_n_dummies unif features s = Ok (nd, (s + length features)%nat) ∧
    (∀ j k, features !! j = Some k →
       nd !! dummy_name k = Some (0 + (1000 - 0) * unif (s + j)%nat)%Q) ∧
    generate unif gauss np_sqrt date_range N s
      = Ok ((final, frames, fdd), s') ∧
    final = mjoin (frame_rows <$> frames) ∧
    Forall2 (λ _id fr, ∃ fdd0 fdd1, entity_frame nd _id fdd0 fr fdd1)
      (id_name <$> seq 0 N) frames.
Proof.
  intros HL HN. unfold generate.
  destruct (draw_n_dummies_run features s) as (nd & Hnd & Hkeys & Hpos).
  destruct (id_loop_run nd (id_name <$> seq 0 N) ∅ (s + length features)%nat HL Hkeys)
    as (frames & fdd & s' & Hloop & Hall).
  fold features. rewrite M_bind_run, Hnd, M_bind_run, Hloop. cbv beta iota.
  assert (Hne : frames ≠ []).
  { intros ->. apply Forall2_length in Hall.
    rewrite length_fmap, length_seq in Hall. simpl in Hall. lia. }
  rewrite M_bind_run. unfold pd_concat. destruct frames as [|fr frames]; [done|].
  exists nd. eexists _, _, _, _. split; [reflexivity|].
  split; [|split; [reflexivity|split; [reflexivity|exact Hall]]].
  intros j k Hj. apply Hpos; [done|]. by apply features_fresh.
Qed.

(** C8, as amended. With no entity ([N = 0]) the concatenation of the empty
    list of frames raises ValueError, whatever the grid; with at least one
    entity and a non-empty grid the generator returns a dataset of [N * L]
    rows. *)
Theorem generate_rows N s :
  (N = 0%nat → generate unif gauss np_sqrt date_range N s = Raise ValueError) ∧
  ((0 < N)%nat → (0 < L)%nat →
   ∃ final frames fdd s',
     generate unif gauss np_sqrt date_range N s = Ok ((final, frames, fdd), s') ∧
     length frames = N ∧ length final = (N * L)%nat).
Proof.
  split; [intros ->; apply generate_no_ids|].
  intros HN HL.
  destruct (generate_run N s HL HN)
    as (nd & final & frames & fdd & s' & _ & _ & Hrun & -> & Hall).
  exists (mjoin (frame_rows <$> frames)), frames, fdd, s'. split; [done|].
  pose proof (Forall2_length _ _ _ Hall) as Hlen.
  rewrite length_fmap, length_seq in Hlen. split; [done|].
  rewrite Hlen. clear Hlen Hrun.
  induction Hall as [|_id fr ids frames (fdd0 & fdd1 & Hfr) _ IH]; [done|].
  rewrite fmap_cons. simpl mjoin.
  change (list_join _ (frame_rows <$> frames)) with (mjoin (frame_rows <$> frames)).
  rewrite length_app, IH.
  rewrite frame_rows_length, (entity_frame_date _ _ _ _ _ Hfr). simpl.
  unfold no_obs_per_id. lia.
Qed.

(** The column of a noise feature in an entity frame: its non-missing cells
    are the scale stored in [n_dummies] times a standard normal draw. *)
Lemma entity_frame_dummy nd _id fdd fr fdd' name col :
  entity_frame nd _id fdd fr fdd' → (name, col) ∈ fr_dummy fr →
  ∃ n, nd !! name = Some n ∧
       ∀ i x, col !! i = Some (Some x) → ∃ p, x = (n * gauss p)%Q.
Proof.
  intros Hfr Hin.
  destruct Hfr as [dcol fdd' sec limits used dcols Hout Hsec Hlen Hpos Hulen Hb Hcols].
  assert (Hraw : ∃ raw, (name, raw) ∈ dcols ∧
            ∀ i x, col !! i = Some (Some x) → raw !! i = Some x).
  { destruct (fdd' !! _id) as [[T|]|];
      cbn [nullify raw_frame fr_dummy fr_date] in Hin.
    - apply list_elem_of_fmap in Hin as ([name1 col1] & [= -> ->] & Hin).
      apply list_elem_of_fmap in Hin as ([name2 raw] & [= -> ->] & Hin).
      exists raw. split; [done|]. intros i x Hx. cbn [fst snd] in Hx.
      unfold nullify_column in Hx. rewrite lookup_zip_with in Hx.
      destruct (date_range !! i) as [d|]; [|done]. cbn in Hx.
      rewrite list_lookup_fmap in Hx.
      destruct (raw !! i) as [y|]; [|done]. cbn in Hx.
      destruct (ts_leb T d); [done|]. congruence.
    - apply list_elem_of_fmap in Hin as ([name' raw] & [= -> ->] & Hin).
      exists raw. split; [done|]. intros i x Hx. cbn [fst snd] in Hx.
      rewrite list_lookup_fmap in Hx.
      destruct (raw !! i) as [y|]; [|done]. cbn in Hx. congruence.
    - apply list_elem_of_fmap in Hin as ([name' raw] & [= -> ->] & Hin).
      exists raw. split; [done|]. intros i x Hx. cbn [fst snd] in Hx.
      rewrite list_lookup_fmap in Hx.
      destruct (raw !! i) as [y|]; [|done]. cbn in Hx. congruence. }
  destruct Hraw as (raw & Hraw & Hcell).
  apply list_elem_of_lookup in Hraw as [j Hj].
  destruct (Forall2_lookup_r _ _ _ _ _ Hcols Hj) as (k & _ & n & p & Hn & Heq).
  injection Heq as -> ->. exists n. split; [done|].
  intros i x Hx. apply Hcell in Hx.
  rewrite !list_lookup_fmap in Hx.
  destruct (seq p L !! i) as [q|]; [|done]. cbn in Hx.
  exists q. congruence.
Qed.

(** C1, as amended. The scale of noise feature [k] is the entry of
    [n_dummies] drawn once, at stream position [k - 1] of the run, before the
    entity loop; every entity multiplies its standard normal draws for
    feature [k] by that same scale: one scale per feature for the whole
    population. *)
Theorem noise_scale_shared_by_entities N s :
  (0 < L)%nat → (0 < N)%nat →
  ∃ final frames fdd s',
    generate unif gauss np_sqrt date_range N s = Ok ((final, frames, fdd), s') ∧
    length frames = N ∧
    ∀ e fr j k col,
      frames !! e = Some fr → features !! j = Some k →
      (dummy_name k, col) ∈ fr_dummy fr →
      ∀ i x, col !! i = Some (Some x) →
        ∃ p, (x == 1000 * unif (s + j)%nat * gauss p)%Q.
Proof.
  intros HL HN.
  destruct (generate_run N s HL HN)
    as (nd & final & frames & fdd & s' & _ & Hpos & Hrun & _ & Hall).
  exists final, frames, fdd, s'. split; [done|].
  pose proof (Forall2_length _ _ _ Hall) as Hlen.
  rewrite length_fmap, length_seq in Hlen. split; [done|].
  intros e fr j k col He Hj Hin i x Hx.
  destruct (Forall2_lookup_r _ _ _ _ _ Hall He) as (_id & _ & fdd0 & fdd1 & Hfr).
  destruct (entity_frame_dummy nd _id fdd0 fr fdd1 _ col Hfr Hin)
    as (n & Hn & Hcell).
  rewrite (Hpos j k Hj) in Hn. injection Hn as <-.
  destruct (Hcell i x Hx) as [p ->]. exists p. ring.
Qed.

Lemma generate_empty_grid N s :
  L = 0%nat → generate unif gauss np_sqrt date_range N s = Raise ValueError.
Proof.
  intros HL0. destruct N as [|N]; [apply generate_no_ids|].
  unfold generate.
  destruct (draw_n_dummies_run features s) as (nd & Hnd & _).
  fold features. rewrite M_bind_run, Hnd.
  rewrite M_bind_run. cbn [seq fmap list_fmap id_loop]. rewrite M_bind_run.
  match goal with |- context [gen_id _ _ _ _ _ ?i ?d ?t] =>
    assert (Hgen : gen_id unif gauss np_sqrt date_range nd i d t = Raise ValueError) end.
  { unfold gen_id. rewrite M_bind_run. unfold default_stage.
    rewrite M_bind_run. unfold rand at 1.
    destruct (Qlt_le_dec _ _).
    - by rewrite M_bind_run, draw_first_default_idx_empty.
    - cbn [mret M_ret]. cbv beta iota.
      destruct (choice_run ["A"; "B"; "C"; "D"]%string (S (s + length features)))
        as (sec & Hsec & _); [done|].
      rewrite M_bind_run, Hsec, M_bind_run, uniform_run.
      rewrite M_bind_run. unfold credit_limit_path. rewrite HL0.
      cbn [Nat.sub credit_limit_loop]. rewrite M_bind_run. cbn [mret M_ret].
      rewrite M_bind_run, assign_column_mismatch; [done|].
      rewrite HL0. done. }
  by rewrite Hgen.
Qed.

End GeneratorFacts.

(** *** Sample runs *)

Lemma sample_unif_range : unit_interval sample_unif.
Proof. intros s. unfold sample_unif. destruct (s =? 1)%nat; split; lra. Qed.

Lemma zeros_range : unit_interval zeros.
Proof. intros s. unfold zeros. split; lra. Qed.

Lemma sample_has_features : has_features sample_n_dummies.
Proof.
  intros k Hk. unfold features in Hk.
  repeat (apply elem_of_cons in Hk as [->|Hk]); [by eexists..|].
  by apply elem_of_nil in Hk.
Qed.

Lemma sample_grid_sorted : grid_sorted sample_grid.
Proof. unfold grid_sorted, sample_grid. repeat constructor. Qed.

Lemma default_ind_monotone_witness :
  ∃ fr fdd' s',
    gen_id sample_unif zeros sample_sqrt sample_grid sample_n_dummies
      "ID_0001" ∅ 0%nat = Ok ((fr, fdd'), s') ∧
    (∀ i j a b, (i ≤ j)%nat →
       fr_default_ind fr !! i = Some a → fr_default_ind fr !! j = Some b →
       a ≤ b) ∧
    (∃ k, (k ≤ 5)%nat ∧
          fr_default_ind fr = replicate k 0 ++ replicate (5 - k) 1) ∧
    (fdd' !! "ID_0001"%string = Some None → fr_default_ind fr = replicate 5 0).
Proof.
  apply (default_ind_monotone sample_unif zeros sample_sqrt sample_grid
           sample_unif_range sample_n_dummies "ID_0001" ∅ 0%nat).
  - simpl. lia.
  - exact sample_has_features.
  - exact sample_grid_sorted.
Defined.

Lemma nullification_complete_witness :
  ∃ fr fdd' s',
    gen_id sample_unif zeros sample_sqrt sample_grid sample_n_dummies
      "ID_0001" ∅ 0%nat = Ok ((fr, fdd'), s') ∧
    (fr_dummy fr).*1 = dummy_name <$> features ∧
    (∀ id_df default_date,
       fr_default_ind (nullify id_df default_date) = fr_default_ind id_df) ∧
    ∀ T, fdd' !! "ID_0001"%string = Some (Some T) →
      ∀ i d, sample_grid !! i = Some d →
        (ts_leb T d = true → regressors_missing fr i) ∧
        (ts_ltb d T = true → regressors_present fr i) ∧
        fr_default_ind fr !! i = Some (if ts_leb T d then 1 else 0).
Proof.
  apply (nullification_complete sample_unif zeros sample_sqrt sample_grid
           sample_unif_range sample_n_dummies "ID_0001" ∅ 0%nat).
  - simpl. lia.
  - exact sample_has_features.
Defined.

Lemma usage_bounded_before_default_witness :
  ∃ fr fdd' s',
    gen_id sample_unif zeros sample_sqrt sample_grid sample_n_dummies
      "ID_0001" ∅ 0%nat = Ok ((fr, fdd'), s') ∧
    ∀ i d, sample_grid !! i = Some d →
      before_first_default (fdd' !! "ID_0001"%string) d →
      usage_within_limit fr i.
Proof.
  apply (usage_bounded_before_default sample_unif zeros sample_sqrt sample_grid
           sample_unif_range sample_n_dummies "ID_0001" ∅ 0%nat).
  - simpl. lia.
  - exact sample_has_features.
Defined.

(** C2 as stated fails at the first-default row itself: in the sample run the
    entity defaults on 2024-01-22 (row 3), and at that row the used amount
    and the credit limit are missing. *)
Lemma usage_bound_at_default_counterexample :
  ¬ (∀ fr fdd' s',
       gen_id sample_unif zeros sample_sqrt sample_grid sample_n_dummies
         "ID_0001" ∅ 0%nat = Ok ((fr, fdd'), s') →
       ∀ i d, sample_grid !! i = Some d →
         upto_first_default (fdd' !! "ID_0001"%string) d →
         usage_within_limit fr i).
Proof.
  intros Hclaim.
  destruct (gen_id sample_unif zeros sample_sqrt sample_grid sample_n_dummies
              "ID_0001" ∅ 0%nat) as [[[fr fdd'] s']|e] eqn:Hrun;
    [|by vm_compute in Hrun].
  specialize (Hclaim fr fdd' s' eq_refl 3%nat (mkTs 2024 1 22 0) eq_refl).
  vm_compute in Hrun. injection Hrun as <- <- <-.
  destruct Hclaim as (u & c & Hu & _); [by vm_compute|].
  by vm_compute in Hu.
Qed.

Lemma first_default_idx_range_witness :
  ∃ k, draw_first_default_idx sample_unif sample_grid 1%nat = Ok (k, 2%nat) ∧
       (int_tenth 5 ≤ k)%nat ∧ (k ≤ 5 - 1)%nat ∧
       ((5 mod 10 = 0)%nat → (ceil_tenth 5 ≤ k)%nat).
Proof.
  apply (first_default_idx_range sample_unif sample_grid sample_unif_range 1%nat).
  simpl. lia.
Defined.

(** C7 as stated fails when [L] is not a multiple of 10: on a grid of 5
    timestamps the draw can give row index 0, below [ceil(0.10 * 5) = 1]. *)
Lemma first_default_idx_below_ceil_counterexample :
  draw_first_default_idx zeros sample_grid 0%nat = Ok (0%nat, 1%nat) ∧
  ¬ (ceil_tenth (length sample_grid) ≤ 0)%nat.
Proof. split; [reflexivity|]. vm_compute. lia. Qed.

Lemma generate_rows_witness :
  generate sample_unif zeros sample_sqrt sample_grid 0 0%nat = Raise ValueError ∧
  ∃ final frames fdd s',
    generate sample_unif zeros sample_sqrt sample_grid 2 0%nat
      = Ok ((final, frames, fdd), s') ∧
    length frames = 2%nat ∧ length final = (2 * 5)%nat.
Proof.
  split.
  - apply (generate_rows sample_unif zeros sample_sqrt sample_grid
             sample_unif_range 0%nat 0%nat). reflexivity.
  - apply (generate_rows sample_unif zeros sample_sqrt sample_grid
             sample_unif_range 2%nat 0%nat); simpl; lia.
Defined.

(** C8 as stated fails: with no entity the run raises ValueError. *)
Lemma generate_no_entities_counterexample :
  ¬ yields_empty_dataset sample_unif zeros sample_sqrt sample_grid 0.
Proof. intros (frames & fdd & s' & Hrun). by vm_compute in Hrun. Qed.

(** It also raises on an empty grid. *)
Lemma generate_empty_grid_raises :
  ¬ yields_empty_dataset sample_unif zeros sample_sqrt [] 2.
Proof.
  intros (frames & fdd & s' & Hrun).
  by rewrite (generate_empty_grid _ _ _ _ sample_unif_range) in Hrun.
Qed.

Lemma mixed_unif_range : unit_interval mixed_unif.
Proof.
  intros s. unfold mixed_unif.
  destruct (s =? 5)%nat; [split; lra|]. destruct (s =? 6)%nat; split; lra.
Qed.

(** In the run on [mixed_unif] the first entity defaults at row 3 and the
    second does not; the first entity has noise cells before its default,
    and the last row of the second has a used amount, clipped to its credit
    limit. *)
Lemma mixed_run_cells :
  ∃ final frames fdd s' r fr col u c x,
    generate mixed_unif ones sample_sqrt sample_grid 2 0%nat
      = Ok ((final, frames, fdd), s') ∧
    fdd !! "ID_0001"%string = Some (Some (mkTs 2024 1 22 0)) ∧
    fdd !! "ID_0002"%string = Some None ∧
    final !! 9%nat = Some r ∧
    used_amount r = Some u ∧ credit_limit r = Some c ∧
    (u == 2550000)%Q ∧ (c == 2550000)%Q ∧
    frames !! 0%nat = Some fr ∧ ("f_dummy1"%string, col) ∈ fr_dummy fr ∧
    col !! 0%nat = Some (Some x) ∧ (x == 500)%Q.
Proof.
  destruct (generate mixed_unif ones sample_sqrt sample_grid 2 0%nat)
    as [[[[final frames] fdd] s']|e] eqn:Hrun; [|by vm_compute in Hrun].
  vm_compute in Hrun. injection Hrun as <- <- <- <-.
  eexists _, _, _, _, _, _, _, _, _, _. split; [reflexivity|].
  split; [by vm_compute|]. split; [by vm_compute|].
  split; [reflexivity|]. split; [reflexivity|]. split; [reflexivity|].
  split; [by vm_compute|]. split; [by vm_compute|].
  split; [reflexivity|]. split; [by left|]. split; [reflexivity|]. by vm_compute.
Qed.

Lemma noise_scale_shared_by_entities_witness :
  ∃ final frames fdd s',
    generate mixed_unif ones sample_sqrt sample_grid 2 0%nat
      = Ok ((final, frames, fdd), s') ∧
    length frames = 2%nat ∧
    ∀ e fr j k col,
      frames !! e = Some fr → features !! j = Some k →
      (dummy_name k, col) ∈ fr_dummy fr →
      ∀ i x, col !! i = Some (Some x) →
        ∃ p, (x == 1000 * mixed_unif (0 + j)%nat * ones p)%Q.
Proof.
  apply (noise_scale_shared_by_entities mixed_unif ones sample_sqrt sample_grid
           mixed_unif_range 2%nat 0%nat); simpl; lia.
Defined.

Lemma distinct_unif_quarter p : (distinct_unif p == 1 # 4)%Q → p = 0%nat.
Proof.
  unfold distinct_unif. destruct (p <? 100)%nat; unfold Qeq; simpl; lia.
Qed.

(** C1 fails: with two entities, pairwise distinct uniform draws and every
    normal draw equal to 1, both entities emit 250 = 1000 * (draw 0) in
    [f_dummy1], so no two distinct draws can have given their scales. *)
Lemma noise_scale_per_entity_counterexample :
  ¬ scale_drawn_per_entity distinct_unif ones sample_sqrt [mkTs 2024 1 1 0] 2.
Proof.
  intros (pos & Hinj & Hscale).
  destruct (generate distinct_unif ones sample_sqrt [mkTs 2024 1 1 0] 2 0%nat)
    as [[[[final frames] fdd] s']|e] eqn:Hrun; [|by vm_compute in Hrun].
  specialize (Hscale final frames fdd s' eq_refl).
  vm_compute in Hrun. injection Hrun as <- <- <- <-.
  assert (Hpos : ∀ e, (e < 2)%nat → pos e 1%nat = 0%nat).
  { intros e He. apply distinct_unif_quarter.
    destruct e as [|[|e]]; [| |lia].
    - destruct (Hscale 0%nat _ 1%nat [Some (50000 # 200)] 0%nat (50000 # 200)
                  eq_refl) as [p Hp]; [by left|by left|reflexivity|].
      unfold ones in Hp. revert Hp. generalize (distinct_unif (pos 0%nat 1%nat)).
      intros q Hq. unfold Qeq in *. simpl in *. lia.
    - destruct (Hscale 1%nat _ 1%nat [Some (50000 # 200)] 0%nat (50000 # 200)
                  eq_refl) as [p Hp]; [by left|by left|reflexivity|].
      unfold ones in Hp. revert Hp. generalize (distinct_unif (pos 1%nat 1%nat)).
      intros q Hq. unfold Qeq in *. simpl in *. lia. }
  apply (Hinj 0%nat 1%nat 1%nat); [done|].
  rewrite !Hpos; [done|lia..].
Qed.

(** * Facts on the rest of the scripts *)

(** ** Identifiers *)

Lemma concat_zeros_S k :
  String.concat "" (replicate (S k) "0"%string)
  = ("0" +:+ String.concat "" (replicate k "0"%string))%string.
Proof. by destruct k. Qed.

Lemma uint_of_string_zeros k s :
  Nat.of_uint <$> NilEmpty.uint_of_string
    (String.concat "" (replicate k "0"%string) +:+ s)
  = Nat.of_uint <$> NilEmpty.uint_of_string s.
Proof.
  induction k as [|k IH]; [done|].
  rewrite concat_zeros_S, <- IH. simpl.
  by destruct (NilEmpty.uint_of_string _).
Qed.

Lemma uint_of_str_of_nat n :
  Nat.of_uint <$> NilEmpty.uint_of_string (str_of_nat n) = Some n.
Proof.
  unfold str_of_nat, NilZero.string_of_uint.
  destruct (Nat.to_uint n) eqn:Hn;
    rewrite <- ?Hn, ?NilEmpty.usu; simpl; f_equal;
    try apply DecimalNat.Unsigned.of_to.
  rewrite <- (DecimalNat.Unsigned.of_to n), Hn. done.
Qed.

Lemma id_number_id_name i : id_number (id_name i) = Some (i + 1)%nat.
Proof.
  unfold id_number, id_name.
  change (string_drop 3 ("ID_" +:+ zfill 4 (str_of_nat (i + 1))))
    with (zfill 4 (str_of_nat (i + 1))).
  unfold zfill. by rewrite uint_of_string_zeros, uint_of_str_of_nat.
Qed.

Lemma id_name_inj i j : id_name i = id_name j → i = j.
Proof.
  intros Heq. pose proof (id_number_id_name i) as Hi.
  rewrite Heq, id_number_id_name in Hi. injection Hi. lia.
Qed.

Lemma id_names_NoDup N : NoDup (id_name <$> seq 0 N).
Proof.
  apply NoDup_fmap_2; [|apply NoDup_seq].
  intros i j. apply id_name_inj.
Qed.

(** X6. The identifiers of a run are pairwise distinct, and the number of an
    entity can be read back from its identifier. *)
Theorem ids_distinct N :
  NoDup (id_name <$> seq 0 N) ∧
  ∀ i, id_number (id_name i) = Some (i + 1)%nat.
Proof. split; [apply id_names_NoDup|apply id_number_id_name]. Qed.

Section GeneratorShape.

Variable unif : nat → Q.
Variable gauss : nat → Q.
Variable np_sqrt : Q → Q.
Variable date_range : list Timestamp.

Local Abbreviation L := (no_obs_per_id date_range).
Local Abbreviation entity_frame := (entity_frame gauss date_range).

Hypothesis unif_range : unit_interval unif.

(** The stages of one turn of the entity loop, and the frame they give. *)
Lemma gen_id_shape nd _id fdd s :
  (0 < L)%nat → has_features nd →
  ∃ dcol fdd' s1 sec limits s2 used dcols s3,
    let initial := (100000 + (5000000 - 100000) * unif (S s1))%Q in
    default_stage unif date_range _id fdd s = Ok ((dcol, fdd'), s1) ∧
    sec ∈ ["A"; "B"; "C"; "D"]%string ∧
    credit_limit_path unif date_range initial (S (S s1)) = Ok (limits, s2) ∧
    length limits = L ∧
    used_amount_stage unif gauss np_sqrt date_range initial limits s2
      = Ok (used, (S s2 + L)%nat) ∧
    length used = L ∧
    dummy_stage gauss date_range nd features (S s2 + L)%nat = Ok (dcols, s3) ∧
    is_Some (fdd' !! _id) ∧
    gen_id unif gauss np_sqrt date_range nd _id fdd s
      = Ok ((match fdd' !! _id with
             | Some (Some T) =>
                 nullify (raw_frame date_range _id dcol sec limits used dcols) T
             | _ => raw_frame date_range _id dcol sec limits used dcols
             end, fdd'), s3).
Proof.
  intros HL Hnd. unfold gen_id.
  destruct (default_stage_run unif date_range unif_range _id fdd s HL)
    as (dcol & fdd' & s1 & Hdef & Hout).
  rewrite M_bind_run, Hdef. cbv beta iota.
  destruct (choice_run unif unif_range ["A"; "B"; "C"; "D"]%string s1)
    as (sec & Hsec & Hin); [done|].
  rewrite M_bind_run, Hsec.
  rewrite M_bind_run, uniform_run.
  set (initial := (100000 + (5000000 - 100000) * unif (S s1))%Q).
  destruct (credit_limit_path_run unif date_range unif_range (S s1) HL)
    as (limits & s2 & Hpath & Hlen & Hpos & _).
  rewrite M_bind_run, uniform_run in Hpath. fold initial in Hpath.
  rewrite M_bind_run, Hpath.
  rewrite M_bind_run, assign_column_run by done.
  destruct (used_amount_stage_run unif gauss np_sqrt date_range initial limits
              s2 Hpos Hlen) as (used & Hused & Hulen & Hbound).
  rewrite M_bind_run, Hused.
  rewrite M_bind_run, assign_column_run by done.
  destruct (dummy_stage_run gauss date_range nd features (S s2 + L)%nat Hnd)
    as (dcols & s3 & Hdum & Hcols).
  rewrite M_bind_run. fold features. rewrite Hdum.
  rewrite M_bind_run. unfold nullify_stage.
  exists dcol, fdd', s1, sec, limits, s2, used, dcols, s3. cbv zeta.
  fold initial.
  pose proof (default_outcome_entry _ _ _ _ _ Hout) as Hentry.
  repeat (split; [done|]).
  destruct Hentry as [[T|] HT]; rewrite HT; reflexivity.
Qed.

(** *** The credit limit path *)

Lemma py_truediv_run a b s :
  py_truediv a b s = if Qeq_dec b 0 then Raise ZeroDivisionError else Ok ((a / b)%Q, s).
Proof. unfold py_truediv. by destruct (Qeq_dec b 0). Qed.

Lemma credit_limit_loop_steps n : ∀ cur s limits s',
  credit_limit_loop unif date_range n cur s = Ok (limits, s') →
  (10000 <= cur)%Q →
  Forall (λ x, (10000 <= x)%Q) limits ∧
  ∀ i a b, (cur :: limits) !! i = Some a → (cur :: limits) !! S i = Some b →
           ∃ q, b = weekly_limit unif L q a.
Proof.
  induction n as [|n IH]; intros cur s limits s' Hrun Hcur.
  { injection Hrun as <- <-. split; [constructor|]. by intros [|i] a b ? ?. }
  cbn [credit_limit_loop] in Hrun.
  rewrite M_bind_run in Hrun. unfold rand at 1 in Hrun. cbv beta iota in Hrun.
  rewrite M_bind_run, py_truediv_run in Hrun.
  destruct (Qeq_dec _ 0); [done|]. cbv beta iota in Hrun.
  rewrite M_bind_run in Hrun.
  match type of Hrun with
  | match ?t with _ => _ end = _ =>
      assert (Hnew : ∃ s1,
        t = Ok (weekly_limit unif L s cur, s1) ∧
        (10000 <= weekly_limit unif L s cur)%Q)
  end.
  { unfold weekly_limit. destruct (Qlt_le_dec (unif s) _).
    - rewrite M_bind_run, uniform_run. cbv beta iota zeta.
      rewrite M_bind_run. unfold rand at 1. cbv beta iota.
      eexists. split; [reflexivity|]. apply py_max_ge_l.
    - eexists. split; [reflexivity|done]. }
  destruct Hnew as (s1 & Hnew & Hge). rewrite Hnew in Hrun.
  rewrite M_bind_run in Hrun.
  destruct (credit_limit_loop unif date_range n _ s1) as [[rest s2]|e] eqn:Hrest;
    [|done].
  injection Hrun as <- <-.
  destruct (IH _ s1 rest s2 Hrest Hge) as [Hall Hsteps].
  split; [by constructor|].
  intros [|i] a b Ha Hb.
  - injection Ha as <-. injection Hb as <-. by exists s.
  - by apply (Hsteps i).
Qed.

Lemma nullify_column_present {A} dates T (col : list (option A)) i c :
  nullify_column dates T col !! i = Some (Some c) → col !! i = Some (Some c).
Proof.
  unfold nullify_column. rewrite lookup_zip_with.
  destruct (dates !! i) as [d|]; [|done]. simpl.
  destruct (col !! i) as [x|]; [|done]. simpl.
  by destruct (ts_leb T d).
Qed.

(** *** The used amount *)

Lemma used_amount_loop_walk col std n : ∀ k cur s used s',
  used_amount_loop gauss col std (seq k n) cur s = Ok (used, s') →
  (∀ u limit, used !! 0%nat = Some u → col !! k = Some limit →
     u = py_max 0 (py_min limit cur)) ∧
  (∀ j u v limit,
     used !! j = Some u → used !! S j = Some v →
     col !! (k + S j)%nat = Some limit →
     v = py_max 0 (py_min limit (u + (0 + std * gauss (s + j)%nat))%Q)).
Proof.
  induction n as [|n IH]; intros k cur s used s' Hrun.
  { injection Hrun as <- <-. split; [by intros ? ? ?|by intros ? ? ? ? ?]. }
  cbn [seq used_amount_loop] in Hrun.
  rewrite M_bind_run in Hrun. unfold iloc at 1 in Hrun.
  destruct (col !! k) as [limit|] eqn:Hk; [|done].
  cbn [mret M_ret] in Hrun. cbv beta iota zeta in Hrun.
  rewrite M_bind_run in Hrun. unfold normal at 1 in Hrun.
  cbv beta iota in Hrun. rewrite M_bind_run in Hrun.
  destruct (used_amount_loop gauss col std (seq (S k) n) _ (S s))
    as [[rest s1]|e] eqn:Hrest; [|done].
  injection Hrun as <- <-.
  destruct (IH _ _ _ _ _ Hrest) as [Hfirst Hnext].
  split.
  - intros u limit' [= <-] [= <-]. done.
  - intros [|j] u v limit' Hu Hv Hl.
    + injection Hu as <-. cbn [lookup list_lookup] in Hv.
      replace (k + 1)%nat with (S k) in Hl by lia.
      rewrite (Hfirst v limit' Hv Hl). by rewrite Nat.add_0_r.
    + cbn [lookup list_lookup] in Hu, Hv.
      replace (k + S (S j))%nat with (S k + S j)%nat in Hl by lia.
      rewrite (Hnext j u v limit' Hu Hv Hl).
      by replace (S s + j)%nat with (s + S j)%nat by lia.
Qed.

Lemma used_amount_stage_walk initial col s used s' :
  used_amount_stage unif gauss np_sqrt date_range initial col s = Ok (used, s') →
  ∃ std, (100 <= std)%Q ∧
    (∀ u limit, used !! 0%nat = Some u → col !! 0%nat = Some limit →
       u = py_max 0 (py_min limit (initial / 2))) ∧
    (∀ j u v limit,
       used !! j = Some u → used !! S j = Some v → col !! S j = Some limit →
       v = py_max 0 (py_min limit (u + (0 + std * gauss (S s + j)%nat))%Q)).
Proof.
  unfold used_amount_stage. cbv zeta. rewrite M_bind_run, uniform_run.
  intros Hrun. eexists. split; [apply py_max_ge_l|].
  destruct (used_amount_loop_walk _ _ _ _ _ _ _ _ Hrun) as [Hfirst Hnext].
  split; [exact Hfirst|]. intros j u v limit Hu Hv Hl. by apply Hnext.
Qed.

Lemma credit_limit_path_head initial s limits s' :
  credit_limit_path unif date_range initial s = Ok (limits, s') →
  (10000 <= initial)%Q →
  limits !! 0%nat = Some initial ∧
  Forall (λ x, (10000 <= x)%Q) limits ∧
  ∀ i a b, limits !! i = Some a → limits !! S i = Some b →
           ∃ q, b = weekly_limit unif L q a.
Proof.
  unfold credit_limit_path. rewrite M_bind_run. intros Hrun Hge.
  destruct (credit_limit_loop unif date_range _ initial s)
    as [[rest s1]|e] eqn:Hrest; [|done].
  injection Hrun as <- <-.
  destruct (credit_limit_loop_steps _ _ _ _ _ Hrest Hge) as [Hall Hsteps].
  split; [done|]. split; [by constructor|done].
Qed.

(** *** Regressors of one entity *)

(** A present cell of the frame is the cell of the column before the
    nullification pass. *)
Lemma frame_cells_present _id dcol sec limits used dcols
    (first_default : option (option Timestamp)) :
  let raw := raw_frame date_range _id dcol sec limits used dcols in
  let fr := match first_default with
            | Some (Some T) => nullify raw T
            | _ => raw
            end in
  (∀ i c, fr_credit_limit fr !! i = Some (Some c) → limits !! i = Some c) ∧
  (∀ i u, fr_used_amount fr !! i = Some (Some u) → used !! i = Some u) ∧
  (∀ i x, fr_sector fr !! i = Some (Some x) → x = sec).
Proof.
  intros raw fr.
  assert (Hraw :
    (∀ i c, fr_credit_limit raw !! i = Some (Some c) → limits !! i = Some c) ∧
    (∀ i u, fr_used_amount raw !! i = Some (Some u) → used !! i = Some u) ∧
    (∀ i x, fr_sector raw !! i = Some (Some x) → x = sec)).
  { unfold raw, raw_frame. cbn [fr_credit_limit fr_used_amount fr_sector].
    split; [|split].
    - intros i c. rewrite list_lookup_fmap.
      destruct (limits !! i); simpl; congruence.
    - intros i u. rewrite list_lookup_fmap.
      destruct (used !! i); simpl; congruence.
    - intros i x Hx. apply lookup_replicate in Hx as [Hx _]. congruence. }
  destruct Hraw as (Hc & Hu & Hs).
  destruct first_default as [[T|]|]; [|done..].
  subst fr. cbn [nullify fr_credit_limit fr_used_amount fr_sector].
  split; [|split].
  - intros i c Hi. apply Hc. by eapply nullify_column_present.
  - intros i u Hi. apply Hu. by eapply nullify_column_present.
  - intros i x Hi. apply (Hs i). by eapply nullify_column_present.
Qed.

Lemma initial_credit_limit_range s :
  (100000 <= 100000 + (5000000 - 100000) * unif s)%Q ∧
  (100000 + (5000000 - 100000) * unif s < 5000000)%Q.
Proof. destruct (unif_range s). split; lra. Qed.

(** X1. Every credit limit the generator emits for an entity is at least
    10000, and the limit of the first row lies in [[100000, 5000000)]. *)
Theorem credit_limit_floor nd _id fdd s :
  (0 < L)%nat → has_features nd →
  ∃ fr fdd' s',
    gen_id unif gauss np_sqrt date_range nd _id fdd s = Ok ((fr, fdd'), s') ∧
    (∀ c, fr_credit_limit fr !! 0%nat = Some (Some c) →
          (100000 <= c)%Q ∧ (c < 5000000)%Q) ∧
    (∀ i c, fr_credit_limit fr !! i = Some (Some c) → (10000 <= c)%Q).
Proof.
  intros HL Hnd.
  destruct (gen_id_shape nd _id fdd s HL Hnd)
    as (dcol & fdd' & s1 & sec & limits & s2 & used & dcols & s3 & Hshape).
  cbv zeta in Hshape.
  destruct Hshape as (_ & _ & Hpath & _ & _ & _ & _ & _ & Hrun).
  eexists _, _, _. split; [exact Hrun|].
  destruct (initial_credit_limit_range (S s1)) as [Hlo Hhi].
  destruct (credit_limit_path_head _ _ _ _ Hpath) as (Hhead & Hall & _); [lra|].
  destruct (frame_cells_present _id dcol sec limits used dcols (fdd' !! _id))
    as (Hc & _ & _).
  split.
  - intros c Hcell. apply Hc in Hcell. rewrite Hhead in Hcell.
    injection Hcell as <-. done.
  - intros i c Hcell. apply Hc in Hcell.
    rewrite Forall_lookup in Hall. by apply (Hall i).
Qed.


(** X3. The used amount of an entity's first row is half of its credit
    limit. *)
Theorem used_amount_starts_at_half nd _id fdd s :
  (0 < L)%nat → has_features nd →
  ∃ fr fdd' s',
    gen_id unif gauss np_sqrt date_range nd _id fdd s = Ok ((fr, fdd'), s') ∧
    ∀ u c, fr_used_amount fr !! 0%nat = Some (Some u) →
           fr_credit_limit fr !! 0%nat = Some (Some c) → u = (c / 2)%Q.
Proof.
  intros HL Hnd.
  destruct (gen_id_shape nd _id fdd s HL Hnd)
    as (dcol & fdd' & s1 & sec & limits & s2 & used & dcols & s3 & Hshape).
  cbv zeta in Hshape.
  destruct Hshape as (_ & _ & Hpath & _ & Hused & _ & _ & _ & Hrun).
  eexists _, _, _. split; [exact Hrun|].
  destruct (initial_credit_limit_range (S s1)) as [Hlo Hhi].
  destruct (credit_limit_path_head _ _ _ _ Hpath) as (Hhead & _ & _); [lra|].
  destruct (used_amount_stage_walk _ _ _ _ _ Hused) as (std & _ & Hfirst & _).
  destruct (frame_cells_present _id dcol sec limits used dcols (fdd' !! _id))
    as (Hc & Hu & _).
  intros u c Hucell Hccell. apply Hu in Hucell. apply Hc in Hccell.
  rewrite Hhead in Hccell. injection Hccell as <-.
  rewrite (Hfirst u _ Hucell Hhead).
  revert Hlo. generalize (100000 + (5000000 - 100000) * unif (S s1))%Q.
  intros c Hlo.
  assert (Hhalf : (0 < c / 2)%Q ∧ (c / 2 < c)%Q).
  { split; [apply Qlt_shift_div_l|apply Qlt_shift_div_r]; lra. }
  unfold py_max, py_min.
  destruct (Qlt_le_dec (c / 2) c); [|lra].
  destruct (Qlt_le_dec 0 (c / 2)); [done|lra].
Qed.

(** X4. The used amount is a clipped random walk: the amount of a row is the
    amount of the row before plus one normal draw of standard deviation
    [std >= 100], clipped into [[0, credit_limit]] of the row. *)
Theorem used_amount_clipped_walk nd _id fdd s :
  (0 < L)%nat → has_features nd →
  ∃ fr fdd' s',
    gen_id unif gauss np_sqrt date_range nd _id fdd s = Ok ((fr, fdd'), s') ∧
    ∃ std p, (100 <= std)%Q ∧
      ∀ i u v c,
        fr_used_amount fr !! i = Some (Some u) →
        fr_used_amount fr !! S i = Some (Some v) →
        fr_credit_limit fr !! S i = Some (Some c) →
        v = py_max 0 (py_min c (u + (0 + std * gauss (p + i)%nat))%Q).
Proof.
  intros HL Hnd.
  destruct (gen_id_shape nd _id fdd s HL Hnd)
    as (dcol & fdd' & s1 & sec & limits & s2 & used & dcols & s3 & Hshape).
  cbv zeta in Hshape.
  destruct Hshape as (_ & _ & _ & _ & Hused & _ & _ & _ & Hrun).
  eexists _, _, _. split; [exact Hrun|].
  destruct (used_amount_stage_walk _ _ _ _ _ Hused) as (std & Hstd & _ & Hnext).
  destruct (frame_cells_present _id dcol sec limits used dcols (fdd' !! _id))
    as (Hc & Hu & _).
  exists std, (S s2). split; [done|].
  intros i u v c Hi HSi Hci. apply (Hnext i); [by apply Hu..|by apply Hc].
Qed.

(** X5. An entity has one sector, drawn from A, B, C and D: every row holds
    it, except the rows that the nullification pass blanks. *)
Theorem sector_constant_per_entity nd _id fdd s :
  (0 < L)%nat → has_features nd →
  ∃ fr fdd' s',
    gen_id unif gauss np_sqrt date_range nd _id fdd s = Ok ((fr, fdd'), s') ∧
    ∃ sec, sec ∈ ["A"; "B"; "C"; "D"]%string ∧
      ∀ i d, date_range !! i = Some d →
        fr_sector fr !! i
        = Some (if nullified (fdd' !! _id) d then None else Some sec).
Proof.
  intros HL Hnd.
  destruct (gen_id_shape nd _id fdd s HL Hnd)
    as (dcol & fdd' & s1 & sec & limits & s2 & used & dcols & s3 & Hshape).
  cbv zeta in Hshape.
  destruct Hshape as (_ & Hsec & _ & _ & _ & _ & _ & _ & Hrun).
  eexists _, _, _. split; [exact Hrun|].
  exists sec. split; [done|].
  intros i d Hd.
  assert (Hraw : fr_sector (raw_frame date_range _id dcol sec limits used dcols) !! i
                 = Some (Some sec)).
  { cbn [raw_frame fr_sector]. apply lookup_replicate_2.
    by apply lookup_lt_Some in Hd. }
  destruct (fdd' !! _id) as [[T|]|]; cbn [nullified]; [|done..].
  cbn [nullify fr_sector].
  by rewrite (nullify_column_lookup _ _ _ i d (Some sec)).
Qed.

End GeneratorShape.

(** ** The whole run *)

Section GeneratorRun.

Variable unif : nat → Q.
Variable gauss : nat → Q.
Variable np_sqrt : Q → Q.
Variable date_range : list Timestamp.

Local Abbreviation L := (no_obs_per_id date_range).
Local Abbreviation default_outcome := (default_outcome date_range).
Local Abbreviation entity_frame := (entity_frame gauss date_range).

Hypothesis unif_range : unit_interval unif.

Lemma default_outcome_insert _id fdd col fdd' :
  default_outcome _id fdd col fdd' →
  ∃ x, fdd' = <[_id := x]> fdd ∧
       (∀ T, x = Some T → T ∈ date_range) ∧
       col = (λ d, if nullified (Some x) d then 1 else 0) <$> date_range.
Proof.
  destruct 1 as [idx T Hidx HT|].
  - exists (Some T). split; [done|]. split; [|done].
    intros ? [= <-]. by eapply list_elem_of_lookup_2.
  - exists None. split; [done|]. split; [done|].
    symmetry. by apply const_fmap.
Qed.

Lemma entity_frame_id nd _id fdd fr fdd' :
  entity_frame nd _id fdd fr fdd' → fr_id fr = _id.
Proof. destruct 1. by repeat case_match. Qed.

(** The rows that an entity contributes to [final_df]. *)
Lemma entity_row nd _id fdd fr fdd' r :
  entity_frame nd _id fdd fr fdd' → r ∈ frame_rows fr →
  ∃ i d sec c u,
    date_range !! i = Some d ∧ id r = _id ∧ date r = d ∧
    default_ind r = (if nullified (fdd' !! _id) d then 1 else 0) ∧
    sector r = (if nullified (fdd' !! _id) d then None else Some sec) ∧
    credit_limit r = (if nullified (fdd' !! _id) d then None else Some c) ∧
    used_amount r = (if nullified (fdd' !! _id) d then None else Some u) ∧
    (0 <= u)%Q ∧ (u <= c)%Q ∧
    (dummies r).*1 = dummy_name <$> features ∧
    Forall (λ c : string * option Q,
              ∃ x, c.2 = if nullified (fdd' !! _id) d then None else Some x)
      (dummies r) ∧
    labels r = [].
Proof.
  intros Hfr Hr. unfold frame_rows in Hr.
  apply elem_of_lookup_imap in Hr as (i & d & -> & Hd).
  rewrite (entity_frame_date _ _ _ _ _ _ _ Hfr) in Hd.
  destruct (entity_frame_cells _ _ _ _ _ _ _ i d Hfr Hd)
    as (sec & c & u & Hsec & Hc & Hu & [Hu0 Huc] & Hnames & Hcells).
  exists i, d, sec, c, u. cbn [id date default_ind sector credit_limit
    used_amount dummies labels].
  rewrite Hsec, Hc, Hu. cbn [mjoin option_join].
  split; [done|]. split; [by eapply entity_frame_id|]. split; [done|].
  split.
  { apply entity_frame_default_ind, default_outcome_insert in Hfr
      as (x & -> & _ & ->).
    by rewrite lookup_insert_eq, list_lookup_fmap, Hd. }
  do 5 (split; [done|]).
  split; [|split; [|done]].
  - rewrite <- Hnames. rewrite <- !list_fmap_compose. by apply list_fmap_ext.
  - rewrite Forall_fmap. eapply Forall_impl; [exact Hcells|].
    intros col [x Hx]. exists x. cbn [snd]. by rewrite Hx.
Qed.

Lemma id_loop_shape nd ids : ∀ fdd s,
  (0 < L)%nat → has_features nd → NoDup ids →
  ∃ frames fdd' s',
    id_loop unif gauss np_sqrt date_range nd ids fdd s = Ok ((frames, fdd'), s') ∧
    dom fdd' = dom fdd ∪ list_to_set ids ∧
    (∀ k, k ∉ ids → fdd' !! k = fdd !! k) ∧
    (∀ k T, fdd' !! k = Some (Some T) → k ∈ ids → T ∈ date_range) ∧
    Forall2 (λ _id fr, ∃ fdd0 fdd1,
               entity_frame nd _id fdd0 fr fdd1 ∧ fdd1 !! _id = fdd' !! _id)
      ids frames.
Proof.
  induction ids as [|_id ids IH]; intros fdd s HL Hnd Hnodup.
  { exists [], fdd, s. split; [done|]. split; [set_solver|].
    split; [done|]. split; [|constructor]. intros ? ? _ Hk. by apply elem_of_nil in Hk. }
  apply NoDup_cons in Hnodup as [Hfresh Hnodup].
  destruct (gen_id_run unif gauss np_sqrt date_range unif_range nd _id fdd s HL Hnd)
    as (fr & fdd1 & s1 & Hrun & Hfr).
  destruct (IH fdd1 s1 HL Hnd Hnodup)
    as (frames & fdd2 & s2 & Hloop & Hdom & Hkeep & Hdates & Hall).
  cbn [id_loop]. rewrite M_bind_run, Hrun. cbv beta iota.
  rewrite M_bind_run, Hloop. eexists _, _, _. split; [reflexivity|].
  pose proof Hfr as Hout.
  apply entity_frame_default_ind, default_outcome_insert in Hout
    as (x & Hfdd1 & Hgrid & _).
  split; [|split; [|split]].
  - rewrite Hdom, Hfdd1, dom_insert_L. set_solver.
  - intros k Hk. apply not_elem_of_cons in Hk as [Hne Hk].
    rewrite (Hkeep k Hk), Hfdd1. by apply lookup_insert_ne.
  - intros k T HT Hk. apply elem_of_cons in Hk as [->|Hk]; [|by eapply Hdates].
    rewrite (Hkeep _ Hfresh), Hfdd1, lookup_insert_eq in HT.
    injection HT as ->. by apply Hgrid.
  - constructor; [|done]. exists fdd, fdd1. split; [done|].
    by rewrite (Hkeep _ Hfresh).
Qed.

Lemma generate_shape N s :
  (0 < L)%nat → (0 < N)%nat →
  ∃ nd final frames fdd s',
    generate unif gauss np_sqrt date_range N s
      = Ok ((final, frames, fdd), s') ∧
    final = mjoin (frame_rows <$> frames) ∧
    dom fdd = list_to_set (id_name <$> seq 0 N) ∧
    (∀ k T, fdd !! k = Some (Some T) → T ∈ date_range) ∧
    Forall2 (λ _id fr, ∃ fdd0 fdd1,
               entity_frame nd _id fdd0 fr fdd1 ∧ fdd1 !! _id = fdd !! _id)
      (id_name <$> seq 0 N) frames.
Proof.
  intros HL HN. unfold generate.
  destruct (draw_n_dummies_run unif features s) as (nd & Hnd & Hkeys & _).
  destruct (id_loop_shape nd (id_name <$> seq 0 N) ∅ (s + length features)%nat
              HL Hkeys (id_names_NoDup N))
    as (frames & fdd & s' & Hloop & Hdom & _ & Hdates & Hall).
  fold features. rewrite M_bind_run, Hnd, M_bind_run, Hloop. cbv beta iota.
  assert (Hne : frames ≠ []).
  { intros ->. apply Forall2_length in Hall.
    rewrite length_fmap, length_seq in Hall. simpl in Hall. lia. }
  rewrite M_bind_run. unfold pd_concat. destruct frames as [|fr frames]; [done|].
  exists nd. eexists _, _, _, _. split; [reflexivity|].
  split; [reflexivity|]. split; [rewrite Hdom; set_solver|].
  split; [|exact Hall].
  intros k T HT. apply (Hdates k T HT).
  apply elem_of_dom_2 in HT. rewrite Hdom in HT. set_solver.
Qed.

Lemma filter_none {A} (f : A → bool) l :
  (∀ x, x ∈ l → f x = false) → List.filter f l = [].
Proof.
  induction l as [|x l IH]; intros Hf; [done|]. simpl.
  rewrite (Hf x) by left. apply IH. intros y Hy. apply Hf. by right.
Qed.

Lemma elem_of_filter {A} (f : A → bool) l x :
  x ∈ List.filter f l ↔ x ∈ l ∧ f x = true.
Proof. by rewrite !list_elem_of_In, filter_In. Qed.

(** What a run leaves in [final_df] and [first_default_dates]. *)
Lemma final_row nd ids frames (fdd : gmap string (option Timestamp)) r :
  Forall2 (λ _id fr, ∃ fdd0 fdd1,
             entity_frame nd _id fdd0 fr fdd1 ∧ fdd1 !! _id = fdd !! _id)
    ids frames →
  r ∈ mjoin (frame_rows <$> frames) →
  ∃ d sec c u,
    id r ∈ ids ∧ date r = d ∧ d ∈ date_range ∧
    default_ind r = (if nullified (fdd !! id r) d then 1 else 0) ∧
    sector r = (if nullified (fdd !! id r) d then None else Some sec) ∧
    credit_limit r = (if nullified (fdd !! id r) d then None else Some c) ∧
    used_amount r = (if nullified (fdd !! id r) d then None else Some u) ∧
    (0 <= u)%Q ∧ (u <= c)%Q ∧
    (dummies r).*1 = dummy_name <$> features ∧
    Forall (λ c : string * option Q,
              ∃ x, c.2 = if nullified (fdd !! id r) d then None else Some x)
      (dummies r) ∧
    labels r = [].
Proof.
  intros Hall Hr. apply list_elem_of_join in Hr as (rows & Hr & Hrows).
  apply list_elem_of_fmap in Hrows as (fr & -> & Hfr).
  apply list_elem_of_lookup in Hfr as [e He].
  destruct (Forall2_lookup_r _ _ _ _ _ Hall He) as (_id & Hid & fdd0 & fdd1 & Hframe & Hdict).
  destruct (entity_row _ _ _ _ _ _ Hframe Hr)
    as (i & d & sec & c & u & Hd & Hrid & Hdate & Hrest).
  exists d, sec, c, u. rewrite Hrid, <- Hdict.
  split; [by eapply list_elem_of_lookup_2|]. split; [done|].
  split; [by eapply list_elem_of_lookup_2|]. exact Hrest.
Qed.

(** X7. After a run [first_default_dates] has an entry for every generated
    identifier and for nothing else, and the date of a defaulted entity is a
    date of the grid. *)
Theorem first_default_dates_entries N s :
  (0 < L)%nat → (0 < N)%nat →
  ∃ final frames fdd s',
    generate unif gauss np_sqrt date_range N s
      = Ok ((final, frames, fdd), s') ∧
    (∀ k, is_Some (fdd !! k) ↔ k ∈ id_name <$> seq 0 N) ∧
    (∀ k T, fdd !! k = Some (Some T) → T ∈ date_range).
Proof.
  intros HL HN.
  destruct (generate_shape N s HL HN)
    as (nd & final & frames & fdd & s' & Hrun & _ & Hdom & Hdates & _).
  exists final, frames, fdd, s'. split; [done|]. split; [|done].
  intros k. rewrite <- elem_of_dom, Hdom. set_solver.
Qed.

Lemma key_frame_rows fr :
  key <$> frame_rows fr = (λ d, (fr_id fr, d)) <$> fr_date fr.
Proof.
  unfold frame_rows. rewrite fmap_imap.
  rewrite <- (imap_const (λ d, (fr_id fr, d))). by apply imap_ext.
Qed.

Lemma final_keys nd (fdd : gmap string (option Timestamp)) ids frames :
  Forall2 (λ _id fr, ∃ fdd0 fdd1,
             entity_frame nd _id fdd0 fr fdd1 ∧ fdd1 !! _id = fdd !! _id)
    ids frames →
  key <$> mjoin (frame_rows <$> frames)
  = mjoin ((λ _id, (λ d, (_id, d)) <$> date_range) <$> ids).
Proof.
  induction 1 as [|_id fr ids frames Hfr Hall IH]; [done|].
  rewrite !fmap_cons. cbn [mjoin list_join]. rewrite fmap_app, key_frame_rows.
  destruct Hfr as (fdd0 & fdd1 & Hfr & _).
  rewrite (entity_frame_id _ _ _ _ _ Hfr), (entity_frame_date _ _ _ _ _ _ _ Hfr).
  f_equal. exact IH.
Qed.

(** X8. The panel is balanced: [final_df] holds, entity after entity in the
    order of the identifiers, one row for every date of the grid, in the
    order of the grid. *)
Theorem panel_is_balanced N s :
  (0 < L)%nat → (0 < N)%nat →
  ∃ final frames fdd s',
    generate unif gauss np_sqrt date_range N s
      = Ok ((final, frames, fdd), s') ∧
    key <$> final
    = mjoin ((λ _id, (λ d, (_id, d)) <$> date_range) <$> (id_name <$> seq 0 N)).
Proof.
  intros HL HN.
  destruct (generate_shape N s HL HN)
    as (nd & final & frames & fdd & s' & Hrun & -> & _ & _ & Hall).
  exists (mjoin (frame_rows <$> frames)), frames, fdd, s'. split; [done|].
  by eapply final_keys.
Qed.

(** X9. The check at the end of the script finds nothing: no row of
    [final_df] has both amounts present and a used amount above the credit
    limit. *)
Theorem no_usage_issue N s :
  (0 < L)%nat → (0 < N)%nat →
  ∃ final frames fdd s',
    generate unif gauss np_sqrt date_range N s
      = Ok ((final, frames, fdd), s') ∧
    Checks.issues final = [].
Proof.
  intros HL HN.
  destruct (generate_shape N s HL HN)
    as (nd & final & frames & fdd & s' & Hrun & -> & _ & _ & Hall).
  eexists _, frames, fdd, s'. split; [done|].
  apply filter_none. intros r Hr.
  destruct (final_row _ _ _ _ _ Hall Hr)
    as (d & sec & c & u & _ & _ & _ & _ & _ & -> & -> & _ & Huc & _).
  destruct (nullified _ d); [done|].
  destruct (Qlt_le_dec c u); [lra|done].
Qed.

Lemma final_row_exists nd (fdd : gmap string (option Timestamp)) ids frames k d :
  Forall2 (λ _id fr, ∃ fdd0 fdd1,
             entity_frame nd _id fdd0 fr fdd1 ∧ fdd1 !! _id = fdd !! _id)
    ids frames →
  k ∈ ids → d ∈ date_range →
  ∃ r, r ∈ mjoin (frame_rows <$> frames) ∧ id r = k ∧ date r = d.
Proof.
  intros Hall Hk Hd.
  assert (Hkey : (k, d) ∈ key <$> mjoin (frame_rows <$> frames)).
  { rewrite (final_keys _ _ _ _ Hall). apply list_elem_of_join.
    eexists. split; [|apply list_elem_of_fmap; eauto].
    apply list_elem_of_fmap. eauto. }
  apply list_elem_of_fmap in Hkey as (r & Hr & Hin).
  exists r. unfold key in Hr. split; [done|]. by injection Hr as <- <-.
Qed.

(** X10. The check on the default indicator holds for every defaulted entity:
    its rows dated at or after the first-default date, of which there is at
    least one, all have [default_ind = 1], and its rows dated before all have
    [default_ind = 0]. *)
Theorem default_rows_flagged N s :
  (0 < L)%nat → (0 < N)%nat →
  ∃ final frames fdd s',
    generate unif gauss np_sqrt date_range N s
      = Ok ((final, frames, fdd), s') ∧
    ∀ k T, fdd !! k = Some (Some T) →
      Checks.default_rows final k T ≠ [] ∧
      Forall (λ r, default_ind r = 1) (Checks.default_rows final k T) ∧
      Forall (λ r, default_ind r = 0) (Checks.pre_default_rows final k T).
Proof.
  intros HL HN.
  destruct (generate_shape N s HL HN)
    as (nd & final & frames & fdd & s' & Hrun & -> & Hdom & Hdates & Hall).
  eexists _, frames, fdd, s'. split; [done|].
  intros k T HT. split; [|split].
  - assert (Hk : k ∈ id_name <$> seq 0 N).
    { apply elem_of_dom_2 in HT. rewrite Hdom in HT. set_solver. }
    destruct (final_row_exists _ _ _ _ k T Hall Hk (Hdates k T HT))
      as (r & Hr & Hid & Hdate).
    intros Hnil.
    assert (Hin : r ∈ Checks.default_rows (mjoin (frame_rows <$> frames)) k T).
    { apply elem_of_filter. split; [done|].
      rewrite Hid, Hdate, ts_leb_refl. by rewrite bool_decide_eq_true_2. }
    rewrite Hnil in Hin. by apply elem_of_nil in Hin.
  - apply Forall_forall. intros r Hr.
    apply elem_of_filter in Hr as [Hr Hsel].
    apply andb_true_iff in Hsel as [Hid%bool_decide_eq_true Hge].
    destruct (final_row _ _ _ _ _ Hall Hr) as (d & ? & ? & ? & _ & <- & _ & -> & _).
    rewrite Hid, HT. cbn [nullified]. by rewrite Hge.
  - apply Forall_forall. intros r Hr.
    apply elem_of_filter in Hr as [Hr Hsel].
    apply andb_true_iff in Hsel as [Hid%bool_decide_eq_true Hlt].
    destruct (final_row _ _ _ _ _ Hall Hr) as (d & ? & ? & ? & _ & <- & _ & -> & _).
    rewrite Hid, HT. cbn [nullified].
    rewrite ts_ltb_nleb in Hlt. apply negb_true_iff in Hlt. by rewrite Hlt.
Qed.

Lemma isna_sum_blank (r : Row) :
  sector r = None → credit_limit r = None → used_amount r = None →
  Forall (λ c : string * option Q, c.2 = None) (dummies r) → labels r = [] →
  Checks.isna_sum r = length (Checks.nullified_cols r).
Proof.
  intros Hs Hc Hu Hd Hl.
  unfold Checks.isna_sum, Checks.nullified_cols, Checks.nullified_cells_isna.
  rewrite Hs, Hc, Hu, Hl. cbn [Checks.isna fmap list_fmap app List.filter length].
  rewrite !app_nil_r, length_fmap. f_equal. f_equal. f_equal.
  induction Hd as [|c l Hcell Hd IH]; [done|].
  cbn [fmap list_fmap List.filter]. rewrite Hcell. cbn [Checks.isna length].
  f_equal. exact IH.
Qed.

Lemma isna_sum_full (r : Row) sec c u :
  sector r = Some sec → credit_limit r = Some c → used_amount r = Some u →
  Forall (λ c : string * option Q, ∃ x, c.2 = Some x) (dummies r) →
  labels r = [] →
  Checks.isna_sum r = 0%nat.
Proof.
  intros Hs Hc Hu Hd Hl.
  unfold Checks.isna_sum, Checks.nullified_cells_isna.
  rewrite Hs, Hc, Hu, Hl. cbn [Checks.isna fmap list_fmap app List.filter].
  rewrite app_nil_r.
  induction Hd as [|cell l [x Hcell] Hd IH]; [done|].
  cbn [fmap list_fmap List.filter]. rewrite Hcell. cbn [Checks.isna]. exact IH.
Qed.

(** X11. The check on the nullification holds for every defaulted entity:
    each of its rows dated at or after the first-default date has a NaN in
    every one of the 8 columns of [nullified_cols], and each of its rows
    dated before has none. *)
Theorem default_rows_blank N s :
  (0 < L)%nat → (0 < N)%nat →
  ∃ final frames fdd s',
    generate unif gauss np_sqrt date_range N s
      = Ok ((final, frames, fdd), s') ∧
    ∀ k T, fdd !! k = Some (Some T) →
      Forall (λ r, length (Checks.nullified_cols r) = 8%nat ∧
                   Checks.isna_sum r = length (Checks.nullified_cols r))
        (Checks.default_rows final k T) ∧
      Forall (λ r, Checks.isna_sum r = 0%nat) (Checks.pre_default_rows final k T).
Proof.
  intros HL HN.
  destruct (generate_shape N s HL HN)
    as (nd & final & frames & fdd & s' & Hrun & -> & Hdom & Hdates & Hall).
  eexists _, frames, fdd, s'. split; [done|].
  intros k T HT. split.
  - apply Forall_forall. intros r Hr.
    apply elem_of_filter in Hr as [Hr Hsel].
    apply andb_true_iff in Hsel as [Hid%bool_decide_eq_true Hge].
    destruct (final_row _ _ _ _ _ Hall Hr)
      as (d & sec & c & u & _ & <- & _ & _ & Hs & Hc & Hu & _ & _ & Hn & Hd & Hl).
    rewrite Hid, HT in Hs, Hc, Hu, Hd. cbn [nullified] in *.
    rewrite Hge in *. split.
    + unfold Checks.nullified_cols. rewrite Hn, Hl. done.
    + apply isna_sum_blank; try done.
      eapply Forall_impl; [exact Hd|]. by intros cell [x Hx].
  - apply Forall_forall. intros r Hr.
    apply elem_of_filter in Hr as [Hr Hsel].
    apply andb_true_iff in Hsel as [Hid%bool_decide_eq_true Hlt].
    destruct (final_row _ _ _ _ _ Hall Hr)
      as (d & sec & c & u & _ & <- & _ & _ & Hs & Hc & Hu & _ & _ & Hn & Hd & Hl).
    rewrite Hid, HT in Hs, Hc, Hu, Hd. cbn [nullified] in *.
    rewrite ts_ltb_nleb in Hlt. apply negb_true_iff in Hlt. rewrite Hlt in *.
    by eapply isna_sum_full.
Qed.

End GeneratorRun.

(** ** The label deriver, continued *)

Section DataprepMore.

Lemma labelled_row_full df cutoff r :
  r ∈ labelled df cutoff →
  ∃ r0, r0 ∈ df ∧ in_scope cutoff r0 = true ∧
        r = with_flags (norm_row <$> df) (normalize cutoff) (norm_row r0).
Proof.
  rewrite labelled_eq. intros (r0 & -> & Hr0)%list_elem_of_fmap.
  apply elem_of_filter in Hr0 as [Hr0 Hs]. by exists r0.
Qed.

(** X12. The labels are set at entity level: two output rows of the same
    entity carry the same three appended labels. *)
Theorem labels_at_entity_level (h : store) df_loc df cutoff :
  h !! df_loc = Some df →
  ∃ out h' rows,
    build_default_flags df_loc cutoff h = Some (out, h') ∧
    h' !! out = Some rows ∧
    ∀ r1 r2, r1 ∈ rows → r2 ∈ rows → id r1 = id r2 →
      ∃ a b v1 v2 v3,
        a ∈ df ∧ b ∈ df ∧
        labels r1 = labels a ++ appended_labels v1 v2 v3 ∧
        labels r2 = labels b ++ appended_labels v1 v2 v3.
Proof.
  intros Hdf.
  destruct (build_default_flags_run h df_loc df cutoff Hdf)
    as (out & h' & Hrun & Hout & _ & _).
  exists out, h', (labelled df cutoff). split; [done|]. split; [done|].
  intros r1 r2 Hr1 Hr2 Hid.
  destruct (labelled_row df cutoff r1 Hr1) as (a & Ha & _ & Hl1).
  destruct (labelled_row df cutoff r2 Hr2) as (b & Hb & _ & Hl2).
  rewrite <- Hid in Hl2. eauto 10.
Qed.

(** X13. On a panel without columns named [def_ind_1m], [def_ind_2m] or
    [def_ind_3m], the deriver changes nothing but the date and the labels:
    its output has, in order, one row for each input row dated at or before
    the cutoff, which is that row with its date set to midnight of the same
    day and three labels appended after the labels it had. *)
Theorem other_columns_kept (h : store) df_loc df cutoff :
  h !! df_loc = Some df → no_label_clash df →
  ∃ out h' rows,
    build_default_flags df_loc cutoff h = Some (out, h') ∧
    h' !! out = Some rows ∧
    Forall2 (λ r0 r,
        ∃ v1 v2 v3,
          r = {| id := id r0;
                 date := mkTs (year (date r0)) (month (date r0)) (day (date r0)) 0;
                 default_ind := default_ind r0;
                 sector := sector r0;
                 credit_limit := credit_limit r0;
                 used_amount := used_amount r0;
                 dummies := dummies r0;
                 labels := labels r0 ++ appended_labels v1 v2 v3 |})
      (List.filter (in_scope cutoff) df) rows.
Proof.
  intros Hdf _.
  destruct (build_default_flags_run h df_loc df cutoff Hdf)
    as (out & h' & Hrun & Hout & _ & _).
  exists out, h', (labelled df cutoff). split; [done|]. split; [done|].
  rewrite labelled_eq. apply Forall2_fmap_r, Forall_Forall2_diag.
  apply Forall_forall. intros r0 _. eexists _, _, _.
  unfold with_flags, add_flag, add_label, norm_row, set_date, normalize.
  cbn [id date default_ind sector credit_limit used_amount dummies labels].
  rewrite <- !app_assoc. reflexivity.
Qed.

Lemma flag_window_max df cutoff n i :
  window_max df cutoff n i (flag (norm_row <$> df) (normalize cutoff) n i).
Proof.
  unfold flag.
  destruct (groupby_max _ !! i) as [v|] eqn:Hv; simpl.
  - right. apply groupby_max_Some in Hv as [(r & Hr & Hid & Hdef) Hmax].
    apply elem_of_window in Hr as (r0 & Hr0 & -> & Hw).
    split; [by exists r0|].
    intros r' Hr' Hid' Hw'.
    apply (Hmax (norm_row r')); [|done].
    apply elem_of_window. by exists r'.
  - left. split; [done|]. rewrite groupby_max_None in Hv.
    intros r Hr Hid. destruct (in_window cutoff n r) eqn:Hw; [|done].
    destruct (Hv (norm_row r)); [|done].
    apply elem_of_window. by exists r.
Qed.

(** X14. Whatever integers the default indicator holds, each appended label
    is the maximum of [default_ind] over the rows of the entity that fall in
    the window of its horizon, and 0 when the entity has no row there. *)
Theorem label_is_window_maximum (h : store) df_loc df cutoff :
  h !! df_loc = Some df →
  ∃ out h' rows,
    build_default_flags df_loc cutoff h = Some (out, h') ∧
    h' !! out = Some rows ∧
    ∀ r, r ∈ rows →
      ∃ r0 v1 v2 v3,
        r0 ∈ df ∧ labels r = labels r0 ++ appended_labels v1 v2 v3 ∧
        window_max df cutoff 1 (id r) v1 ∧
        window_max df cutoff 2 (id r) v2 ∧
        window_max df cutoff 3 (id r) v3.
Proof.
  intros Hdf.
  destruct (build_default_flags_run h df_loc df cutoff Hdf)
    as (out & h' & Hrun & Hout & _ & _).
  exists out, h', (labelled df cutoff). split; [done|]. split; [done|].
  intros r Hr. destruct (labelled_row df cutoff r Hr) as (r0 & Hr0 & Hid & Hl).
  eexists r0, _, _, _. split; [done|]. split; [exact Hl|].
  repeat split; apply flag_window_max.
Qed.

Lemma in_scope_not_in_window cutoff n r :
  in_scope cutoff r = true → in_window cutoff n r = false.
Proof.
  unfold in_scope, in_window. intros Hs.
  by rewrite ts_ltb_nleb, Hs.
Qed.

Lemma filter_all {A} (f : A → bool) l :
  (∀ x, x ∈ l → f x = true) → List.filter f l = l.
Proof.
  induction l as [|x l IH]; intros Hf; [done|]. simpl.
  rewrite (Hf x) by left. f_equal. apply IH. intros y Hy. apply Hf. by right.
Qed.

(** X15. When no row of the panel is dated after the cutoff, the deriver
    keeps every row and every label it appends is 0. *)
Theorem cutoff_after_every_row (h : store) df_loc df cutoff :
  h !! df_loc = Some df →
  (∀ r, r ∈ df → in_scope cutoff r = true) →
  ∃ out h' rows,
    build_default_flags df_loc cutoff h = Some (out, h') ∧
    h' !! out = Some rows ∧
    length rows = length df ∧
    ∀ r, r ∈ rows →
      ∃ r0, r0 ∈ df ∧ labels r = labels r0 ++ appended_labels 0 0 0.
Proof.
  intros Hdf Hall.
  destruct (build_default_flags_run h df_loc df cutoff Hdf)
    as (out & h' & Hrun & Hout & _ & _).
  exists out, h', (labelled df cutoff). split; [done|]. split; [done|].
  split.
  - by rewrite labelled_eq, length_fmap, filter_all.
  - intros r Hr. destruct (labelled_row df cutoff r Hr) as (r0 & Hr0 & Hid & Hl).
    exists r0. split; [done|].
    rewrite !flag_no_rows in Hl; [done|..];
      intros r' Hr' _; by apply in_scope_not_in_window, Hall.
Qed.

(** X16. When every row of the panel is dated after the cutoff, the deriver
    returns a table without rows. *)
Theorem cutoff_before_every_row (h : store) df_loc df cutoff :
  h !! df_loc = Some df →
  (∀ r, r ∈ df → in_scope cutoff r = false) →
  ∃ out h',
    build_default_flags df_loc cutoff h = Some (out, h') ∧
    h' !! out = Some [].
Proof.
  intros Hdf Hall.
  destruct (build_default_flags_run h df_loc df cutoff Hdf)
    as (out & h' & Hrun & Hout & _ & _).
  exists out, h'. split; [done|].
  by rewrite Hout, labelled_eq, filter_none.
Qed.

Lemma filter_filter_sub {A} (f g : A → bool) l :
  (∀ x, f x = true → g x = true) →
  List.filter f (List.filter g l) = List.filter f l.
Proof.
  intros Hfg. induction l as [|x l IH]; [done|]. simpl.
  destruct (g x) eqn:Hg; simpl.
  - by rewrite IH.
  - destruct (f x) eqn:Hf; [|done]. apply Hfg in Hf. congruence.
Qed.

Lemma filter_fmap_norm (p : Row → bool) df :
  List.filter p (norm_row <$> df) = norm_row <$> List.filter (λ r, p (norm_row r)) df.
Proof.
  induction df as [|r df IH]; [done|]. cbn [fmap list_fmap List.filter].
  destruct (p (norm_row r)); cbn [fmap list_fmap]; by rewrite IH.
Qed.

Lemma flag_after_cutoff df cutoff n i :
  flag (norm_row <$> df) (normalize cutoff) n i
  = flag (norm_row <$> List.filter (after_cutoff cutoff) df) (normalize cutoff) n i.
Proof.
  unfold flag. do 3 f_equal.
  rewrite !filter_fmap_norm. f_equal.
  symmetry. apply filter_filter_sub.
  intros r Hw. unfold window_mask in Hw. apply andb_true_iff in Hw as [Hw _].
  exact Hw.
Qed.

(** X17. The labels are computed from the rows dated after the cutoff and
    from nothing else: two panels with the same rows after the cutoff give
    every entity the same labels, whatever their rows at or before the
    cutoff hold. *)
Theorem labels_ignore_the_past (h : store) loc1 loc2 df1 df2 cutoff :
  h !! loc1 = Some df1 → h !! loc2 = Some df2 →
  List.filter (after_cutoff cutoff) df1 = List.filter (after_cutoff cutoff) df2 →
  ∃ out1 h1 rows1 out2 h2 rows2,
    build_default_flags loc1 cutoff h = Some (out1, h1) ∧
    h1 !! out1 = Some rows1 ∧
    build_default_flags loc2 cutoff h = Some (out2, h2) ∧
    h2 !! out2 = Some rows2 ∧
    ∀ r1 r2, r1 ∈ rows1 → r2 ∈ rows2 → id r1 = id r2 →
      ∃ a b v1 v2 v3,
        a ∈ df1 ∧ b ∈ df2 ∧
        labels r1 = labels a ++ appended_labels v1 v2 v3 ∧
        labels r2 = labels b ++ appended_labels v1 v2 v3.
Proof.
  intros Hdf1 Hdf2 Hsame.
  destruct (build_default_flags_run h loc1 df1 cutoff Hdf1)
    as (out1 & h1 & Hrun1 & Hout1 & _ & _).
  destruct (build_default_flags_run h loc2 df2 cutoff Hdf2)
    as (out2 & h2 & Hrun2 & Hout2 & _ & _).
  exists out1, h1, (labelled df1 cutoff), out2, h2, (labelled df2 cutoff).
  do 4 (split; [done|]).
  intros r1 r2 Hr1 Hr2 Hid.
  destruct (labelled_row df1 cutoff r1 Hr1) as (a & Ha & _ & Hl1).
  destruct (labelled_row df2 cutoff r2 Hr2) as (b & Hb & _ & Hl2).
  rewrite <- Hid in Hl2.
  rewrite !(flag_after_cutoff df2), <- Hsame, <- !flag_after_cutoff in Hl2.
  eauto 10.
Qed.

End DataprepMore.

(** ** The script from end to end *)

Section Pipeline.

Variable unif : nat → Q.
Variable gauss : nat → Q.
Variable np_sqrt : Q → Q.
Variable date_range : list Timestamp.

Local Abbreviation L := (no_obs_per_id date_range).

Hypothesis unif_range : unit_interval unif.

Lemma normalize_midnight d : time_ns d = 0 → normalize d = d.
Proof. destruct d. simpl. by intros ->. Qed.

(** X18. The labels of the script's output.  On a grid of midnights, the
    deriver applied to [final_df] gives a row of an entity the label 1 for
    horizon N exactly when the grid has a date in the window at or after the
    entity's first default: so an entity that has never defaulted gets 0, and
    one already in default at the cutoff gets 1 when the grid has a date in
    the window. *)
Theorem pipeline_labels N s cutoff :
  (0 < L)%nat → (0 < N)%nat → grid_at_midnight date_range →
  ∃ final frames fdd s',
    generate unif gauss np_sqrt date_range N s
      = Ok ((final, frames, fdd), s') ∧
    ∀ (h : store) df_loc, h !! df_loc = Some final →
      ∃ out h' rows,
        build_default_flags df_loc cutoff h = Some (out, h') ∧
        h' !! out = Some rows ∧
        ∀ r, r ∈ rows →
          ∃ v1 v2 v3,
            labels r = appended_labels v1 v2 v3 ∧
            ∀ n v, (n, v) ∈ [(1%nat, v1); (2%nat, v2); (3%nat, v3)] →
              (v = 1 ∧ in_default_within date_range (fdd !! id r) cutoff n) ∨
              (v = 0 ∧ ¬ in_default_within date_range (fdd !! id r) cutoff n).
Proof.
  intros HL HN Hmid. unfold grid_at_midnight in Hmid.
  rewrite Forall_forall in Hmid.
  destruct (generate_shape unif gauss np_sqrt date_range unif_range N s HL HN)
    as (nd & final & frames & fdd & s' & Hrun & -> & Hdom & Hdates & Hall).
  set (final := mjoin (frame_rows <$> frames)).
  exists final, frames, fdd, s'. split; [done|].
  intros h df_loc Hdf.
  destruct (build_default_flags_run h df_loc final cutoff Hdf)
    as (out & h' & Hflags & Hout & _ & _).
  exists out, h', (labelled final cutoff). split; [done|]. split; [done|].
  assert (Hbin : binary_default_ind final).
  { apply Forall_forall. intros r Hr.
    destruct (final_row gauss date_range _ _ _ _ _ Hall Hr) as (d & ? & ? & ? & _ & _ & _ & -> & _).
    destruct (nullified _ d); auto. }
  assert (Hwithin : ∀ n k, k ∈ id_name <$> seq 0 N →
            defaults_within final cutoff n k
            ↔ in_default_within date_range (fdd !! k) cutoff n).
  { intros n k Hk. split.
    - intros (r & Hr & Hid & Hw & Hdef).
      destruct (final_row gauss date_range _ _ _ _ _ Hall Hr)
        as (d & ? & ? & ? & _ & Hdate & Hd & Hind & _).
      exists d. split; [done|].
      unfold in_window in Hw. rewrite Hdate, (normalize_midnight d) in Hw
        by by apply Hmid.
      split; [exact Hw|]. rewrite Hid in Hind.
      destruct (nullified (fdd !! k) d); [done|]. rewrite Hind in Hdef. done.
    - intros (d & Hd & Hw & Hnull).
      destruct (final_row_exists gauss date_range _ _ _ _ k d Hall Hk Hd) as (r & Hr & Hid & Hdate).
      exists r. split; [done|]. split; [done|].
      unfold in_window. rewrite Hdate, (normalize_midnight d) by by apply Hmid.
      split; [exact Hw|].
      destruct (final_row gauss date_range _ _ _ _ _ Hall Hr)
        as (d' & ? & ? & ? & _ & Hdate' & _ & -> & _).
      rewrite Hid. replace d' with d by congruence. by rewrite Hnull. }
  intros r Hr. destruct (labelled_row final cutoff r Hr) as (r0 & Hr0 & Hid & Hl).
  destruct (final_row gauss date_range _ _ _ _ _ Hall Hr0)
    as (d & ? & ? & ? & Hk & _ & _ & _ & _ & _ & _ & _ & _ & _ & _ & Hnil).
  rewrite Hnil in Hl. eexists _, _, _. split; [exact Hl|].
  rewrite <- Hid in Hk.
  intros n v Hnv.
  assert (Hok : label_ok final cutoff n (id r) v).
  { repeat (apply elem_of_cons in Hnv as [[= -> ->]|Hnv]);
      [by apply flag_label_ok..|by apply elem_of_nil in Hnv]. }
  destruct Hok as [[-> Hin]|[-> Hnot]]; [left|right]; (split; [done|]);
    by rewrite <- Hwithin.
Qed.

End Pipeline.

(** ** The serving image *)

Lemma split_dot_free a : dot_free a → Deploy.split "." a = [a].
Proof.
  unfold dot_free. induction a as [|c a IH]; [done|].
  cbn [String.list_ascii_of_string]. intros [Hc Ha]%Forall_cons.
  cbn [Deploy.split]. apply Ascii.eqb_neq in Hc. rewrite Hc.
  by rewrite (IH Ha).
Qed.

Lemma split_dot_free_app a s :
  dot_free a → Deploy.split "." (a +:+ "." +:+ s) = a :: Deploy.split "." s.
Proof.
  unfold dot_free. induction a as [|c a IH]; [done|].
  cbn [String.list_ascii_of_string]. intros [Hc Ha]%Forall_cons.
  simpl. apply Ascii.eqb_neq in Hc. rewrite Hc.
  by rewrite (IH Ha).
Qed.

Lemma replace_dot_free a : dot_free a → Deploy.replace "." "-" a = a.
Proof.
  unfold dot_free. induction a as [|c a IH]; [done|].
  cbn [String.list_ascii_of_string]. intros [Hc Ha]%Forall_cons.
  cbn [Deploy.replace]. apply Ascii.eqb_neq in Hc. rewrite Hc.
  by rewrite (IH Ha).
Qed.

Lemma replace_app old new a b :
  Deploy.replace old new (a +:+ b)
  = Deploy.replace old new a +:+ Deploy.replace old new b.
Proof. induction a as [|c a IH]; [done|]. simpl. by rewrite IH. Qed.

Lemma string_append_assoc (a b c : string) : (a +:+ b) +:+ c = a +:+ b +:+ c.
Proof.
  induction a as [|x a IH]; [done|].
  change (String x ((a +:+ b) +:+ c) = String x (a +:+ b +:+ c)).
  by rewrite IH.
Qed.

Lemma split_cons sep s : ∃ piece pieces, Deploy.split sep s = piece :: pieces.
Proof.
  induction s as [|c s (piece & pieces & IH)]; [by eexists _, _|].
  cbn [Deploy.split]. destruct (Ascii.eqb c sep); [by eexists _, _|].
  rewrite IH. by eexists _, _.
Qed.

(** X19. The serving image of a scikit-learn version [a.b] or [a.b.rest] is
    [sklearn-cpu.a-b:latest]: major and minor version joined by a dash,
    whatever follows the minor version. *)
Theorem image_of_version a b rest :
  dot_free a → dot_free b →
  Deploy.image (a +:+ "." +:+ b)
  = ("us-docker.pkg.dev/vertex-ai/prediction/sklearn-cpu."
     +:+ a +:+ "-" +:+ b +:+ ":latest")%string ∧
  Deploy.image (a +:+ "." +:+ b +:+ "." +:+ rest)
  = ("us-docker.pkg.dev/vertex-ai/prediction/sklearn-cpu."
     +:+ a +:+ "-" +:+ b +:+ ":latest")%string.
Proof.
  intros Ha Hb.
  assert (Hmm : ∀ pieces,
    Deploy.replace "." "-" (String.concat "." (take 2 (a :: b :: pieces)))
    = (a +:+ "-" +:+ b)%string).
  { intros pieces. change (take 2 (a :: b :: pieces)) with [a; b].
    cbn [String.concat].
    by rewrite !replace_app, (replace_dot_free a Ha), (replace_dot_free b Hb). }
  unfold Deploy.image, Deploy.major_minor. split.
  - rewrite (split_dot_free_app a b Ha), (split_dot_free b Hb), (Hmm []).
    by rewrite !string_append_assoc.
  - rewrite (split_dot_free_app a _ Ha).
    destruct (split_cons "." rest) as (piece & pieces & Hrest).
    rewrite (split_dot_free_app b rest Hb), Hmm.
    by rewrite !string_append_assoc.
Qed.

Lemma image_of_version_witness :
  Deploy.image "1.5" = "us-docker.pkg.dev/vertex-ai/prediction/sklearn-cpu.1-5:latest"%string ∧
  Deploy.image "1.5.1" = "us-docker.pkg.dev/vertex-ai/prediction/sklearn-cpu.1-5:latest"%string.
Proof.
  apply (image_of_version "1" "5" "1"); unfold dot_free; simpl;
    repeat constructor; done.
Defined.

(** ** Sample runs, continued *)

Lemma credit_limit_floor_witness :
  ∃ fr fdd' s',
    gen_id sample_unif zeros sample_sqrt sample_grid sample_n_dummies
      "ID_0001" ∅ 0%nat = Ok ((fr, fdd'), s') ∧
    (∀ c, fr_credit_limit fr !! 0%nat = Some (Some c) →
          (100000 <= c)%Q ∧ (c < 5000000)%Q) ∧
    (∀ i c, fr_credit_limit fr !! i = Some (Some c) → (10000 <= c)%Q).
Proof.
  apply (credit_limit_floor sample_unif zeros sample_sqrt sample_grid
           sample_unif_range sample_n_dummies "ID_0001" ∅ 0%nat).
  - simpl. lia.
  - exact sample_has_features.
Defined.


Lemma used_amount_starts_at_half_witness :
  ∃ fr fdd' s',
    gen_id sample_unif zeros sample_sqrt sample_grid sample_n_dummies
      "ID_0001" ∅ 0%nat = Ok ((fr, fdd'), s') ∧
    ∀ u c, fr_used_amount fr !! 0%nat = Some (Some u) →
           fr_credit_limit fr !! 0%nat = Some (Some c) → u = (c / 2)%Q.
Proof.
  apply (used_amount_starts_at_half sample_unif zeros sample_sqrt sample_grid
           sample_unif_range sample_n_dummies "ID_0001" ∅ 0%nat).
  - simpl. lia.
  - exact sample_has_features.
Defined.

Lemma used_amount_clipped_walk_witness :
  ∃ fr fdd' s',
    gen_id sample_unif zeros sample_sqrt sample_grid sample_n_dummies
      "ID_0001" ∅ 0%nat = Ok ((fr, fdd'), s') ∧
    ∃ std p, (100 <= std)%Q ∧
      ∀ i u v c,
        fr_used_amount fr !! i = Some (Some u) →
        fr_used_amount fr !! S i = Some (Some v) →
        fr_credit_limit fr !! S i = Some (Some c) →
        v = py_max 0 (py_min c (u + (0 + std * zeros (p + i)%nat))%Q).
Proof.
  apply (used_amount_clipped_walk sample_unif zeros sample_sqrt sample_grid
           sample_unif_range sample_n_dummies "ID_0001" ∅ 0%nat).
  - simpl. lia.
  - exact sample_has_features.
Defined.

Lemma sector_constant_per_entity_witness :
  ∃ fr fdd' s',
    gen_id sample_unif zeros sample_sqrt sample_grid sample_n_dummies
      "ID_0001" ∅ 0%nat = Ok ((fr, fdd'), s') ∧
    ∃ sec, sec ∈ ["A"; "B"; "C"; "D"]%string ∧
      ∀ i d, sample_grid !! i = Some d →
        fr_sector fr !! i
        = Some (if nullified (fdd' !! "ID_0001"%string) d then None else Some sec).
Proof.
  apply (sector_constant_per_entity sample_unif zeros sample_sqrt sample_grid
           sample_unif_range sample_n_dummies "ID_0001" ∅ 0%nat).
  - simpl. lia.
  - exact sample_has_features.
Defined.

Lemma first_default_dates_entries_witness :
  ∃ final frames fdd s',
    generate mixed_unif ones sample_sqrt sample_grid 2 0%nat
      = Ok ((final, frames, fdd), s') ∧
    (∀ k, is_Some (fdd !! k) ↔ k ∈ id_name <$> seq 0 2) ∧
    (∀ k T, fdd !! k = Some (Some T) → T ∈ sample_grid).
Proof.
  apply (first_default_dates_entries mixed_unif ones sample_sqrt sample_grid
           mixed_unif_range 2%nat 0%nat); simpl; lia.
Defined.

Lemma panel_is_balanced_witness :
  ∃ final frames fdd s',
    generate mixed_unif ones sample_sqrt sample_grid 2 0%nat
      = Ok ((final, frames, fdd), s') ∧
    key <$> final
    = mjoin ((λ _id, (λ d, (_id, d)) <$> sample_grid) <$> (id_name <$> seq 0 2)).
Proof.
  apply (panel_is_balanced mixed_unif ones sample_sqrt sample_grid
           mixed_unif_range 2%nat 0%nat); simpl; lia.
Defined.

Lemma no_usage_issue_witness :
  ∃ final frames fdd s',
    generate mixed_unif ones sample_sqrt sample_grid 2 0%nat
      = Ok ((final, frames, fdd), s') ∧
    Checks.issues final = [].
Proof.
  apply (no_usage_issue mixed_unif ones sample_sqrt sample_grid
           mixed_unif_range 2%nat 0%nat); simpl; lia.
Defined.

Lemma default_rows_flagged_witness :
  ∃ final frames fdd s',
    generate mixed_unif ones sample_sqrt sample_grid 2 0%nat
      = Ok ((final, frames, fdd), s') ∧
    ∀ k T, fdd !! k = Some (Some T) →
      Checks.default_rows final k T ≠ [] ∧
      Forall (λ r, default_ind r = 1) (Checks.default_rows final k T) ∧
      Forall (λ r, default_ind r = 0) (Checks.pre_default_rows final k T).
Proof.
  apply (default_rows_flagged mixed_unif ones sample_sqrt sample_grid
           mixed_unif_range 2%nat 0%nat); simpl; lia.
Defined.

Lemma default_rows_blank_witness :
  ∃ final frames fdd s',
    generate mixed_unif ones sample_sqrt sample_grid 2 0%nat
      = Ok ((final, frames, fdd), s') ∧
    ∀ k T, fdd !! k = Some (Some T) →
      Forall (λ r, length (Checks.nullified_cols r) = 8%nat ∧
                   Checks.isna_sum r = length (Checks.nullified_cols r))
        (Checks.default_rows final k T) ∧
      Forall (λ r, Checks.isna_sum r = 0%nat) (Checks.pre_default_rows final k T).
Proof.
  apply (default_rows_blank mixed_unif ones sample_sqrt sample_grid
           mixed_unif_range 2%nat 0%nat); simpl; lia.
Defined.

Lemma labels_at_entity_level_witness :
  ∃ out h' rows,
    build_default_flags 1%positive sample_cutoff sample_store = Some (out, h') ∧
    h' !! out = Some rows ∧
    ∀ r1 r2, r1 ∈ rows → r2 ∈ rows → id r1 = id r2 →
      ∃ a b v1 v2 v3,
        a ∈ sample_panel ∧ b ∈ sample_panel ∧
        labels r1 = labels a ++ appended_labels v1 v2 v3 ∧
        labels r2 = labels b ++ appended_labels v1 v2 v3.
Proof.
  apply (labels_at_entity_level sample_store 1%positive sample_panel).
  reflexivity.
Defined.

Lemma sample_panel_no_label_clash : no_label_clash sample_panel.
Proof.
  unfold no_label_clash, sample_panel. simpl.
  repeat (apply Forall_cons_2; [intros n _; apply not_elem_of_nil|]).
  apply Forall_nil_2.
Qed.

Lemma other_columns_kept_witness :
  ∃ out h' rows,
    build_default_flags 1%positive sample_cutoff sample_store = Some (out, h') ∧
    h' !! out = Some rows ∧
    Forall2 (λ r0 r,
        ∃ v1 v2 v3,
          r = {| id := id r0;
                 date := mkTs (year (date r0)) (month (date r0)) (day (date r0)) 0;
                 default_ind := default_ind r0;
                 sector := sector r0;
                 credit_limit := credit_limit r0;
                 used_amount := used_amount r0;
                 dummies := dummies r0;
                 labels := labels r0 ++ appended_labels v1 v2 v3 |})
      (List.filter (in_scope sample_cutoff) sample_panel) rows.
Proof.
  apply (other_columns_kept sample_store 1%positive sample_panel).
  - reflexivity.
  - exact sample_panel_no_label_clash.
Defined.

Lemma label_is_window_maximum_witness :
  ∃ out h' rows,
    build_default_flags 1%positive sample_cutoff sample_store = Some (out, h') ∧
    h' !! out = Some rows ∧
    ∀ r, r ∈ rows →
      ∃ r0 v1 v2 v3,
        r0 ∈ sample_panel ∧ labels r = labels r0 ++ appended_labels v1 v2 v3 ∧
        window_max sample_panel sample_cutoff 1 (id r) v1 ∧
        window_max sample_panel sample_cutoff 2 (id r) v2 ∧
        window_max sample_panel sample_cutoff 3 (id r) v3.
Proof.
  apply (label_is_window_maximum sample_store 1%positive sample_panel).
  reflexivity.
Defined.

Lemma sample_panel_in_scope (cutoff : Timestamp) (b : bool) :
  forallb (λ r, bool_decide (in_scope cutoff r = b)) sample_panel = true →
  ∀ r, r ∈ sample_panel → in_scope cutoff r = b.
Proof.
  intros Hall r Hr. rewrite forallb_forall in Hall.
  apply list_elem_of_In, Hall in Hr. by apply bool_decide_eq_true in Hr.
Qed.

Lemma cutoff_after_every_row_witness :
  ∃ out h' rows,
    build_default_flags 1%positive (mkTs 2024 2 1 0) sample_store
      = Some (out, h') ∧
    h' !! out = Some rows ∧
    length rows = length sample_panel ∧
    ∀ r, r ∈ rows →
      ∃ r0, r0 ∈ sample_panel ∧ labels r = labels r0 ++ appended_labels 0 0 0.
Proof.
  apply (cutoff_after_every_row sample_store 1%positive sample_panel).
  - reflexivity.
  - apply sample_panel_in_scope. vm_compute. reflexivity.
Defined.

Lemma cutoff_before_every_row_witness :
  ∃ out h',
    build_default_flags 1%positive (mkTs 2023 12 1 0) sample_store
      = Some (out, h') ∧
    h' !! out = Some [].
Proof.
  apply (cutoff_before_every_row sample_store 1%positive sample_panel).
  - reflexivity.
  - apply sample_panel_in_scope. vm_compute. reflexivity.
Defined.

Lemma labels_ignore_the_past_witness :
  ∃ out1 h1 rows1 out2 h2 rows2,
    build_default_flags 1%positive sample_cutoff sample_store_pair
      = Some (out1, h1) ∧
    h1 !! out1 = Some rows1 ∧
    build_default_flags 2%positive sample_cutoff sample_store_pair
      = Some (out2, h2) ∧
    h2 !! out2 = Some rows2 ∧
    ∀ r1 r2, r1 ∈ rows1 → r2 ∈ rows2 → id r1 = id r2 →
      ∃ a b v1 v2 v3,
        a ∈ sample_panel ∧ b ∈ sample_panel_past ∧
        labels r1 = labels a ++ appended_labels v1 v2 v3 ∧
        labels r2 = labels b ++ appended_labels v1 v2 v3.
Proof.
  apply (labels_ignore_the_past sample_store_pair 1%positive 2%positive
           sample_panel sample_panel_past sample_cutoff).
  - reflexivity.
  - reflexivity.
  - vm_compute. reflexivity.
Defined.

Lemma sample_grid_at_midnight : grid_at_midnight sample_grid.
Proof. unfold grid_at_midnight, sample_grid. repeat constructor. Qed.

Lemma pipeline_labels_witness :
  ∃ final frames fdd s',
    generate mixed_unif ones sample_sqrt sample_grid 2 0%nat
      = Ok ((final, frames, fdd), s') ∧
    ∀ (h : store) df_loc, h !! df_loc = Some final →
      ∃ out h' rows,
        build_default_flags df_loc sample_cutoff h = Some (out, h') ∧
        h' !! out = Some rows ∧
        ∀ r, r ∈ rows →
          ∃ v1 v2 v3,
            labels r = appended_labels v1 v2 v3 ∧
            ∀ n v, (n, v) ∈ [(1%nat, v1); (2%nat, v2); (3%nat, v3)] →
              (v = 1 ∧ in_default_within sample_grid (fdd !! id r) sample_cutoff n) ∨
              (v = 0 ∧ ¬ in_default_within sample_grid (fdd !! id r) sample_cutoff n).
Proof.
  apply (pipeline_labels mixed_unif ones sample_sqrt sample_grid
           mixed_unif_range 2%nat 0%nat sample_cutoff).
  - simpl. lia.
  - lia.
  - exact sample_grid_at_midnight.
Defined.

(** ** The endpoint name *)

Section EndpointFacts.
Import EndpointFile.

Lemma plain_char_facts c :
  plain_char c →
  special c = false ∧ isspace c = false ∧
  Ascii.eqb c LF = false ∧ Ascii.eqb c CR = false.
Proof.
  intros (Hlo & Hhi & Hq & Hcomma).
  assert (Hne : ∀ n, (n < 256)%nat → nat_of_ascii c ≠ n →
                     Ascii.eqb c (ascii_of_nat n) = false).
  { intros n Hlt Hn. apply Ascii.eqb_neq. intros ->.
    by rewrite nat_ascii_embedding in Hn. }
  unfold special, isspace, delimiter, quotechar, CR, LF.
  change ","%char with (ascii_of_nat 44).
  change "034"%char with (ascii_of_nat 34).
  change "013"%char with (ascii_of_nat 13).
  change "010"%char with (ascii_of_nat 10).
  rewrite !Hne by lia. cbv zeta.
  repeat split.
  repeat match goal with
  | |- context [(?a <=? ?b)%nat] => destruct (Nat.leb_spec a b)
  | |- context [(?a =? ?b)%nat] => destruct (Nat.eqb_spec a b)
  end; simpl; try done; lia.
Qed.

Lemma rstrip_plain s tail :
  plain_name s → rstrip tail = EmptyString → rstrip (s +:+ tail) = s.
Proof.
  intros [Hne Hall] Htail. induction s as [|c s IH]; [done|].
  cbn [String.list_ascii_of_string] in Hall. apply Forall_cons in Hall as [Hc Hall].
  change (String c s +:+ tail) with (String c (s +:+ tail)).
  cbn [rstrip]. destruct (plain_char_facts c Hc) as (_ & Hsp & _).
  destruct s as [|c' s'].
  - change (EmptyString +:+ tail) with tail. by rewrite Htail, Hsp.
  - by rewrite IH.
Qed.

Lemma lstrip_plain s : plain_name s → lstrip s = s.
Proof.
  intros [Hne Hall]. destruct s as [|c s]; [done|].
  cbn [String.list_ascii_of_string] in Hall. apply Forall_cons in Hall as [Hc _].
  cbn [lstrip]. by destruct (plain_char_facts c Hc) as (_ & -> & _).
Qed.

Lemma needs_quoting_plain s :
  Forall plain_char (String.list_ascii_of_string s) → needs_quoting s = false.
Proof.
  induction s as [|c s IH]; [done|]. cbn [String.list_ascii_of_string].
  intros [Hc Hall]%Forall_cons. cbn [needs_quoting].
  destruct (plain_char_facts c Hc) as (-> & _). by rewrite IH.
Qed.

Lemma write_newlines_plain linesep s tail :
  Forall plain_char (String.list_ascii_of_string s) →
  write_newlines linesep (s +:+ tail) = s +:+ write_newlines linesep tail.
Proof.
  induction s as [|c s IH]; [done|]. cbn [String.list_ascii_of_string].
  intros [Hc Hall]%Forall_cons.
  change (String c s +:+ tail) with (String c (s +:+ tail)).
  cbn [write_newlines]. destruct (plain_char_facts c Hc) as (_ & _ & -> & _).
  by rewrite IH.
Qed.

Lemma read_newlines_plain b s tail :
  Forall plain_char (String.list_ascii_of_string s) →
  s ≠ EmptyString →
  read_newlines b (s +:+ tail) = s +:+ read_newlines false tail.
Proof.
  revert b. induction s as [|c s IH]; intros b Hall Hne; [done|].
  cbn [String.list_ascii_of_string] in Hall. apply Forall_cons in Hall as [Hc Hall].
  change (String c s +:+ tail) with (String c (s +:+ tail)).
  cbn [read_newlines]. destruct (plain_char_facts c Hc) as (_ & _ & -> & ->).
  cbn [andb]. destruct s as [|c' s']; [done|].
  by rewrite IH.
Qed.

(** X20. The prediction script reads back the endpoint name that the
    deployment script wrote: for a name of printable characters without
    space, comma or double quote, [ENDPOINT_NAME] is [resource_name], whether
    the platform ends lines with [\n] or with [\r\n]. *)
Theorem endpoint_name_round_trip linesep resource_name :
  plain_name resource_name →
  linesep = String LF EmptyString ∨ linesep = String CR (String LF EmptyString) →
  ENDPOINT_NAME linesep resource_name = resource_name.
Proof.
  intros Hplain Hsep. pose proof Hplain as [Hne Hall].
  unfold ENDPOINT_NAME, writerow.
  rewrite (needs_quoting_plain _ Hall), bool_decide_eq_false_2 by done.
  cbn [orb]. rewrite (write_newlines_plain _ _ _ Hall).
  rewrite (read_newlines_plain _ _ _ Hall Hne).
  unfold strip. rewrite rstrip_plain; [by apply lstrip_plain|done|].
  destruct Hsep as [-> | ->]; reflexivity.
Qed.

Lemma plain_name_check s :
  forallb (λ c, let n := nat_of_ascii c in
                (33 <=? n)%nat && (n <=? 126)%nat &&
                negb (n =? 34)%nat && negb (n =? 44)%nat)
    (String.list_ascii_of_string s) = true →
  s ≠ EmptyString → plain_name s.
Proof.
  intros Hall Hne. split; [done|]. rewrite forallb_forall in Hall.
  apply Forall_forall. intros c Hc. apply list_elem_of_In, Hall in Hc.
  cbv zeta in Hc. unfold plain_char.
  repeat match type of Hc with
  | context [(?a <=? ?b)%nat] => destruct (Nat.leb_spec a b)
  | context [(?a =? ?b)%nat] => destruct (Nat.eqb_spec a b)
  end; simpl in Hc; try done; lia.
Qed.

Lemma endpoint_name_round_trip_witness :
  ENDPOINT_NAME (String LF EmptyString)
    "projects/123/locations/us-central1/endpoints/456"
  = "projects/123/locations/us-central1/endpoints/456"%string.
Proof.
  apply endpoint_name_round_trip.
  - apply plain_name_check; [vm_compute; reflexivity|done].
  - by left.
Defined.

End EndpointFacts.

(** ** The feature table *)

(** X21. On the table that the generator script writes, the training script
    keeps nine features, in this order: [default_ind], [credit_limit],
    [used_amount], [f_dummy1] to [f_dummy5] and [key_target]; the prediction
    script sends as many values. *)
Theorem training_features (data : DataFrame) (r : Row) :
  pipeline_schema r →
  ∃ x_row,
    Train.X_train_row data r = Ok x_row ∧
    Train.feature_list x_row
    = ["default_ind"; "credit_limit"; "used_amount"; "f_dummy1"; "f_dummy2";
       "f_dummy3"; "f_dummy4"; "f_dummy5"; "key_target"]%string ∧
    length Predict.values = length (Train.feature_list x_row).
Proof.
  intros [Hd Hl]. unfold Train.X_train_row, Train.columns.
  rewrite Hd, Hl. 
  assert (Hdrop : forallb (λ c, bool_decide (c ∈
            ["id"; "date"; "default_ind"; "sector"; "credit_limit"; "used_amount"]%string
            ++ (dummy_name <$> features) ++ (label_name <$> [1; 2; 3]%nat)
            ++ ["key_target"%string])) Train.drop_cols = true) by (vm_compute; reflexivity).
  rewrite Hdrop. eexists. split; [reflexivity|].
  assert (Hnames : (List.filter (λ c : string * option Q, bool_decide (c.1 ∉ Train.drop_cols))
                      (Train.numeric_cells data r)).*1
                   = List.filter (λ c, bool_decide (c ∉ Train.drop_cols))
                       (Train.numeric_cells data r).*1).
  { generalize (Train.numeric_cells data r). intros l.
    induction l as [|c l IH]; [done|]. cbn [List.filter fmap list_fmap].
    destruct (bool_decide (c.1 ∉ Train.drop_cols)); cbn [fmap list_fmap];
      by rewrite <- IH. }
  unfold Train.feature_list.
  rewrite <- list_fmap_compose.
  erewrite (list_fmap_ext _ fst) by (by intros ? ? ?). 
  rewrite Hnames. unfold Train.numeric_cells.
  rewrite !fmap_app, <- list_fmap_compose, Hd.
  erewrite (list_fmap_ext _ fst (labels r)) by (by intros ? ? ?).
  rewrite Hl. split; vm_compute; reflexivity.
Qed.

Lemma training_features_witness :
  ∃ x_row,
    Train.X_train_row [sample_output_row] sample_output_row = Ok x_row ∧
    Train.feature_list x_row
    = ["default_ind"; "credit_limit"; "used_amount"; "f_dummy1"; "f_dummy2";
       "f_dummy3"; "f_dummy4"; "f_dummy5"; "key_target"]%string ∧
    length Predict.values = length (Train.feature_list x_row).
Proof.
  apply (training_features [sample_output_row] sample_output_row).
  split; reflexivity.
Defined.

Section TrainingOnRawPanel.

Variable unif : nat → Q.
Variable gauss : nat → Q.
Variable np_sqrt : Q → Q.
Variable date_range : list Timestamp.

Hypothesis unif_range : unit_interval unif.

(** X22. The training script needs the labels: on [final_df] as the
    generator leaves it, before the label deriver has run, dropping the label
    columns raises KeyError at every row. *)
Theorem training_needs_labels N s :
  (0 < no_obs_per_id date_range)%nat → (0 < N)%nat →
  ∃ final frames fdd s',
    generate unif gauss np_sqrt date_range N s
      = Ok ((final, frames, fdd), s') ∧
    ∀ r, r ∈ final → Train.X_train_row final r = Raise KeyError.
Proof.
  intros HL HN.
  destruct (generate_shape unif gauss np_sqrt date_range unif_range N s HL HN)
    as (nd & final & frames & fdd & s' & Hrun & -> & _ & _ & Hall).
  eexists _, frames, fdd, s'. split; [done|].
  intros r Hr.
  destruct (final_row gauss date_range _ _ _ _ _ Hall Hr)
    as (d & ? & ? & ? & _ & _ & _ & _ & _ & _ & _ & _ & _ & Hn & _ & Hl).
  unfold Train.X_train_row, Train.columns. by rewrite Hn, Hl.
Qed.

(** X23. On an empty time grid the script raises ValueError, whatever the
    number of entities: drawing a first-default index calls [randint(0, 0)],
    and an entity that does not default fails when the one-element list of
    credit limits is assigned to a frame without rows. *)
Theorem empty_grid_raises N s :
  draw_first_default_idx unif [] s = Raise ValueError ∧
  generate unif gauss np_sqrt [] N s = Raise ValueError.
Proof.
  split.
  - by apply draw_first_default_idx_empty.
  - by apply generate_empty_grid.
Qed.

End TrainingOnRawPanel.

Lemma training_needs_labels_witness :
  ∃ final frames fdd s',
    generate mixed_unif ones sample_sqrt sample_grid 2 0%nat
      = Ok ((final, frames, fdd), s') ∧
    ∀ r, r ∈ final → Train.X_train_row final r = Raise KeyError.
Proof.
  apply (training_needs_labels mixed_unif ones sample_sqrt sample_grid
           mixed_unif_range 2%nat 0%nat); simpl; lia.
Defined.

Lemma empty_grid_raises_witness :
  draw_first_default_idx sample_unif [] 0%nat = Raise ValueError ∧
  generate sample_unif zeros sample_sqrt [] 2 0%nat = Raise ValueError.
Proof.
  apply (empty_grid_raises sample_unif zeros sample_sqrt sample_unif_range).
Defined.
